(** * QuantFlow signal core: indicators, analyzer, scanner, feedback endpoint

    A shallow embedding of [server.ts] and [src/indicators.ts].

    Numbers.  JavaScript numbers are IEEE doubles.  Prices and the values
    derived from them (sma, rsi, macd, winrate) are embedded as exact
    rationals [Q]; quantities that are integers by construction (array
    lengths, counts, the feedback adjustments, epoch milliseconds) are
    embedded as [nat] or [Z].  NaN and the infinities are outside the
    model: candle windows are built from bounded random walks and JSON
    cannot carry them.

    Ambient effects.  [Math.random()], [new Date()] and [Date.now()] are
    read from an explicit record of readings handed to each call.

    State.  The module-level [marketData] and [feedbackHistory] are passed
    in as an environment; the feedback endpoint returns the new history and
    a connection threads its [lastSignalInfo] from message to message.

    Layout.  The embedding comes first, then the vocabulary in which the
    properties are stated and the sample data, then the properties. *)

From Stdlib Require Import ZArith QArith Qminmax Qround Lqa String DecimalString List Lia.
From stdpp Require Import gmap strings list.
Import ListNotations.

Local Open Scope Z_scope.
Local Open Scope Q_scope.
Local Open Scope string_scope.
Local Open Scope list_scope.

(** ** Numeric helpers *)

(** [a < b] and [a > b] on numbers. *)
Definition Qlt_bool (a b : Q) : bool := negb (Qle_bool b a).
Definition Qgt_bool (a b : Q) : bool := Qlt_bool b a.

(** [Array.prototype.slice(-n)]: the trailing [n] elements; [slice(-0)] is
    [slice(0)], the whole array. *)
Definition sliceLast {A} (n : nat) (l : list A) : list A :=
  match n with
  | O => l
  | _ => drop (length l - n) l
  end.

(** [Array.prototype.slice(0, n)]. *)
Definition sliceFirst {A} (n : nat) (l : list A) : list A := take n l.

Definition Qsum (l : list Q) : Q := fold_left Qplus l 0.

Definition Q_of_nat (n : nat) : Q := inject_Z (Z.of_nat n).

(** ** Data model ([src/types.ts]) *)

Record Candle := mkCandle {
  time : Z;
  open : Q;
  high : Q;
  low : Q;
  close : Q;
  volume : Q
}.

Record Macd := mkMacd {
  value : option Q;
  signal : option Q;
  histogram : option Q
}.

Inductive Fractal := top | bottom.
Inductive Trend := up | down | neutral.

Record Indicators := mkIndicators {
  rsi : option Q;
  macd : Macd;
  sma16 : option Q;
  fractal : option Fractal;
  trend : Trend
}.

(** ** Indicator engine ([src/indicators.ts]) *)

Definition calculateSMA (data : list Q) (period : nat) : option Q :=
  if (length data <? period)%nat then None
  else
    let slice := sliceLast period data in
    Some (Qsum slice / Q_of_nat period).

Definition calculateEMA (data : list Q) (period : nat)
    (previousEMA : option Q) : option Q :=
  if (length data <? period)%nat then None
  else
    let k := 2 / (Q_of_nat period + 1) in
    match previousEMA with
    | None => calculateSMA (sliceFirst period data) period
    | Some prev => Some (nth (length data - 1) data 0 * k + prev * (1 - k))
    end.

(** The two loops of [calculateRSI] run over the indices [1..period] and
    [period+1..length-1]; every index read is below [length closes], so
    the default of [nth] is never returned. *)
Definition rsiSeedStep (closes : list Q) (acc : Q * Q) (i : nat) : Q * Q :=
  let '(gains, losses) := acc in
  let diff := nth i closes 0 - nth (i - 1) closes 0 in
  if Qle_bool 0 diff then (gains + diff, losses) else (gains, losses - diff).

Definition rsiSmoothStep (closes : list Q) (period : nat)
    (acc : Q * Q) (i : nat) : Q * Q :=
  let '(avgGain, avgLoss) := acc in
  let diff := nth i closes 0 - nth (i - 1) closes 0 in
  let gain := if Qle_bool 0 diff then diff else 0 in
  let loss := if Qlt_bool diff 0 then - diff else 0 in
  ((avgGain * (Q_of_nat period - 1) + gain) / Q_of_nat period,
   (avgLoss * (Q_of_nat period - 1) + loss) / Q_of_nat period).

Definition calculateRSI (closes : list Q) (period : nat) : option Q :=
  if (length closes <=? period)%nat then None
  else
    let '(gains, losses) :=
      fold_left (rsiSeedStep closes) (seq 1 period) (0, 0) in
    let avgGain := gains / Q_of_nat period in
    let avgLoss := losses / Q_of_nat period in
    let '(avgGain, avgLoss) :=
      fold_left (rsiSmoothStep closes period)
        (seq (period + 1) (length closes - (period + 1))) (avgGain, avgLoss) in
    if Qeq_bool avgLoss 0 then Some 100
    else
      let rs := avgGain / avgLoss in
      Some (100 - 100 / (1 + rs)).

Definition calculateMACD (closes : list Q) : Macd :=
  let result := mkMacd None None None in
  if (length closes <? 26)%nat then result
  else
    let ema12 := calculateEMA closes 12 None in
    let ema26 := calculateEMA closes 26 None in
    match ema12, ema26 with
    | Some ema12, Some ema26 =>
        let macdValue := ema12 - ema26 in
        let signal := macdValue * (2 # 10) in
        mkMacd (Some macdValue) (Some signal) (Some (macdValue - signal))
    | _, _ => result
    end.

(** [!sma16] holds for [null] and for the number [0]. *)
Definition falsyNumber (x : option Q) : bool :=
  match x with
  | None => true
  | Some v => Qeq_bool v 0
  end.

Definition detectTrend (closes : list Q) (sma16 : option Q) : Trend :=
  if falsyNumber sma16 || (length closes <? 2)%nat then neutral
  else
    match sma16 with
    | None => neutral
    | Some s =>
        let lastClose := nth (length closes - 1) closes 0 in
        if Qgt_bool lastClose s then up
        else if Qlt_bool lastClose s then down
        else neutral
    end.

(** The five candles read by [detectFractal]; on a window of at least five
    candles all five lookups succeed. *)
Definition detectFractal (candles : list Candle) : option Fractal :=
  if (length candles <? 5)%nat then None
  else
    let i := (length candles - 3)%nat in
    match candles !! (i - 2)%nat, candles !! (i - 1)%nat, candles !! i,
          candles !! (i + 1)%nat, candles !! (i + 2)%nat with
    | Some prev2, Some prev1, Some curr, Some next1, Some next2 =>
        if Qgt_bool (high curr) (high prev2) && Qgt_bool (high curr) (high prev1)
           && Qgt_bool (high curr) (high next1) && Qgt_bool (high curr) (high next2)
        then Some top
        else if Qlt_bool (low curr) (low prev2) && Qlt_bool (low curr) (low prev1)
                && Qlt_bool (low curr) (low next1) && Qlt_bool (low curr) (low next2)
        then Some bottom
        else None
    | _, _, _, _, _ => None
    end.

Definition getIndicators (candles : list Candle) : Indicators :=
  let closes := map close candles in
  let rsi := calculateRSI closes 14 in
  let macd := calculateMACD closes in
  let sma16 := calculateSMA closes 16 in
  mkIndicators rsi macd sma16 (detectFractal candles) (detectTrend closes sma16).

(** ** Signals, feedback records and scanner configuration ([src/types.ts]) *)

Inductive MarketType := REAL | OTC.
Inductive Direction := CALL | PUT | NEUTRAL.
(** ['Weak' | 'Medium' | 'Strong' | 'None'] *)
Inductive Strength := Weak | Medium | Strong | StrengthNone.
(** ['Baixa' | 'Média' | 'Alta' | 'Muito Alta'] *)
Inductive Confidence := Baixa | Media | Alta | MuitoAlta.
Inductive Timeframe := M1 | M5.
(** [ScannerConfig.marketType]: ['REAL' | 'OTC' | 'GERAL']. *)
Inductive MarketFilter := Only (m : MarketType) | GERAL.

Record Context := mkContext {
  ctx_rsi : option Q;
  ctx_macdHist : option Q;
  ctx_trend : string;
  ctx_confluences : list string
}.

Record Signal := mkSignal {
  timestamp : Z;
  asset : string;
  marketType : MarketType;
  direction : Direction;
  confluences : list string;
  strength : Strength;
  confidence : Confidence;
  winrate : Q;
  price : Q;
  entryTimestamp : Z;
  entryTime : string;
  expiration : string;
  context : option Context
}.

Record ScannerConfig := mkConfig {
  timeframe : Timeframe;
  cfg_marketType : MarketFilter
}.

(** A feedback record as it sits in [feedbackHistory]: the parsed JSON body
    of a submission.  A property may be missing ([None]); [asset],
    [direction] and [result] hold whatever string the client sent. *)
Record Feedback := mkFeedback {
  fb_asset : option string;
  fb_direction : option string;
  fb_result : option string;
  fb_timestamp : option Z;
  fb_context : option Context
}.

Record MarketEntry := mkEntry {
  candles : list Candle;
  md_marketType : MarketType
}.

(** The module-level state read by the analyzer, and the zone of the host
    ([tzMinutes]: local time minus UTC, in minutes). *)
Record Env := mkEnv {
  marketData : gmap string MarketEntry;
  feedbackHistory : list Feedback;
  tzMinutes : Z
}.

(** Readings taken during one call of [analyzeAsset]: [new Date()] at the
    entry-time computation, [Math.random()] in the winrate, [Date.now()] in
    the returned object. *)
Record Ambient := mkAmbient {
  dateNew : Z;
  mathRandom : Q;
  dateNow : Z
}.

Definition directionText (d : Direction) : string :=
  match d with CALL => "CALL" | PUT => "PUT" | NEUTRAL => "NEUTRAL" end.

(** [x === s] for a property that may be missing. *)
Definition propIs (x : option string) (s : string) : bool :=
  match x with
  | Some v => String.eqb v s
  | None => false
  end.

(** [xs.includes(c)] *)
Definition includes (xs : list string) (c : string) : bool :=
  existsb (String.eqb c) xs.

(** ** Dates ([Date] and date-fns), on epoch milliseconds

    date-fns works on the local wall clock.  Zone offsets are whole
    minutes, so truncating to the minute is the same on both clocks. *)

Definition addMinutes (d : Z) (amount : Z) : Z := (d + amount * 60000)%Z.
Definition startOfMinute (d : Z) : Z := (d - d mod 60000)%Z.
Definition setSeconds (d : Z) (s : Z) : Z :=
  (d - ((d / 1000) mod 60) * 1000 + s * 1000)%Z.
Definition getMinutes (tz : Z) (d : Z) : Z := ((d / 60000 + tz) mod 60)%Z.
Definition getHours (tz : Z) (d : Z) : Z := (((d / 60000 + tz) / 60) mod 24)%Z.
Definition getSeconds (d : Z) : Z := ((d / 1000) mod 60)%Z.

(** [Math.ceil(a / b)] on integers, [b > 0]. *)
Definition ceilDiv (a b : Z) : Z := (- ((- a) / b))%Z.

Definition digitChar (n : Z) : Ascii.ascii :=
  Ascii.ascii_of_nat (48 + Z.to_nat n).

Definition twoDigits (n : Z) : string :=
  String (digitChar (n / 10)) (String (digitChar (n mod 10)) EmptyString).

(** [format(d, 'HH:mm:ss')] *)
Definition formatHHmmss (tz : Z) (d : Z) : string :=
  twoDigits (getHours tz d) ++ ":" ++ twoDigits (getMinutes tz d) ++ ":"
  ++ twoDigits (getSeconds d).

(** ** Signal analyzer ([server.ts], [analyzeAsset]) *)

(** Reading a property of [undefined] raises a [TypeError]. *)
Inductive outcome (A : Type) :=
| Returns (a : A)
| Throws.
Arguments Returns {A} a.
Arguments Throws {A}.

Definition bind {A B} (m : outcome A) (k : A -> outcome B) : outcome B :=
  match m with
  | Returns a => k a
  | Throws => Throws
  end.

Notation "x <- m ;; k" := (bind m (fun x => k))
  (at level 100, m at next level, right associativity).

(** [lastCandle.close] where [lastCandle = candles[candles.length - 1]]. *)
Definition closeOf (lastCandle : option Candle) : outcome Q :=
  match lastCandle with
  | Some c => Returns (close c)
  | None => Throws
  end.

Definition isFractal (f : option Fractal) (k : Fractal) : bool :=
  match f, k with
  | Some top, top => true
  | Some bottom, bottom => true
  | _, _ => false
  end.

Definition isTrend (t k : Trend) : bool :=
  match t, k with
  | up, up => true
  | down, down => true
  | neutral, neutral => true
  | _, _ => false
  end.

(** The BUY rules. *)
Definition buyFractal (indicators : Indicators) : bool :=
  isFractal (fractal indicators) bottom.
Definition buyRSI (indicators : Indicators) : bool :=
  match rsi indicators with Some r => Qgt_bool r 50 | None => false end.
Definition buyMACD (indicators : Indicators) : bool :=
  match histogram (macd indicators) with Some h => Qgt_bool h 0 | None => false end.
Definition buySMA (indicators : Indicators) (lastCandle : option Candle)
    : outcome bool :=
  match sma16 indicators with
  | None => Returns false
  | Some s => c <- closeOf lastCandle ;; Returns (Qgt_bool c s)
  end.
Definition buyTrend (indicators : Indicators) : bool :=
  isTrend (trend indicators) up.

(** The SELL rules. *)
Definition sellFractal (indicators : Indicators) : bool :=
  isFractal (fractal indicators) top.
Definition sellRSI (indicators : Indicators) : bool :=
  match rsi indicators with Some r => Qlt_bool r 50 | None => false end.
Definition sellMACD (indicators : Indicators) : bool :=
  match histogram (macd indicators) with Some h => Qlt_bool h 0 | None => false end.
Definition sellSMA (indicators : Indicators) (lastCandle : option Candle)
    : outcome bool :=
  match sma16 indicators with
  | None => Returns false
  | Some s => c <- closeOf lastCandle ;; Returns (Qlt_bool c s)
  end.
Definition sellTrend (indicators : Indicators) : bool :=
  isTrend (trend indicators) down.

(** [if (b) confluences.push(label)] *)
Definition pushIf (b : bool) (label : string) (confluences : list string)
    : list string :=
  if b then confluences ++ [label] else confluences.

(** Lines 126-140: the BUY block, on the running [direction] and
    [confluences]. *)
Definition buyBlock (indicators : Indicators) (lastCandle : option Candle)
    (st : Direction * list string) : outcome (Direction * list string) :=
  let '(direction, confluences) := st in
  let bFractal := buyFractal indicators in
  let bRSI := buyRSI indicators in
  let bMACD := buyMACD indicators in
  bSMA <- buySMA indicators lastCandle ;;
  let bTrend := buyTrend indicators in
  if bFractal || bRSI || bMACD || bSMA || bTrend then
    let confluences := pushIf bFractal "Fractal Fundo" confluences in
    let confluences := pushIf bRSI "RSI > 50" confluences in
    let confluences := pushIf bMACD "MACD Positivo" confluences in
    let confluences := pushIf bSMA "Preço > SMA16" confluences in
    let confluences := pushIf bTrend "Tendência Alta" confluences in
    Returns (if (2 <=? length confluences)%nat then CALL else direction,
             confluences)
  else Returns (direction, confluences).

(** Lines 142-158: the SELL block; it runs on the same [confluences]
    array the BUY block has pushed to. *)
Definition sellBlock (indicators : Indicators) (lastCandle : option Candle)
    (st : Direction * list string) : outcome (Direction * list string) :=
  let '(direction, confluences) := st in
  match direction with
  | NEUTRAL =>
      let sFractal := sellFractal indicators in
      let sRSI := sellRSI indicators in
      let sMACD := sellMACD indicators in
      sSMA <- sellSMA indicators lastCandle ;;
      let sTrend := sellTrend indicators in
      if sFractal || sRSI || sMACD || sSMA || sTrend then
        let confluences := pushIf sFractal "Fractal Topo" confluences in
        let confluences := pushIf sRSI "RSI < 50" confluences in
        let confluences := pushIf sMACD "MACD Negativo" confluences in
        let confluences := pushIf sSMA "Preço < SMA16" confluences in
        let confluences := pushIf sTrend "Tendência Baixa" confluences in
        Returns (if (2 <=? length confluences)%nat then PUT else direction,
                 confluences)
      else Returns (direction, confluences)
  | _ => Returns (direction, confluences)
  end.

Definition trendText (t : Trend) : string :=
  match t with up => "up" | down => "down" | neutral => "neutral" end.

(** The share of the recorded labels found among the current ones, over the
    longer of the two arrays.  Both arrays empty gives [0/0]: [NaN] in
    JavaScript, [0] here, and neither reaches [0.7].  For arrays of any
    feasible length the rounded quotient of the two lengths compares with
    the literal [0.7] as the exact quotient compares with 7/10. *)
Definition overlapRatio (recorded confluences : list string) : Q :=
  Q_of_nat (length (List.filter (includes confluences) recorded))
  / Q_of_nat (Nat.max (length recorded) (length confluences)).

(** The predicate of the [similarLosses] filter (lines 163-170). *)
Definition similarLoss (assetName : string) (direction : Direction)
    (confluences : list string) (f : Feedback) : bool :=
  propIs (fb_asset f) assetName
  && propIs (fb_result f) "loss"
  && propIs (fb_direction f) (directionText direction)
  && match fb_context f with
     | None => false
     | Some ctx => Qle_bool (7 # 10) (overlapRatio (ctx_confluences ctx) confluences)
     end.

Definition lossPenaltyOf (history : list Feedback) (assetName : string)
    (direction : Direction) (confluences : list string) : Z :=
  let similarLosses :=
    List.filter (similarLoss assetName direction confluences) history in
  if (0 <? length similarLosses)%nat
  then (- Z.of_nat (length similarLosses) * 5)%Z
  else 0%Z.

(** Lines 178-188. *)
Definition winrateAdjustmentOf (history : list Feedback) (assetName : string)
    : Z :=
  let recentFeedback :=
    sliceLast 20 (List.filter (fun f => propIs (fb_asset f) assetName) history) in
  let losses :=
    Z.of_nat (length (List.filter (fun f => propIs (fb_result f) "loss") recentFeedback)) in
  let wins :=
    Z.of_nat (length (List.filter (fun f => propIs (fb_result f) "win") recentFeedback)) in
  if (wins <? losses)%Z then (- (losses - wins) * 2)%Z
  else if (losses <? wins)%Z then ((wins - losses) * 1)%Z
  else 0%Z.

(** Lines 190-203: the entry date and the expiration label. *)
Definition entrySchedule (tz : Z) (tf : Timeframe) (entryDate : Z)
    : Z * string :=
  match tf with
  | M1 => (addMinutes (startOfMinute entryDate) 2, "1 min")
  | M5 =>
      let mins := getMinutes tz entryDate in
      let nextRound := (ceilDiv (mins + 1) 5 * 5)%Z in
      (setSeconds (startOfMinute (addMinutes entryDate (nextRound - mins))) 0,
       "5 min")
  end.

(** Line 205, before clamping. *)
Definition rawWinrate (confluences : list string) (random : Q)
    (winrateAdjustment lossPenalty : Z) : Q :=
  75 + Q_of_nat (length confluences) * 5 + random * 5
  + inject_Z winrateAdjustment + inject_Z lossPenalty.

Definition confidenceOf (confluences : list string) : Confidence :=
  let confidence := Baixa in
  let confidence := if (length confluences =? 3)%nat then Media else confidence in
  let confidence := if (length confluences =? 4)%nat then Alta else confidence in
  if (5 <=? length confluences)%nat then MuitoAlta else confidence.

Definition strengthOf (confluences : list string) : Strength :=
  if (4 <=? length confluences)%nat then Strong
  else if (3 <=? length confluences)%nat then Medium
  else Weak.

Definition analyzeAsset (env : Env) (amb : Ambient) (assetName : string)
    (config : ScannerConfig) : outcome (option Signal) :=
  match marketData env !! assetName with
  | None => Returns None
  | Some data =>
      let candles := candles data in
      let marketType := md_marketType data in
      let indicators := getIndicators candles in
      let lastCandle := last candles in
      st <- buyBlock indicators lastCandle (NEUTRAL, []) ;;
      st <- sellBlock indicators lastCandle st ;;
      let '(direction, confluences) := st in
      match direction with
      | NEUTRAL => Returns None
      | _ =>
          let lossPenalty :=
            lossPenaltyOf (feedbackHistory env) assetName direction confluences in
          let winrateAdjustment :=
            winrateAdjustmentOf (feedbackHistory env) assetName in
          let '(entryDate, expiration) :=
            entrySchedule (tzMinutes env) (timeframe config) (dateNew amb) in
          let winrate :=
            rawWinrate confluences (mathRandom amb) winrateAdjustment lossPenalty in
          price <- closeOf lastCandle ;;
          Returns (Some {|
            timestamp := dateNow amb;
            asset := assetName;
            marketType := marketType;
            direction := direction;
            confluences := confluences;
            strength := strengthOf confluences;
            confidence := confidenceOf confluences;
            winrate := Qmax 0 (Qmin winrate 100);
            price := price;
            entryTimestamp := entryDate;
            entryTime := formatHHmmss (tzMinutes env) entryDate;
            expiration := expiration;
            context := Some {|
              ctx_rsi := rsi indicators;
              ctx_macdHist := histogram (macd indicators);
              ctx_trend := trendText (trend indicators);
              ctx_confluences := confluences
            |}
          |})
      end
  end.

(** ** Scanner ([server.ts], the [SCAN_MARKET] handler) *)

Definition ASSETS : list (string * MarketType) :=
  [ ("EURUSD", REAL); ("GBPUSD", REAL); ("USDJPY", REAL); ("AUDUSD", REAL);
    ("USDCAD", REAL); ("EURJPY", REAL); ("EURGBP", REAL); ("GBPJPY", REAL);
    ("AUDJPY", REAL); ("NZDUSD", REAL);
    ("EURUSD-OTC", OTC); ("GBPUSD-OTC", OTC); ("USDJPY-OTC", OTC);
    ("AUDCAD-OTC", OTC); ("EURGBP-OTC", OTC); ("USDCHF-OTC", OTC);
    ("NZDUSD-OTC", OTC); ("AUDUSD-OTC", OTC); ("GBPJPY-OTC", OTC);
    ("EURJPY-OTC", OTC); ("CADJPY-OTC", OTC); ("CHFJPY-OTC", OTC);
    ("AUDNZD-OTC", OTC); ("EURCAD-OTC", OTC); ("GBPCAD-OTC", OTC);
    ("BTCUSD", REAL); ("ETHUSD", REAL); ("SOLUSD", REAL); ("XRPUSD", REAL);
    ("ADAUSD", REAL); ("DOGEUSD", REAL); ("DOTUSD", REAL);
    ("BTCUSD-OTC", OTC); ("ETHUSD-OTC", OTC); ("LTCUSD-OTC", OTC) ].

Inductive Status := analyzed | discarded | selected.

Record ScanLog := mkLog {
  log_time : string;
  log_asset : string;
  status : Status;
  reason : option string
}.

(** The per-connection memory [lastSignalInfo]. *)
Record SignalInfo := mkInfo {
  info_asset : string;
  info_entryTimestamp : Z
}.

(** Readings taken during one scan: those of the analysis of each
    instrument, the [new Date()] of its log entry, and the [new Date()] of
    the closing "selected" entry.  They are indexed by instrument name;
    [ASSETS] lists every name once. *)
Record ScanAmbient := mkScanAmbient {
  analysisAmbient : string -> Ambient;
  logClock : string -> Z;
  selectedClock : Z
}.

Definition marketTypeEqb (a b : MarketType) : bool :=
  match a, b with
  | REAL, REAL => true
  | OTC, OTC => true
  | _, _ => false
  end.

(** [scannerConfig.marketType !== 'GERAL' && asset.type !== scannerConfig.marketType] *)
Definition marketFiltered (cfg : ScannerConfig) (ty : MarketType) : bool :=
  match cfg_marketType cfg with
  | GERAL => false
  | Only m => negb (marketTypeEqb ty m)
  end.

Definition natString (n : Z) : string :=
  DecimalString.NilZero.string_of_uint (N.to_uint (Z.to_N n)).

(** [w.toFixed(1)] for [w >= 0], rounding the exact value half up. *)
Definition toFixed1 (w : Q) : string :=
  let n := Qfloor (w * 10 + (1 # 2)) in
  natString (n / 10) ++ "." ++ natString (n mod 10).

Definition sameSlot (lastSignalInfo : option SignalInfo) (signal : Signal)
    : bool :=
  match lastSignalInfo with
  | Some info =>
      String.eqb (asset signal) (info_asset info)
      && Z.eqb (entryTimestamp signal) (info_entryTimestamp info)
  | None => false
  end.

Definition mutedReason : string := "Ativo silenciado pelo usuário".
Definition marketReason : string := "Tipo de mercado filtrado".
Definition alreadySentReason : string := "Sinal já enviado para este horário".
Definition noConfluenceReason : string := "Sem confluência mínima".
Definition winrateReason (w : Q) : string :=
  "Winrate insuficiente (" ++ toFixed1 w ++ "%)".

(** The callback of [ASSETS.forEach] (lines 285-334), on the running
    [logs] and [bestSignal]. *)
Definition scanAsset (env : Env) (clk : ScanAmbient) (scannerConfig : ScannerConfig)
    (mutedList : list string) (lastSignalInfo : option SignalInfo)
    (st : list ScanLog * option Signal) (a : string * MarketType)
    : outcome (list ScanLog * option Signal) :=
  let '(logs, bestSignal) := st in
  let '(name, ty) := a in
  let now := formatHHmmss (tzMinutes env) (logClock clk name) in
  if includes mutedList name then
    Returns (logs ++ [mkLog now name discarded (Some mutedReason)], bestSignal)
  else if marketFiltered scannerConfig ty then
    Returns (logs ++ [mkLog now name discarded (Some marketReason)], bestSignal)
  else
    signal <- analyzeAsset env (analysisAmbient clk name) name scannerConfig ;;
    match signal with
    | Some signal =>
        if Qlt_bool (winrate signal) 90 then
          Returns (logs ++ [mkLog now name discarded
                              (Some (winrateReason (winrate signal)))],
                   bestSignal)
        else if sameSlot lastSignalInfo signal then
          Returns (logs ++ [mkLog now name discarded (Some alreadySentReason)],
                   bestSignal)
        else
          let logs := logs ++ [mkLog now name analyzed None] in
          match bestSignal with
          | None => Returns (logs, Some signal)
          | Some best =>
              if Qgt_bool (winrate signal) (winrate best)
              then Returns (logs, Some signal)
              else Returns (logs, bestSignal)
          end
    | None =>
        Returns (logs ++ [mkLog now name discarded (Some noConfluenceReason)],
                 bestSignal)
    end.

(** [xs.forEach(f)] for a callback that updates the captured state. *)
Fixpoint forEach {A S} (f : S -> A -> outcome S) (xs : list A) (s : S)
    : outcome S :=
  match xs with
  | [] => Returns s
  | x :: xs => s <- f s x ;; forEach f xs s
  end.

Record ScanResult := mkResult {
  bestSignal : option Signal;
  logs : list ScanLog
}.

(** One scan over [assets]; returns the payload of [SCAN_RESULT] and the
    new [lastSignalInfo]. *)
Definition scan (assets : list (string * MarketType)) (env : Env)
    (clk : ScanAmbient) (scannerConfig : ScannerConfig)
    (mutedList : list string) (lastSignalInfo : option SignalInfo)
    : outcome (ScanResult * option SignalInfo) :=
  st <- forEach (scanAsset env clk scannerConfig mutedList lastSignalInfo)
          assets ([], None) ;;
  let '(logs, bestSignal) := st in
  match bestSignal with
  | Some best =>
      let lastSignalInfo := Some (mkInfo (asset best) (entryTimestamp best)) in
      let logs :=
        logs ++ [mkLog (formatHHmmss (tzMinutes env) (selectedClock clk))
                   (asset best) selected None] in
      Returns (mkResult bestSignal logs, lastSignalInfo)
  | None => Returns (mkResult bestSignal logs, lastSignalInfo)
  end.

Record Message := mkMessage {
  msg_type : string;
  msg_config : ScannerConfig;
  msg_mutedAssets : option (list string)
}.

(** [ws.on('message', ...)]: the reply sent, if any, and the connection's
    [lastSignalInfo] afterwards. *)
Definition onMessage (env : Env) (clk : ScanAmbient) (message : Message)
    (lastSignalInfo : option SignalInfo)
    : outcome (option ScanResult * option SignalInfo) :=
  if String.eqb (msg_type message) "SCAN_MARKET" then
    let mutedList := default [] (msg_mutedAssets message) in
    r <- scan ASSETS env clk (msg_config message) mutedList lastSignalInfo ;;
    Returns (Some (fst r), snd r)
  else Returns (None, lastSignalInfo).

(** One connection.  [lastSignalInfo] lives in the closure of the
    connection handler; each message is handled with the module state and
    the readings current at its arrival. *)
Fixpoint session (arrivals : list (Env * ScanAmbient * Message))
    (lastSignalInfo : option SignalInfo)
    : outcome (list (option ScanResult) * option SignalInfo) :=
  match arrivals with
  | [] => Returns ([], lastSignalInfo)
  | (env, clk, message) :: arrivals =>
      r <- onMessage env clk message lastSignalInfo ;;
      rs <- session arrivals (snd r) ;;
      Returns (fst r :: fst rs, snd rs)
  end.

(** ** Feedback endpoint ([POST /api/feedback]) *)

(** Truthiness of a string-valued property: missing and [""] are falsy. *)
Definition truthy (x : option string) : bool :=
  match x with
  | Some s => negb (String.eqb s "")
  | None => false
  end.

Inductive Response :=
| Status400 (error : string)
| Status200 (status : string) (historySize : nat).

(** The handler on the request body and the in-memory history; [now] is
    the reading of [Date.now()].  [saveFeedback] rewrites the file from the
    history and swallows its own errors; the file is not modelled. *)
Definition postFeedback (now : Z) (feedbackHistory : list Feedback)
    (feedback : Feedback) : Response * list Feedback :=
  if negb (truthy (fb_asset feedback)) || negb (truthy (fb_result feedback))
  then (Status400 "Invalid feedback", feedbackHistory)
  else
    let feedback :=
      mkFeedback (fb_asset feedback) (fb_direction feedback)
        (fb_result feedback) (Some now) (fb_context feedback) in
    let feedbackHistory := feedbackHistory ++ [feedback] in
    (Status200 "ok" (length feedbackHistory), feedbackHistory).

(** ** Market initialisation (lines 78-98) *)

(** The readings taken while one candle is built: four calls of
    [Math.random] (change, high, low, volume) and one of [Date.now]. *)
Record CandleDraws := mkCandleDraws {
  changeDraw : Q;
  highDraw : Q;
  lowDraw : Q;
  nowDraw : Z;
  volumeDraw : Q
}.

(** The readings taken for one instrument: the starting price and the
    readings of each of the iterations. *)
Record AssetDraws := mkAssetDraws {
  priceDraw : Q;
  candleDraws : nat -> CandleDraws
}.

(** The body of the [for] loop, up to the [push]. *)
Definition initCandle (i : nat) (lastPrice : Q) (d : CandleDraws) : Candle :=
  let change := (changeDraw d - (1 # 2)) * (5 # 10000) in
  let open := lastPrice in
  let close := open + change in
  let high := Qmax open close + highDraw d * (2 # 10000) in
  let low := Qmin open close - lowDraw d * (2 # 10000) in
  mkCandle (nowDraw d - (100 - Z.of_nat i) * 60000)
    open high low close (volumeDraw d * 100).

(** [for (let i = ...; i < 100; i++)] with [remaining = 100 - i]. *)
Fixpoint initLoop (remaining i : nat) (draws : nat -> CandleDraws)
    (lastPrice : Q) (candles : list Candle) : list Candle :=
  match remaining with
  | O => candles
  | S remaining =>
      let c := initCandle i lastPrice (draws i) in
      initLoop remaining (S i) draws (close c) (candles ++ [c])
  end.

Definition initCandles (d : AssetDraws) : list Candle :=
  initLoop 100 0 (candleDraws d) (1 + priceDraw d) [].

(** The callback of [ASSETS.forEach] at line 81. *)
Definition initAsset (draws : string -> AssetDraws)
    (marketData : gmap string MarketEntry) (asset : string * MarketType)
    : gmap string MarketEntry :=
  <[fst asset := mkEntry (initCandles (draws (fst asset))) (snd asset)]>
    marketData.

Definition init (draws : string -> AssetDraws) : gmap string MarketEntry :=
  fold_left (initAsset draws) ASSETS ∅.

(** ** The market timer (lines 261-271) *)

(** The readings of one run of the timer callback, per instrument. *)
Record TickAmbient := mkTickAmbient {
  tickRandom : string -> Q;
  tickNow : string -> Z
}.

(** The four assignments to [lastCandle]. *)
Definition tickCandle (random : Q) (now : Z) (lastCandle : Candle) : Candle :=
  let change := (random - (1 # 2)) * (4 # 10000) in
  let close := close lastCandle + change in
  let high := Qmax (high lastCandle) close in
  let low := Qmin (low lastCandle) close in
  mkCandle now (open lastCandle) high low close (volume lastCandle).

(** The callback of [ASSETS.forEach]: [data] is [undefined] for a name
    without an entry and [lastCandle] is [undefined] for an empty window;
    either way the first property access throws. *)
Definition tickAsset (amb : TickAmbient)
    (marketData : gmap string MarketEntry) (asset : string * MarketType)
    : outcome (gmap string MarketEntry) :=
  match marketData !! fst asset with
  | None => Throws
  | Some data =>
      match last (candles data) with
      | None => Throws
      | Some lastCandle =>
          let lastCandle :=
            tickCandle (tickRandom amb (fst asset)) (tickNow amb (fst asset))
              lastCandle in
          Returns (<[fst asset :=
                      mkEntry (<[(length (candles data) - 1)%nat := lastCandle]>
                                 (candles data))
                        (md_marketType data)]> marketData)
      end
  end.

Definition tick (amb : TickAmbient) (marketData : gmap string MarketEntry)
    : outcome (gmap string MarketEntry) :=
  forEach (tickAsset amb) ASSETS marketData.

(** Successive runs of the timer callback. *)
Definition ticks (ambs : list TickAmbient)
    (marketData : gmap string MarketEntry)
    : outcome (gmap string MarketEntry) :=
  forEach (fun md amb => tick amb md) ambs marketData.

(** ** The scanner page ([App.tsx])

    The state of the component that the handlers below read and set.  A
    handler runs on the state of the latest render, so each is a function
    of that state.  [mutedAssets] is an object used as a map from
    instrument name to expiry; its keys are kept in insertion order. *)
Record AppState := mkApp {
  app_config : ScannerConfig;
  app_isScanning : bool;
  app_bestSignal : option Signal;
  app_connected : bool;
  app_feedbackSent : option string;
  app_mutedAssets : list (string * Z)
}.

(** [{ ...prev, [key]: value }] *)
Definition spreadSet (prev : list (string * Z)) (key : string) (value : Z)
    : list (string * Z) :=
  if existsb (fun kv => String.eqb (fst kv) key) prev
  then map (fun kv => if String.eqb (fst kv) key then (key, value) else kv) prev
  else prev ++ [(key, value)].

(** [muteAsset] (lines 460-467); [now] is the reading of [Date.now()]. *)
Definition muteAsset (now : Z) (assetName : string) (st : AppState)
    : AppState :=
  let expiry := (now + 5 * 60 * 1000)%Z in
  let mutedAssets := spreadSet (app_mutedAssets st) assetName expiry in
  let bestSignal :=
    match app_bestSignal st with
    | Some best =>
        if String.eqb (asset best) assetName then None else Some best
    | None => None
    end in
  mkApp (app_config st) (app_isScanning st) bestSignal (app_connected st)
    (app_feedbackSent st) mutedAssets.

(** [handleScan] (lines 540-559): the state afterwards and the message
    sent, if any.  The socket exists whenever [connected] is set. *)
Definition handleScan (now : Z) (st : AppState) : AppState * option Message :=
  if negb (app_connected st) || app_isScanning st then (st, None)
  else
    let activeMutes :=
      List.filter (fun kv => (now <? snd kv)%Z) (app_mutedAssets st) in
    let mutedAssets :=
      if negb (length (app_mutedAssets st) =? length activeMutes)%nat
      then activeMutes else app_mutedAssets st in
    (mkApp (app_config st) true (app_bestSignal st) (app_connected st)
       (app_feedbackSent st) mutedAssets,
     Some (mkMessage "SCAN_MARKET" (app_config st)
             (Some (map fst activeMutes)))).

(** [ws.onmessage] on a [SCAN_RESULT] (lines 503-510). *)
Definition onScanResult (data : ScanResult) (st : AppState) : AppState :=
  mkApp (app_config st) false (bestSignal data) (app_connected st) None
    (app_mutedAssets st).

(** The request body that [sendFeedback] (lines 437-458) builds from the
    signal on display; [JSON.stringify] drops a [context] that is
    [undefined]. *)
Definition feedbackBody (bestSignal : Signal) (result : string) : Feedback :=
  mkFeedback (Some (asset bestSignal))
    (Some (directionText (direction bestSignal)))
    (Some result) None (context bestSignal).

(** * Specification vocabulary

    Predicates and functions in which the properties below are stated. *)

(** The conditions on the five trailing candles: the middle one against its
    two predecessors and its two successors. *)
Definition topCondition (prev2 prev1 curr next1 next2 : Candle) : Prop :=
  high prev2 < high curr /\ high prev1 < high curr
  /\ high next1 < high curr /\ high next2 < high curr.

Definition bottomCondition (prev2 prev1 curr next1 next2 : Candle) : Prop :=
  low curr < low prev2 /\ low curr < low prev1
  /\ low curr < low next1 /\ low curr < low next2.

(** Every two neighbouring values are related by [R]. *)
Fixpoint adjacent (R : Q -> Q -> Prop) (xs : list Q) : Prop :=
  match xs with
  | a :: (b :: _) as rest => R a b /\ adjacent R rest
  | _ => True
  end.

(** Non-decreasing or non-increasing. *)
Definition monotonic (xs : list Q) : Prop :=
  adjacent Qle xs \/ adjacent (fun a b => b <= a) xs.

(** A condition holds when its evaluation returns [true]. *)
Definition flag (o : outcome bool) : bool :=
  match o with
  | Returns b => b
  | Throws => false
  end.

(** The five BUY conditions and the five SELL conditions of a window. *)
Definition buyConditions (indicators : Indicators) (lastCandle : option Candle)
    : list bool :=
  [ buyFractal indicators; buyRSI indicators; buyMACD indicators;
    flag (buySMA indicators lastCandle); buyTrend indicators ].

Definition sellConditions (indicators : Indicators) (lastCandle : option Candle)
    : list bool :=
  [ sellFractal indicators; sellRSI indicators; sellMACD indicators;
    flag (sellSMA indicators lastCandle); sellTrend indicators ].

(** How many of the conditions hold. *)
Definition holding (conds : list bool) : nat :=
  length (List.filter (fun b => b) conds).

(** The wall-clock time of day, in milliseconds after local midnight. *)
Definition timeOfDay (tz : Z) (d : Z) : Z := ((d + tz * 60000) mod 86400000)%Z.

(** The number of elements satisfying [P]. *)
Definition countIf {A} (P : A -> bool) (xs : list A) : nat :=
  length (List.filter P xs).

(** A prior loss that matches the current signal: same asset, same
    direction, result loss, and a recorded context whose labels overlap the
    current ones by at least 70%, the overlap being the number of recorded
    labels found among the current ones over the longer array's length. *)
Definition matchingLoss (assetName : string) (d : Direction)
    (confluences : list string) (f : Feedback) : Prop :=
  fb_asset f = Some assetName
  /\ fb_direction f = Some (directionText d)
  /\ fb_result f = Some "loss"
  /\ exists ctx,
       fb_context f = Some ctx
       /\ 7 # 10 <=
          Q_of_nat (length (List.filter (fun c => bool_decide (c ∈ confluences))
                              (ctx_confluences ctx)))
          / Q_of_nat (Nat.max (length (ctx_confluences ctx)) (length confluences)).

(** [addedLosses P h h']: the history [h'] is [h] with one or more records
    satisfying [P] inserted, each at any position. *)
Inductive addedLosses (P : Feedback -> bool)
    : list Feedback -> list Feedback -> Prop :=
| added_one (h1 h2 : list Feedback) (f : Feedback) :
    P f = true -> addedLosses P (h1 ++ h2) (h1 ++ f :: h2)
| added_more (h h' h'' : list Feedback) :
    addedLosses P h h' -> addedLosses P h' h'' -> addedLosses P h h''.

(** The winrate as a function of the history, everything else fixed. *)
Definition winrateUnder (assetName : string) (d : Direction)
    (confluences : list string) (random : Q) (history : list Feedback) : Q :=
  Qmax 0 (Qmin (rawWinrate confluences random
                  (winrateAdjustmentOf history assetName)
                  (lossPenaltyOf history assetName d confluences)) 100).

(** The result of the analysis run for an instrument during a scan. *)
Definition analysisOf (env : Env) (clk : ScanAmbient) (cfg : ScannerConfig)
    (name : string) : option Signal :=
  match analyzeAsset env (analysisAmbient clk name) name cfg with
  | Returns r => r
  | Throws => None
  end.

(** The signal an instrument contributes as a candidate: it is not muted,
    its market type is requested, the analysis yields a signal, the winrate
    is at least 90 and the slot is not the one selected last. *)
Definition candidateOf (env : Env) (clk : ScanAmbient) (cfg : ScannerConfig)
    (mutedList : list string) (lastSignalInfo : option SignalInfo)
    (a : string * MarketType) : option Signal :=
  if includes mutedList (fst a) then None
  else if marketFiltered cfg (snd a) then None
  else
    match analysisOf env clk cfg (fst a) with
    | Some s =>
        if Qlt_bool (winrate s) 90 then None
        else if sameSlot lastSignalInfo s then None
        else Some s
    | None => None
    end.

(** The status and reason logged for an instrument. *)
Definition dispositionOf (env : Env) (clk : ScanAmbient) (cfg : ScannerConfig)
    (mutedList : list string) (lastSignalInfo : option SignalInfo)
    (a : string * MarketType) : Status * option string :=
  if includes mutedList (fst a) then (discarded, Some mutedReason)
  else if marketFiltered cfg (snd a) then (discarded, Some marketReason)
  else
    match analysisOf env clk cfg (fst a) with
    | None => (discarded, Some noConfluenceReason)
    | Some s =>
        if Qlt_bool (winrate s) 90
        then (discarded, Some (winrateReason (winrate s)))
        else if sameSlot lastSignalInfo s
        then (discarded, Some alreadySentReason)
        else (analyzed, None)
    end.

Definition entryOf (env : Env) (clk : ScanAmbient) (cfg : ScannerConfig)
    (mutedList : list string) (lastSignalInfo : option SignalInfo)
    (a : string * MarketType) : ScanLog :=
  let d := dispositionOf env clk cfg mutedList lastSignalInfo a in
  mkLog (formatHHmmss (tzMinutes env) (logClock clk (fst a))) (fst a)
    (fst d) (snd d).

(** The comparison against the running best candidate. *)
Definition challenge (best : option Signal) (s : Signal) : option Signal :=
  match best with
  | None => Some s
  | Some b => if Qgt_bool (winrate s) (winrate b) then Some s else best
  end.

Definition challengeWith (best : option Signal) (c : option Signal)
    : option Signal :=
  match c with
  | Some s => challenge best s
  | None => best
  end.

(** The candidates of a scan, in enumeration order. *)
Definition candidates (assets : list (string * MarketType)) (env : Env)
    (clk : ScanAmbient) (cfg : ScannerConfig) (mutedList : list string)
    (lastSignalInfo : option SignalInfo) : list Signal :=
  omap (candidateOf env clk cfg mutedList lastSignalInfo) assets.

(** The pair a connection stores after a reply. *)
Definition remember (stored : option SignalInfo) (reply : option ScanResult)
    : option SignalInfo :=
  match reply with
  | Some res =>
      match bestSignal res with
      | Some b => Some (mkInfo (asset b) (entryTimestamp b))
      | None => stored
      end
  | None => stored
  end.

(** No reply of the sequence selects the slot that was stored when its
    scan started. *)
Fixpoint neverRepeats (stored : option SignalInfo)
    (replies : list (option ScanResult)) : Prop :=
  match replies with
  | [] => True
  | reply :: replies =>
      (forall res b info,
          reply = Some res -> bestSignal res = Some b -> stored = Some info ->
          ~ (asset b = info_asset info
             /\ entryTimestamp b = info_entryTimestamp info))
      /\ neverRepeats (remember stored reply) replies
  end.

(** The labels the two rule blocks can push, in the order they push them. *)
Definition buyLabelNames : list string :=
  ["Fractal Fundo"; "RSI > 50"; "MACD Positivo"; "Preço > SMA16";
   "Tendência Alta"].

Definition sellLabelNames : list string :=
  ["Fractal Topo"; "RSI < 50"; "MACD Negativo"; "Preço < SMA16";
   "Tendência Baixa"].

(** A win recorded for the asset. *)
Definition winFor (assetName : string) (f : Feedback) : bool :=
  propIs (fb_asset f) assetName && propIs (fb_result f) "win".

(** The records of the history that are about [assetName]. *)
Definition aboutAsset (assetName : string) (history : list Feedback)
    : list Feedback :=
  List.filter (fun f => propIs (fb_asset f) assetName) history.

(** A reading of [Math.random]. *)
Definition unitReading (x : Q) : Prop := 0 <= x /\ x < 1.

Definition unitDraws (d : AssetDraws) : Prop :=
  unitReading (priceDraw d)
  /\ forall i, unitReading (changeDraw (candleDraws d i))
               /\ unitReading (highDraw (candleDraws d i))
               /\ unitReading (lowDraw (candleDraws d i)).

(** The high and the low of a candle enclose its open and its close. *)
Definition wellFormed (c : Candle) : Prop :=
  low c <= Qmin (open c) (close c) /\ Qmax (open c) (close c) <= high c.

(** Every listed instrument has a window of 100 well-formed candles and
    the market type of the list. *)
Definition liveMarket (assets : list (string * MarketType))
    (md : gmap string MarketEntry) : Prop :=
  forall name ty, In (name, ty) assets ->
    exists e, md !! name = Some e
              /\ md_marketType e = ty
              /\ length (candles e) = 100%nat
              /\ Forall wellFormed (candles e).

(** The entry [e'] has the market type and the window length of [e] and
    its candles but the last; it is well-formed if [e] is. *)
Definition sameWindow (e e' : MarketEntry) : Prop :=
  md_marketType e' = md_marketType e
  /\ length (candles e') = length (candles e)
  /\ (forall i, (S i < length (candles e))%nat ->
                candles e' !! i = candles e !! i)
  /\ (Forall wellFormed (candles e) -> Forall wellFormed (candles e')).

(** What one run of the timer does to the entry of an instrument. *)
Definition ticked (e e' : MarketEntry) : Prop :=
  sameWindow e e'
  /\ exists c c', last (candles e) = Some c /\ last (candles e') = Some c'
       /\ open c' = open c /\ volume c' = volume c
       /\ high c <= high c' /\ low c' <= low c
       /\ low c' <= close c' <= high c'.

(** Every listed instrument of [md0] is still there in [md], with the
    same window but for the last candle. *)
Definition keepsWindows (assets : list (string * MarketType))
    (md0 md : gmap string MarketEntry) : Prop :=
  forall name ty, In (name, ty) assets ->
    exists e0 e, md0 !! name = Some e0 /\ md !! name = Some e
                 /\ sameWindow e0 e.

(** * Sample markets, histories and readings *)

(** A candle wider than its four neighbours on both sides: its high is
    above their highs and its low below their lows. *)
Definition outsideBar : list Candle :=
  [ mkCandle 0 4 5 3 4 1; mkCandle 0 4 5 3 4 1; mkCandle 0 4 10 0 4 1;
    mkCandle 0 4 5 3 4 1; mkCandle 0 4 5 3 4 1 ].

(** A six-candle window whose trailing five have highs 1,2,5,2,1. *)
Definition peakWindow : list Candle :=
  [ mkCandle 0 1 9 0 1 1; mkCandle 0 1 1 0 1 1; mkCandle 0 1 2 0 1 1;
    mkCandle 0 1 5 0 1 1; mkCandle 0 1 2 0 1 1; mkCandle 0 1 1 0 1 1 ].

(** A candle with open = high = low = close. *)
Definition bar (p : Z) : Candle :=
  mkCandle 0 (inject_Z p) (inject_Z p) (inject_Z p) (inject_Z p) 1.

(** A candle closing at [p] with low [l]. *)
Definition dipBar (p l : Z) : Candle :=
  mkCandle 0 (inject_Z p) (inject_Z p) (inject_Z l) (inject_Z p) 1.

(** Sixteen rising closes: rsi 100, close above sma16, trend up. *)
Definition risingWindow : list Candle :=
  map bar [1; 2; 3; 4; 5; 6; 7; 8; 9; 10; 11; 12; 13; 14; 15; 16]%Z.

(** The same closes with a bottom fractal on the third candle from the end. *)
Definition dipWindow : list Candle :=
  map bar [1; 2; 3; 4; 5; 6; 7; 8; 9; 10; 11]%Z
  ++ [dipBar 12 5; dipBar 13 4; dipBar 14 1; dipBar 15 4; dipBar 16 5].

(** One hundred closes rising from 1 to 30 and flat afterwards: rsi 100,
    macd histogram negative, last close equal to sma16. *)
Definition plateauWindow : list Candle :=
  map (fun i => bar (Z.min (Z.of_nat i) 30)) (seq 1 100).

Definition tenOhSevenThirty : Z := 36450000%Z.

Definition sampleAmbient (random : Q) : Ambient :=
  mkAmbient tenOhSevenThirty random tenOhSevenThirty.

Definition sampleEnv (history : list Feedback) : Env :=
  mkEnv {[ "EURUSD" := mkEntry risingWindow REAL;
           "GBPUSD" := mkEntry dipWindow REAL;
           "USDJPY" := mkEntry plateauWindow REAL ]} history 0.

(** A loss on EURUSD recorded against the three labels of [risingWindow]. *)
Definition lossRecord : Feedback :=
  mkFeedback (Some "EURUSD") (Some "CALL") (Some "loss") (Some 0%Z)
    (Some (mkContext (Some 100) None "up"
             ["RSI > 50"; "Preço > SMA16"; "Tendência Alta"])).

(** Readings of a scan at 10:07:30 in which every instrument draws [r],
    except GBPUSD which draws [0]. *)
Definition sampleClock (r : Q) : ScanAmbient :=
  mkScanAmbient
    (fun name => if String.eqb name "GBPUSD" then sampleAmbient 0
                 else sampleAmbient r)
    (fun _ => tenOhSevenThirty) tenOhSevenThirty.

Definition twoAssets : list (string * MarketType) :=
  [("EURUSD", REAL); ("GBPUSD", REAL)].

Definition scanMessage (mutedAssets : option (list string)) : Message :=
  mkMessage "SCAN_MARKET" (mkConfig M5 GERAL) mutedAssets.

(** A win on EURUSD. *)
Definition winRecord : Feedback :=
  mkFeedback (Some "EURUSD") (Some "CALL") (Some "win") (Some 0%Z) None.

(** Readings of [Math.random] that are all one half, and a clock at 0. *)
Definition steadyDraws (name : string) : AssetDraws :=
  mkAssetDraws (1 # 2) (fun _ => mkCandleDraws (1 # 2) (1 # 2) (1 # 2) 0 (1 # 2)).

(** A run of the timer with every reading at three quarters. *)
Definition steadyTick : TickAmbient :=
  mkTickAmbient (fun _ => 3 # 4) (fun _ => 1000%Z).



(** A connected, idle page showing nothing. *)
Definition idlePage : AppState :=
  mkApp (mkConfig M1 GERAL) false None true None [].

(** * Properties *)

Ltac evaluate := vm_compute; reflexivity.

(** ** Numeric helpers *)

Lemma Qlt_bool_iff (a b : Q) : Qlt_bool a b = true <-> a < b.
Proof.
  unfold Qlt_bool. rewrite negb_true_iff.
  split; intro H.
  - apply Qnot_le_lt. intro Hle. apply Qle_bool_iff in Hle. congruence.
  - destruct (Qle_bool b a) eqn:E; [|reflexivity].
    apply Qle_bool_iff in E. exfalso. exact (Qlt_not_le _ _ H E).
Qed.

Lemma Qgt_bool_iff (a b : Q) : Qgt_bool a b = true <-> b < a.
Proof. apply Qlt_bool_iff. Qed.

Lemma and4_true_iff (a b c d : bool) :
  a && b && c && d = true <-> a = true /\ b = true /\ c = true /\ d = true.
Proof. destruct a, b, c, d; simpl; intuition congruence. Qed.

Lemma clamp_bounds (w : Q) :
  0 <= Qmax 0 (Qmin w 100) /\ Qmax 0 (Qmin w 100) <= 100.
Proof.
  split.
  - apply Q.le_max_l.
  - apply Q.max_lub; [discriminate|apply Q.le_min_r].
Qed.

Lemma clamp_cases (w : Q) :
  (w < 0 -> Qmax 0 (Qmin w 100) == 0)
  /\ (0 <= w <= 100 -> Qmax 0 (Qmin w 100) == w)
  /\ (100 < w -> Qmax 0 (Qmin w 100) == 100).
Proof.
  repeat split.
  - intro H. apply Q.max_l.
    apply Qle_trans with w; [apply Q.le_min_l|apply Qlt_le_weak, H].
  - intros [H0 H100]. rewrite (Q.min_l _ _ H100). apply Q.max_r, H0.
  - intro H. rewrite (Q.min_r w 100) by (apply Qlt_le_weak, H).
    apply Q.max_r. discriminate.
Qed.

Lemma clamp_monotone (w w' : Q) :
  w' <= w -> Qmax 0 (Qmin w' 100) <= Qmax 0 (Qmin w 100).
Proof.
  intro H. apply Q.max_le_compat_l. apply Q.min_le_compat_r, H.
Qed.

Lemma clamp_strict (raw raw' : Q) :
  raw' < raw ->
  0 < Qmax 0 (Qmin raw 100) ->
  Qmax 0 (Qmin raw' 100) < 100 ->
  Qmax 0 (Qmin raw' 100) < Qmax 0 (Qmin raw 100).
Proof.
  intros Hlt Hpos Hcap.
  destruct (Q.min_spec raw 100) as [[H1 E1]|[H1 E1]];
  destruct (Q.min_spec raw' 100) as [[H2 E2]|[H2 E2]];
  destruct (Q.max_spec 0 (Qmin raw 100)) as [[H3 E3]|[H3 E3]];
  destruct (Q.max_spec 0 (Qmin raw' 100)) as [[H4 E4]|[H4 E4]];
  lra.
Qed.

(** ** Indicator engine *)

(** *** Trend *)

Lemma nth_last_lookup (closes : list Q) (c : Q) :
  last closes = Some c -> nth (length closes - 1) closes 0 = c.
Proof.
  intro H. rewrite last_lookup in H.
  replace (length closes - 1)%nat with (Nat.pred (length closes)) by lia.
  apply nth_lookup_Some with (d := 0) in H. exact H.
Qed.

Lemma detectTrend_absent (closes : list Q) : detectTrend closes None = neutral.
Proof. reflexivity. Qed.

Lemma detectTrend_short (closes : list Q) (sma16 : option Q) :
  (length closes < 2)%nat -> detectTrend closes sma16 = neutral.
Proof.
  intro H. unfold detectTrend.
  apply Nat.ltb_lt in H. rewrite H, orb_true_r. reflexivity.
Qed.

Lemma detectTrend_nonzero (closes : list Q) (s c : Q) :
  (2 <= length closes)%nat -> last closes = Some c -> ~ s == 0 ->
  (detectTrend closes (Some s) = up <-> s < c)
  /\ (detectTrend closes (Some s) = down <-> c < s)
  /\ (detectTrend closes (Some s) = neutral <-> c == s).
Proof.
  intros Hlen Hlast Hs. unfold detectTrend. simpl.
  destruct (Qeq_bool s 0) eqn:E0.
  { apply Qeq_bool_iff in E0. contradiction. }
  destruct (length closes <? 2)%nat eqn:El.
  { apply Nat.ltb_lt in El. lia. }
  simpl. rewrite (nth_last_lookup _ _ Hlast).
  destruct (Qgt_bool c s) eqn:Eg.
  - apply Qgt_bool_iff in Eg.
    repeat split; intros H; try discriminate; try assumption; try reflexivity.
    + exfalso. exact (Qlt_irrefl _ (Qlt_trans _ _ _ Eg H)).
    + exfalso. rewrite H in Eg. exact (Qlt_irrefl _ Eg).
  - assert (Hn : ~ s < c) by (intro H; apply Qgt_bool_iff in H; congruence).
    destruct (Qlt_bool c s) eqn:El2.
    + apply Qlt_bool_iff in El2.
      repeat split; intros H; try discriminate; try assumption; try reflexivity;
        try contradiction.
      exfalso. rewrite H in El2. exact (Qlt_irrefl _ El2).
    + assert (Hn2 : ~ c < s) by (intro H; apply Qlt_bool_iff in H; congruence).
      repeat split; intros H; try discriminate; try contradiction; try reflexivity.
      apply Qle_antisym; apply Qnot_lt_le; assumption.
Qed.

(** C9.  With a present [sma16] equal to [0] the guard [!sma16] fires:
    on closes [1, 2] the last close [2] is strictly greater than [0], and
    [detectTrend] answers neutral, not up. *)
Theorem detectTrend_zero_sma16_neutral :
  let closes := [1; 2] in
  last closes = Some 2 /\ 0 < 2 /\ detectTrend closes (Some 0) = neutral.
Proof. repeat split. Qed.

(** *** Fractals *)

Lemma sliceLast5_lookups (candles : list Candle) (p2 p1 c n1 n2 : Candle) :
  sliceLast 5 candles = [p2; p1; c; n1; n2] ->
  (5 <= length candles)%nat
  /\ candles !! (length candles - 3 - 2)%nat = Some p2
  /\ candles !! (length candles - 3 - 1)%nat = Some p1
  /\ candles !! (length candles - 3)%nat = Some c
  /\ candles !! (length candles - 3 + 1)%nat = Some n1
  /\ candles !! (length candles - 3 + 2)%nat = Some n2.
Proof.
  unfold sliceLast. intro H.
  assert (Hlen : (5 <= length candles)%nat).
  { apply (f_equal length) in H. rewrite length_drop in H. simpl in H. lia. }
  split; [exact Hlen|].
  assert (Hk : forall k, [p2; p1; c; n1; n2] !! k
                         = candles !! (length candles - 5 + k)%nat).
  { intro k. rewrite <- H. apply lookup_drop. }
  repeat split.
  - replace (length candles - 3 - 2)%nat with (length candles - 5 + 0)%nat by lia.
    rewrite <- Hk. reflexivity.
  - replace (length candles - 3 - 1)%nat with (length candles - 5 + 1)%nat by lia.
    rewrite <- Hk. reflexivity.
  - replace (length candles - 3)%nat with (length candles - 5 + 2)%nat by lia.
    rewrite <- Hk. reflexivity.
  - replace (length candles - 3 + 1)%nat with (length candles - 5 + 3)%nat by lia.
    rewrite <- Hk. reflexivity.
  - replace (length candles - 3 + 2)%nat with (length candles - 5 + 4)%nat by lia.
    rewrite <- Hk. reflexivity.
Qed.

(** Every window of at least five candles has five trailing candles. *)
Lemma sliceLast5_exists (candles : list Candle) :
  (5 <= length candles)%nat ->
  exists p2 p1 c n1 n2, sliceLast 5 candles = [p2; p1; c; n1; n2].
Proof.
  intro Hlen. unfold sliceLast.
  assert (Hl : length (drop (length candles - 5) candles) = 5%nat)
    by (rewrite length_drop; lia).
  destruct (drop (length candles - 5) candles)
    as [|p2 [|p1 [|c [|n1 [|n2 [|x rest]]]]]]; cbn [length] in Hl; try lia.
  exists p2, p1, c, n1, n2. reflexivity.
Qed.

Lemma detectFractal_unfold (candles : list Candle) (p2 p1 c n1 n2 : Candle) :
  sliceLast 5 candles = [p2; p1; c; n1; n2] ->
  detectFractal candles =
    if Qgt_bool (high c) (high p2) && Qgt_bool (high c) (high p1)
       && Qgt_bool (high c) (high n1) && Qgt_bool (high c) (high n2)
    then Some top
    else if Qlt_bool (low c) (low p2) && Qlt_bool (low c) (low p1)
            && Qlt_bool (low c) (low n1) && Qlt_bool (low c) (low n2)
    then Some bottom
    else None.
Proof.
  intro H. apply sliceLast5_lookups in H.
  destruct H as (Hlen & H1 & H2 & H3 & H4 & H5).
  unfold detectFractal.
  destruct (length candles <? 5)%nat eqn:E.
  { apply Nat.ltb_lt in E. lia. }
  cbv zeta. rewrite H1, H2, H3, H4, H5. reflexivity.
Qed.

Lemma topCondition_iff (p2 p1 c n1 n2 : Candle) :
  Qgt_bool (high c) (high p2) && Qgt_bool (high c) (high p1)
  && Qgt_bool (high c) (high n1) && Qgt_bool (high c) (high n2) = true
  <-> topCondition p2 p1 c n1 n2.
Proof.
  unfold topCondition. rewrite and4_true_iff, !Qgt_bool_iff. reflexivity.
Qed.

Lemma bottomCondition_iff (p2 p1 c n1 n2 : Candle) :
  Qlt_bool (low c) (low p2) && Qlt_bool (low c) (low p1)
  && Qlt_bool (low c) (low n1) && Qlt_bool (low c) (low n2) = true
  <-> bottomCondition p2 p1 c n1 n2.
Proof.
  unfold bottomCondition. rewrite and4_true_iff, !Qlt_bool_iff. reflexivity.
Qed.

Lemma detectFractal_cases (candles : list Candle) (p2 p1 c n1 n2 : Candle) :
  sliceLast 5 candles = [p2; p1; c; n1; n2] ->
  (detectFractal candles = Some top <-> topCondition p2 p1 c n1 n2)
  /\ (detectFractal candles = Some bottom
      <-> bottomCondition p2 p1 c n1 n2 /\ ~ topCondition p2 p1 c n1 n2)
  /\ (detectFractal candles = None
      <-> ~ topCondition p2 p1 c n1 n2 /\ ~ bottomCondition p2 p1 c n1 n2).
Proof.
  intro H. rewrite (detectFractal_unfold _ _ _ _ _ _ H).
  rewrite <- topCondition_iff, <- bottomCondition_iff.
  destruct (Qgt_bool (high c) (high p2) && Qgt_bool (high c) (high p1)
            && Qgt_bool (high c) (high n1) && Qgt_bool (high c) (high n2));
  destruct (Qlt_bool (low c) (low p2) && Qlt_bool (low c) (low p1)
            && Qlt_bool (low c) (low n1) && Qlt_bool (low c) (low n2));
  intuition congruence.
Qed.

(** C8, as stated, fails: on [outsideBar] the low of the middle candle is
    strictly below the four neighbouring lows and its high strictly above
    the four highs, so both conditions hold for the same candle, and
    [detectFractal] answers top, not bottom. *)
Lemma detectFractal_outside_bar_is_top :
  (exists p2 p1 c n1 n2,
      sliceLast 5 outsideBar = [p2; p1; c; n1; n2]
      /\ bottomCondition p2 p1 c n1 n2 /\ topCondition p2 p1 c n1 n2)
  /\ detectFractal outsideBar <> Some bottom.
Proof.
  split.
  - do 5 eexists. split; [reflexivity|].
    unfold bottomCondition, topCondition. simpl.
    repeat split; reflexivity.
  - vm_compute. discriminate.
Qed.

Lemma monotonic_no_top (p2 p1 c n1 n2 : Candle) :
  monotonic (map high [p2; p1; c; n1; n2]) -> ~ topCondition p2 p1 c n1 n2.
Proof.
  unfold monotonic, topCondition. simpl.
  intros [(_ & _ & H & _) | (_ & H & _)] (_ & H1 & H2 & _).
  - exact (Qlt_not_le _ _ H2 H).
  - exact (Qlt_not_le _ _ H1 H).
Qed.

Lemma monotonic_no_bottom (p2 p1 c n1 n2 : Candle) :
  monotonic (map low [p2; p1; c; n1; n2]) -> ~ bottomCondition p2 p1 c n1 n2.
Proof.
  unfold monotonic, bottomCondition. simpl.
  intros [(_ & H & _) | (_ & _ & H & _)] (_ & H1 & H2 & _).
  - exact (Qlt_not_le _ _ H1 H).
  - exact (Qlt_not_le _ _ H2 H).
Qed.

(** C8 (amended).  On a window of at least five candles, with trailing
    candles [p2, p1, c, n1, n2], [detectFractal] classifies [c], the candle
    three positions from the end: top iff the high of [c] is strictly above the
    four neighbouring highs; bottom iff the low of [c] is strictly below
    the four neighbouring lows and the top condition fails; absent iff
    neither condition holds.  Highs 1,2,5,2,1 give top; lows 5,4,1,4,5 give
    bottom when the highs form no top; monotonic highs and lows give
    absent. *)
Theorem detectFractal_classifies_middle
    (candles : list Candle) (p2 p1 c n1 n2 : Candle) :
  sliceLast 5 candles = [p2; p1; c; n1; n2] ->
  candles !! (length candles - 3)%nat = Some c
  /\ (detectFractal candles = Some top <-> topCondition p2 p1 c n1 n2)
  /\ (detectFractal candles = Some bottom
      <-> bottomCondition p2 p1 c n1 n2 /\ ~ topCondition p2 p1 c n1 n2)
  /\ (detectFractal candles = None
      <-> ~ topCondition p2 p1 c n1 n2 /\ ~ bottomCondition p2 p1 c n1 n2)
  /\ (map high [p2; p1; c; n1; n2] = [1; 2; 5; 2; 1] ->
      detectFractal candles = Some top)
  /\ (map low [p2; p1; c; n1; n2] = [5; 4; 1; 4; 5] ->
      ~ topCondition p2 p1 c n1 n2 ->
      detectFractal candles = Some bottom)
  /\ (monotonic (map high [p2; p1; c; n1; n2]) ->
      monotonic (map low [p2; p1; c; n1; n2]) ->
      detectFractal candles = None).
Proof.
  intro H.
  destruct (detectFractal_cases _ _ _ _ _ _ H) as (Ht & Hb & Hn).
  split; [apply (sliceLast5_lookups _ _ _ _ _ _ H)|].
  split; [exact Ht|]. split; [exact Hb|]. split; [exact Hn|].
  split; [|split].
  - intro Hh. apply Ht. unfold topCondition.
    simpl in Hh. injection Hh as -> -> -> -> ->. repeat split; reflexivity.
  - intros Hl Hnt. apply Hb. split; [|exact Hnt]. unfold bottomCondition.
    simpl in Hl. injection Hl as -> -> -> -> ->. repeat split; reflexivity.
  - intros Hh Hl. apply Hn. split.
    + apply monotonic_no_top, Hh.
    + apply monotonic_no_bottom, Hl.
Qed.

(** [peakWindow] is classified top. *)
Lemma detectFractal_classifies_middle_witness :
  sliceLast 5 peakWindow = skipn 1 peakWindow
  /\ detectFractal peakWindow = Some top.
Proof.
  split; [reflexivity|].
  destruct (detectFractal_classifies_middle peakWindow
              (mkCandle 0 1 1 0 1 1) (mkCandle 0 1 2 0 1 1)
              (mkCandle 0 1 5 0 1 1) (mkCandle 0 1 2 0 1 1)
              (mkCandle 0 1 1 0 1 1) eq_refl) as (_ & _ & _ & _ & Hpeak & _).
  apply Hpeak. reflexivity.
Defined.

(** ** Signal analyzer *)

(** *** The two rule blocks *)

Lemma length_pushIf (b : bool) (label : string) (confluences : list string) :
  length (pushIf b label confluences)
  = (length confluences + (if b then 1 else 0))%nat.
Proof.
  destruct b; simpl; [rewrite length_app; simpl|]; lia.
Qed.

Lemma buyBlock_length (indicators : Indicators) (lastCandle : option Candle)
    (d : Direction) (confluences : list string) :
  buyBlock indicators lastCandle (NEUTRAL, []) = Returns (d, confluences) ->
  length confluences = holding (buyConditions indicators lastCandle)
  /\ d = (if (2 <=? length confluences)%nat then CALL else NEUTRAL).
Proof.
  unfold buyBlock, buyConditions, holding.
  destruct (buySMA indicators lastCandle) as [bSMA|]; [|discriminate].
  simpl.
  destruct (buyFractal indicators), (buyRSI indicators), (buyMACD indicators),
    bSMA, (buyTrend indicators); simpl;
    intro H; injection H as <- <-; split; reflexivity.
Qed.

Lemma sellBlock_length (indicators : Indicators) (lastCandle : option Candle)
    (confluences : list string) (d' : Direction) (confluences' : list string) :
  sellBlock indicators lastCandle (NEUTRAL, confluences)
    = Returns (d', confluences') ->
  length confluences'
  = (length confluences + holding (sellConditions indicators lastCandle))%nat
  /\ d' = (if (2 <=? length confluences')%nat
           then (if (0 <? holding (sellConditions indicators lastCandle))%nat
                 then PUT else NEUTRAL)
           else NEUTRAL).
Proof.
  unfold sellBlock, sellConditions, holding.
  destruct (sellSMA indicators lastCandle) as [sSMA|]; [|discriminate].
  cbn [bind flag List.filter].
  destruct (sellFractal indicators), (sellRSI indicators),
    (sellMACD indicators), sSMA, (sellTrend indicators);
    cbn [orb pushIf length List.filter];
    intro H; injection H as <- <-;
    rewrite ?length_app; cbn [length];
    (split; [lia|]);
    destruct (length confluences) as [|[|n]]; reflexivity.
Qed.

Lemma closeOf_last_cons (c : Candle) (rest : list Candle) :
  exists p, closeOf (last (c :: rest)) = Returns p.
Proof.
  destruct (last (c :: rest)) as [x|] eqn:E.
  - exists (close x). reflexivity.
  - apply last_None in E. discriminate.
Qed.

Lemma buyBlock_returns (indicators : Indicators) (lastCandle : option Candle)
    (p : Q) (st : Direction * list string) :
  closeOf lastCandle = Returns p ->
  exists st', buyBlock indicators lastCandle st = Returns st'.
Proof.
  intro H. unfold buyBlock, buySMA. destruct st as [d confluences].
  destruct (sma16 indicators); rewrite ?H; cbn [bind];
    match goal with
    | |- context [if ?b then _ else _] => destruct b
    end; eexists; reflexivity.
Qed.

Lemma sellBlock_returns (indicators : Indicators) (lastCandle : option Candle)
    (p : Q) (st : Direction * list string) :
  closeOf lastCandle = Returns p ->
  exists st', sellBlock indicators lastCandle st = Returns st'.
Proof.
  intro H. unfold sellBlock, sellSMA. destruct st as [d confluences].
  destruct d; try (eexists; reflexivity).
  destruct (sma16 indicators); rewrite ?H; cbn [bind];
    match goal with
    | |- context [if ?b then _ else _] => destruct b
    end; eexists; reflexivity.
Qed.

(** The outcome of the two rule blocks in terms of how many conditions
    hold on each side: the SELL threshold is met by the labels of both
    blocks together. *)
Lemma blocks_by_counts (indicators : Indicators) (lastCandle : option Candle)
    (st1 : Direction * list string) (d : Direction) (confluences : list string) :
  buyBlock indicators lastCandle (NEUTRAL, []) = Returns st1 ->
  sellBlock indicators lastCandle st1 = Returns (d, confluences) ->
  let nb := holding (buyConditions indicators lastCandle) in
  let ns := holding (sellConditions indicators lastCandle) in
  (2 <= nb -> d = CALL /\ length confluences = nb)%nat
  /\ (nb < 2 -> 0 < ns -> 2 <= nb + ns ->
      d = PUT /\ length confluences = nb + ns)%nat
  /\ (nb < 2 -> nb + ns < 2 -> d = NEUTRAL)%nat.
Proof.
  intros H1 H2 nb ns. destruct st1 as [d1 c1].
  apply buyBlock_length in H1. destruct H1 as [Hl1 Hd1].
  fold nb in Hl1.
  destruct (2 <=? length c1)%nat eqn:E1.
  - apply Nat.leb_le in E1. subst d1. cbn in H2. injection H2 as <- <-.
    repeat split; lia.
  - apply Nat.leb_gt in E1. subst d1.
    apply sellBlock_length in H2. destruct H2 as [Hl2 Hd2].
    fold ns in Hl2, Hd2.
    split; [intro; lia|]. split.
    + intros _ Hns Hsum. split; [|lia]. rewrite Hd2.
      destruct (2 <=? length confluences)%nat eqn:E2;
        [|apply Nat.leb_gt in E2; lia].
      destruct (0 <? ns)%nat eqn:E3; [reflexivity|].
      apply Nat.ltb_ge in E3. lia.
    + intros _ Hsum. rewrite Hd2.
      destruct (2 <=? length confluences)%nat eqn:E2; [|reflexivity].
      apply Nat.leb_le in E2. lia.
Qed.

Lemma blocks_min_confluence (indicators : Indicators)
    (lastCandle : option Candle) (st1 : Direction * list string)
    (d : Direction) (confluences : list string) :
  buyBlock indicators lastCandle (NEUTRAL, []) = Returns st1 ->
  sellBlock indicators lastCandle st1 = Returns (d, confluences) ->
  d <> NEUTRAL -> (2 <= length confluences)%nat.
Proof.
  intros H1 H2 Hd. destruct st1 as [d1 c1].
  apply buyBlock_length in H1. destruct H1 as [_ Hd1].
  destruct (2 <=? length c1)%nat eqn:E1.
  - apply Nat.leb_le in E1. subst d1. cbn in H2. injection H2 as <- <-.
    exact E1.
  - subst d1. apply sellBlock_length in H2. destruct H2 as [_ Hd2].
    destruct (2 <=? length confluences)%nat eqn:E2.
    + apply Nat.leb_le in E2. exact E2.
    + contradiction.
Qed.

(** *** Structure of the result *)

(** No call of [analyzeAsset] raises: the close of the last candle is read
    only where the window is non-empty. *)
Lemma analyzeAsset_returns (env : Env) (amb : Ambient) (assetName : string)
    (config : ScannerConfig) :
  exists r, analyzeAsset env amb assetName config = Returns r.
Proof.
  unfold analyzeAsset.
  destruct (marketData env !! assetName) as [data|]; [|eexists; reflexivity].
  destruct (candles data) as [|c rest] eqn:E.
  - exists None. reflexivity.
  - destruct (closeOf_last_cons c rest) as [p Hp].
    destruct (buyBlock_returns (getIndicators (c :: rest)) _ p (NEUTRAL, []) Hp)
      as [st1 H1].
    rewrite H1. cbn [bind].
    destruct (sellBlock_returns (getIndicators (c :: rest)) _ p st1 Hp)
      as [[d confluences] H2].
    rewrite H2. cbn [bind].
    destruct d; try (eexists; reflexivity);
      destruct (entrySchedule _ _ _); rewrite Hp; eexists; reflexivity.
Qed.

(** What a returned signal is made of. *)
Lemma analyzeAsset_signal (env : Env) (amb : Ambient) (assetName : string)
    (config : ScannerConfig) (s : Signal) :
  analyzeAsset env amb assetName config = Returns (Some s) ->
  exists data st1,
    marketData env !! assetName = Some data
    /\ buyBlock (getIndicators (candles data)) (last (candles data))
         (NEUTRAL, []) = Returns st1
    /\ sellBlock (getIndicators (candles data)) (last (candles data)) st1
       = Returns (direction s, confluences s)
    /\ direction s <> NEUTRAL
    /\ asset s = assetName
    /\ strength s = strengthOf (confluences s)
    /\ confidence s = confidenceOf (confluences s)
    /\ winrate s
       = Qmax 0 (Qmin (rawWinrate (confluences s) (mathRandom amb)
                         (winrateAdjustmentOf (feedbackHistory env) assetName)
                         (lossPenaltyOf (feedbackHistory env) assetName
                            (direction s) (confluences s))) 100)
    /\ (entryTimestamp s, expiration s)
       = entrySchedule (tzMinutes env) (timeframe config) (dateNew amb)
    /\ timestamp s = dateNow amb.
Proof.
  unfold analyzeAsset.
  destruct (marketData env !! assetName) as [data|]; [|discriminate].
  destruct (buyBlock _ _ _) as [st1|] eqn:H1; [|discriminate].
  cbn [bind].
  destruct (sellBlock _ _ _) as [[d confluences]|] eqn:H2; [|discriminate].
  cbn [bind].
  intro H. exists data, st1.
  destruct d; try discriminate;
    destruct (entrySchedule _ _ _) as [entryDate expiration] eqn:He;
    destruct (closeOf _) as [p|]; try discriminate;
    cbn [bind] in H; injection H as <-; cbn;
    repeat split; try reflexivity; try discriminate; assumption.
Qed.

Lemma analyzeAsset_blocks (env : Env) (amb : Ambient) (assetName : string)
    (config : ScannerConfig) (data : MarketEntry) :
  marketData env !! assetName = Some data ->
  exists st1 d labels,
    buyBlock (getIndicators (candles data)) (last (candles data)) (NEUTRAL, [])
      = Returns st1
    /\ sellBlock (getIndicators (candles data)) (last (candles data)) st1
       = Returns (d, labels)
    /\ (d = NEUTRAL -> analyzeAsset env amb assetName config = Returns None)
    /\ (d <> NEUTRAL ->
        exists s, analyzeAsset env amb assetName config = Returns (Some s)
                  /\ direction s = d /\ confluences s = labels).
Proof.
  intro Hd. unfold analyzeAsset. rewrite Hd.
  destruct (candles data) as [|c rest] eqn:E.
  - exists (NEUTRAL, []), NEUTRAL, []. repeat split; try reflexivity.
    intro H. contradiction.
  - destruct (closeOf_last_cons c rest) as [p Hp].
    destruct (buyBlock_returns (getIndicators (c :: rest)) _ p (NEUTRAL, []) Hp)
      as [st1 H1].
    destruct (sellBlock_returns (getIndicators (c :: rest)) _ p st1 Hp)
      as [[d labels] H2].
    exists st1, d, labels. rewrite H1. cbn [bind]. rewrite H2. cbn [bind].
    split; [reflexivity|]. split; [reflexivity|].
    destruct d.
    + split; [discriminate|]. intros _.
      destruct (entrySchedule _ _ _). rewrite Hp. cbn [bind].
      eexists. repeat split.
    + split; [discriminate|]. intros _.
      destruct (entrySchedule _ _ _). rewrite Hp. cbn [bind].
      eexists. repeat split.
    + split; [reflexivity|]. intro H. contradiction.
Qed.

(** *** Direction and confluence *)

(** What [analyzeAsset] answers in terms of the numbers [nb] and [ns] of
    BUY and SELL conditions that hold on the window: CALL when [nb >= 2];
    otherwise PUT when [nb + ns >= 2]; otherwise absent. *)
Lemma analyzeAsset_direction_by_counts (env : Env) (amb : Ambient)
    (assetName : string) (config : ScannerConfig) (data : MarketEntry) :
  marketData env !! assetName = Some data ->
  let indicators := getIndicators (candles data) in
  let lastCandle := last (candles data) in
  let nb := holding (buyConditions indicators lastCandle) in
  let ns := holding (sellConditions indicators lastCandle) in
  ((2 <= nb)%nat ->
   exists s, analyzeAsset env amb assetName config = Returns (Some s)
             /\ direction s = CALL)
  /\ ((nb < 2)%nat -> (2 <= nb + ns)%nat ->
      exists s, analyzeAsset env amb assetName config = Returns (Some s)
                /\ direction s = PUT)
  /\ ((nb + ns < 2)%nat ->
      analyzeAsset env amb assetName config = Returns None).
Proof.
  intros Hd indicators lastCandle nb ns.
  destruct (analyzeAsset_blocks env amb assetName config data Hd)
    as (st1 & d & labels & H1 & H2 & Hnone & Hsome).
  destruct (blocks_by_counts _ _ _ _ _ H1 H2) as (Hcall & Hput & Hneutral).
  fold indicators lastCandle nb ns in Hcall, Hput, Hneutral.
  split; [|split].
  - intro Hnb. destruct (Hcall Hnb) as [-> _].
    destruct Hsome as (s & Hs & Hdir & _); [discriminate|].
    exists s. split; assumption.
  - intros Hnb Hsum. destruct (Hput Hnb ltac:(lia) Hsum) as [-> _].
    destruct Hsome as (s & Hs & Hdir & _); [discriminate|].
    exists s. split; assumption.
  - intro Hsum. apply Hnone, Hneutral; lia.
Qed.

(** C1.  On [plateauWindow] exactly one BUY condition holds (rsi > 50)
    and exactly one SELL condition holds (macd histogram < 0): fewer than
    two on either side.  The BUY label is still in the array when the SELL
    block counts its labels, and [analyzeAsset] answers a PUT signal
    instead of no signal. *)
Theorem analyzeAsset_one_buy_one_sell_is_PUT :
  let indicators := getIndicators plateauWindow in
  let lastCandle := last plateauWindow in
  length plateauWindow = 100%nat
  /\ buyConditions indicators lastCandle = [false; true; false; false; false]
  /\ sellConditions indicators lastCandle = [false; false; true; false; false]
  /\ exists s,
       analyzeAsset (sampleEnv []) (sampleAmbient 0) "USDJPY"
         (mkConfig M5 GERAL) = Returns (Some s)
       /\ direction s = PUT
       /\ confluences s = ["RSI > 50"; "MACD Negativo"].
Proof.
  cbv zeta. split; [reflexivity|]. split; [evaluate|]. split; [evaluate|].
  eexists. split; [evaluate|]. split; reflexivity.
Qed.

(** C10.  Every signal returned by [analyzeAsset] carries at least two
    confluence labels, and its strength is Weak, Medium or Strong: the
    'None' strength is never produced. *)
Theorem analyzeAsset_min_confluence_strength (env : Env) (amb : Ambient)
    (assetName : string) (config : ScannerConfig) (s : Signal) :
  analyzeAsset env amb assetName config = Returns (Some s) ->
  (2 <= length (confluences s))%nat
  /\ (strength s = Weak \/ strength s = Medium \/ strength s = Strong)
  /\ strength s <> StrengthNone.
Proof.
  intro H. apply analyzeAsset_signal in H.
  destruct H as (data & st1 & _ & H1 & H2 & Hd & _ & Hs & _).
  split; [exact (blocks_min_confluence _ _ _ _ _ H1 H2 Hd)|].
  rewrite Hs. unfold strengthOf.
  destruct (4 <=? length (confluences s))%nat;
    [|destruct (3 <=? length (confluences s))%nat];
    split; auto; discriminate.
Qed.

(** The signal for the dip window has four labels and strength Strong. *)
Lemma analyzeAsset_min_confluence_strength_witness :
  exists s,
    analyzeAsset (sampleEnv []) (sampleAmbient 0) "GBPUSD"
      (mkConfig M5 GERAL) = Returns (Some s)
    /\ (2 <= length (confluences s))%nat
    /\ strength s <> StrengthNone.
Proof.
  eexists. split; [evaluate|].
  pose proof (analyzeAsset_min_confluence_strength (sampleEnv [])
                (sampleAmbient 0) "GBPUSD" (mkConfig M5 GERAL) _
                ltac:(evaluate)) as (Hl & _ & Hs).
  split; assumption.
Defined.

(** *** Winrate *)

(** C5.  The winrate of a returned signal is the raw score
    [75 + 5 * labels + 5 * random + adjustment + penalty] clamped to
    [[0, 100]]: it lies in that interval whatever the adjustment and the
    penalty are, is [0] below it, [100] above it and the raw score inside. *)
Theorem analyzeAsset_winrate_clamped (env : Env) (amb : Ambient)
    (assetName : string) (config : ScannerConfig) (s : Signal) :
  analyzeAsset env amb assetName config = Returns (Some s) ->
  let base := 75 + Q_of_nat (length (confluences s)) * 5 + mathRandom amb * 5 in
  let feedback_adjustment :=
    inject_Z (winrateAdjustmentOf (feedbackHistory env) assetName) in
  let loss_penalty :=
    inject_Z (lossPenaltyOf (feedbackHistory env) assetName (direction s)
                (confluences s)) in
  let raw := base + feedback_adjustment + loss_penalty in
  0 <= winrate s /\ winrate s <= 100
  /\ (raw < 0 -> winrate s == 0)
  /\ (0 <= raw <= 100 -> winrate s == raw)
  /\ (100 < raw -> winrate s == 100).
Proof.
  intro H. apply analyzeAsset_signal in H.
  destruct H as (data & st1 & _ & _ & _ & _ & _ & _ & _ & Hw & _).
  cbv zeta. rewrite Hw. unfold rawWinrate.
  split; [apply clamp_bounds|]. split; [apply clamp_bounds|].
  apply clamp_cases.
Qed.

(** The signal for the rising window has winrate 91. *)
Lemma analyzeAsset_winrate_clamped_witness :
  exists s,
    analyzeAsset (sampleEnv []) (sampleAmbient (1 # 5)) "EURUSD"
      (mkConfig M1 GERAL) = Returns (Some s)
    /\ 0 <= winrate s /\ winrate s <= 100.
Proof.
  eexists. split; [evaluate|].
  pose proof (analyzeAsset_winrate_clamped (sampleEnv [])
                (sampleAmbient (1 # 5)) "EURUSD" (mkConfig M1 GERAL) _
                ltac:(evaluate)) as H.
  cbv zeta in H. destruct H as (H0 & H100 & _). split; assumption.
Defined.

(** *** Entry scheduling *)

Lemma entrySchedule_M1 (tz t : Z) :
  entrySchedule tz M1 t = ((60000 * (t / 60000) + 120000)%Z, "1 min").
Proof.
  unfold entrySchedule, addMinutes, startOfMinute. f_equal.
  pose proof (Z.div_mod t 60000). lia.
Qed.

Lemma entrySchedule_M5 (tz t : Z) :
  exists e, entrySchedule tz M5 t = (e, "5 min")
    /\ (e + tz * 60000 = 300000 * ((t + tz * 60000) / 300000 + 1))%Z.
Proof.
  eexists. split; [reflexivity|].
  unfold setSeconds, startOfMinute, addMinutes, ceilDiv, getMinutes.
  Z.div_mod_to_equations. lia.
Qed.

(** C2, as stated, fails for M1: a call at 10:07:30 (zone UTC) is
    scheduled at 10:09:00, the minute floor plus two minutes, not at
    10:10:00. *)
Lemma analyzeAsset_M1_entry_at_10_09 :
  exists s,
    analyzeAsset (sampleEnv []) (sampleAmbient (1 # 5)) "EURUSD"
      (mkConfig M1 GERAL) = Returns (Some s)
    /\ timeOfDay 0 (dateNew (sampleAmbient (1 # 5)))
       = ((10 * 3600 + 7 * 60 + 30) * 1000)%Z
    /\ timeOfDay 0 (entryTimestamp s) = ((10 * 3600 + 9 * 60) * 1000)%Z
    /\ timeOfDay 0 (entryTimestamp s) <> ((10 * 3600 + 10 * 60) * 1000)%Z
    /\ entryTime s = "10:09:00".
Proof.
  eexists. split; [evaluate|].
  repeat split; try reflexivity. vm_compute. discriminate.
Qed.

(** C2 (amended).  For M1 the entry timestamp is the call time rounded
    down to the minute plus two minutes, labelled '1 min': a call at
    10:07:30 is scheduled at 10:09:00.  For M5 it is the first local
    five-minute boundary strictly after the call time, seconds zeroed,
    labelled '5 min': a call at 10:07:30 is scheduled at 10:10:00. *)
Theorem analyzeAsset_entry_schedule (env : Env) (amb : Ambient)
    (assetName : string) (config : ScannerConfig) (s : Signal) :
  analyzeAsset env amb assetName config = Returns (Some s) ->
  let t := dateNew amb in
  let tz := tzMinutes env in
  match timeframe config with
  | M1 =>
      (entryTimestamp s = 60000 * (t / 60000) + 2 * 60000
       /\ expiration s = "1 min"
       /\ (timeOfDay tz t = (10 * 3600 + 7 * 60 + 30) * 1000 ->
           timeOfDay tz (entryTimestamp s) = (10 * 3600 + 9 * 60) * 1000))%Z
  | M5 =>
      (entryTimestamp s + tz * 60000
       = 5 * 60000 * ((t + tz * 60000) / (5 * 60000) + 1)
       /\ expiration s = "5 min"
       /\ (timeOfDay tz t = (10 * 3600 + 7 * 60 + 30) * 1000 ->
           timeOfDay tz (entryTimestamp s) = (10 * 3600 + 10 * 60) * 1000))%Z
  end.
Proof.
  intro H. apply analyzeAsset_signal in H.
  destruct H as (data & st1 & _ & _ & _ & _ & _ & _ & _ & _ & He & _).
  cbv zeta. destruct (timeframe config).
  - rewrite entrySchedule_M1 in He. injection He as He Hx.
    split; [lia|]. split; [exact Hx|].
    rewrite He. unfold timeOfDay. intro Ht.
    Z.div_mod_to_equations. lia.
  - destruct (entrySchedule_M5 (tzMinutes env) (dateNew amb)) as (e & He' & Hf).
    rewrite He' in He. injection He as He Hx. subst e.
    change (5 * 60000)%Z with 300000%Z.
    split; [exact Hf|]. split; [exact Hx|].
    unfold timeOfDay. intro Ht.
    Z.div_mod_to_equations. lia.
Qed.

(** An M5 scan at 10:07:30 schedules the entry at 10:10:00. *)
Lemma analyzeAsset_entry_schedule_witness :
  exists s,
    analyzeAsset (sampleEnv []) (sampleAmbient 0) "GBPUSD"
      (mkConfig M5 GERAL) = Returns (Some s)
    /\ expiration s = "5 min"
    /\ timeOfDay 0 (entryTimestamp s) = ((10 * 3600 + 10 * 60) * 1000)%Z.
Proof.
  eexists. split; [evaluate|].
  pose proof (analyzeAsset_entry_schedule (sampleEnv [])
                (sampleAmbient 0) "GBPUSD" (mkConfig M5 GERAL) _
                ltac:(evaluate)) as H.
  cbv zeta in H. change (timeframe (mkConfig M5 GERAL)) with M5 in H.
  destruct H as (_ & Hx & Ht). split; [exact Hx|].
  apply Ht. reflexivity.
Defined.

(** ** Feedback-driven scoring *)

Lemma countIf_app {A} (P : A -> bool) (xs ys : list A) :
  countIf P (xs ++ ys) = (countIf P xs + countIf P ys)%nat.
Proof. unfold countIf. rewrite List.filter_app, length_app. reflexivity. Qed.

Lemma countIf_cons {A} (P : A -> bool) (x : A) (xs : list A) :
  countIf P (x :: xs) = ((if P x then 1 else 0) + countIf P xs)%nat.
Proof. unfold countIf. simpl. destruct (P x); reflexivity. Qed.

Lemma countIf_drop_S {A} (P : A -> bool) (n : nat) (xs : list A) :
  (countIf P (drop (S n) xs) <= countIf P (drop n xs)
   <= S (countIf P (drop (S n) xs)))%nat.
Proof.
  destruct (xs !! n) as [x|] eqn:E.
  - rewrite (drop_S _ _ _ E), countIf_cons. destruct (P x); lia.
  - apply lookup_ge_None in E.
    rewrite !drop_ge by lia. cbn. lia.
Qed.

(** Inserting one record [f] somewhere into the per-asset history moves the
    window of the most recent 20 by at most one place. *)
Lemma recent_insert (P : Feedback -> bool) (F1 F2 : list Feedback)
    (f : Feedback) :
  let W := sliceLast 20 (F1 ++ F2) in
  let W' := sliceLast 20 (F1 ++ f :: F2) in
  (P f = true -> countIf P W <= countIf P W')%nat
  /\ (P f = false -> countIf P W' <= countIf P W)%nat.
Proof.
  unfold sliceLast. cbv zeta. rewrite !length_app. cbn [length].
  destruct (le_lt_dec 20 (length F1 + length F2)) as [Hge|Hlt].
  - replace (length F1 + S (length F2) - 20)%nat
      with (S (length F1 + length F2 - 20)) by lia.
    set (n := (length F1 + length F2 - 20)%nat).
    destruct (le_lt_dec (length F1) n) as [Hn|Hn].
    + rewrite (drop_app_ge F1 (f :: F2)) by lia.
      rewrite (drop_app_ge F1 F2) by lia.
      replace (S n - length F1)%nat with (S (n - length F1)) by lia.
      cbn [drop]. split; intros _; lia.
    + rewrite (drop_app_le F1 (f :: F2)) by lia.
      rewrite (drop_app_le F1 F2) by lia.
      rewrite !countIf_app, countIf_cons.
      pose proof (countIf_drop_S P n F1) as Hd.
      split; intros ->; lia.
  - replace (length F1 + S (length F2) - 20)%nat with 0%nat by lia.
    replace (length F1 + length F2 - 20)%nat with 0%nat by lia.
    rewrite !drop_0, !countIf_app, countIf_cons.
    split; intros ->; lia.
Qed.

Lemma propIs_true_iff (x : option string) (s : string) :
  propIs x s = true <-> x = Some s.
Proof.
  destruct x as [v|]; simpl.
  - rewrite String.eqb_eq. split; [intros ->; reflexivity|intros [= ->]; reflexivity].
  - split; discriminate.
Qed.

Lemma includes_true_iff (xs : list string) (c : string) :
  includes xs c = true <-> c ∈ xs.
Proof.
  unfold includes. rewrite existsb_exists, list_elem_of_In.
  split.
  - intros (x & Hin & Heq). apply String.eqb_eq in Heq. subst x. exact Hin.
  - intro Hin. exists c. split; [exact Hin|apply String.eqb_refl].
Qed.

(** On arrays without repeated labels the two counts are the sizes of the
    label sets and of their intersection. *)
Lemma overlap_count_as_sets (recorded confluences : list string) :
  NoDup recorded ->
  length (List.filter (includes confluences) recorded)
  = size ((list_to_set recorded : gset string) ∩ list_to_set confluences)
  /\ length recorded = size (list_to_set recorded : gset string).
Proof.
  intro Hnd. split; [|symmetry; apply size_list_to_set, Hnd].
  induction Hnd as [|x l Hx Hnd IH].
  { cbn [List.filter list_to_set length].
    assert ((∅ : gset string) ∩ list_to_set confluences = ∅) as ->
      by set_solver.
    rewrite size_empty. reflexivity. }
  cbn [List.filter list_to_set].
  destruct (includes confluences x) eqn:E.
  - apply includes_true_iff in E. cbn [length]. rewrite IH.
    assert (({[x]} ∪ list_to_set l) ∩ list_to_set confluences
            = ({[x]} : gset string) ∪ (list_to_set l ∩ list_to_set confluences))
      as -> by set_solver.
    assert (Hdisj : ({[x]} : gset string)
                    ## list_to_set l ∩ list_to_set confluences) by set_solver.
    rewrite (size_union _ _ Hdisj), size_singleton. reflexivity.
  - rewrite IH. f_equal.
    assert (Hn : x ∉ confluences).
    { intro Hin. apply includes_true_iff in Hin. congruence. }
    set_solver.
Qed.

Section LossScoring.

(** The asset, direction and labels of the signal being scored. *)
Variable assetName : string.
Variable d : Direction.
Variable labels : list string.

Lemma similarLoss_asset_result (f : Feedback) :
  similarLoss assetName d labels f = true ->
  propIs (fb_asset f) assetName = true
  /\ propIs (fb_result f) "loss" = true
  /\ propIs (fb_result f) "win" = false.
Proof.
  unfold similarLoss. rewrite !andb_true_iff.
  intros [[[Ha Hr] _] _]. repeat split; try assumption.
  destruct (fb_result f) as [r|]; [|reflexivity].
  simpl in *. apply String.eqb_eq in Hr. subst r. reflexivity.
Qed.

Lemma similarLoss_iff (f : Feedback) :
  similarLoss assetName d labels f = true
  <-> matchingLoss assetName d labels f.
Proof.
  unfold similarLoss, matchingLoss, overlapRatio.
  rewrite !andb_true_iff, !propIs_true_iff.
  assert (Hfilter : forall recorded,
            List.filter (includes labels) recorded
            = List.filter (fun c => bool_decide (c ∈ labels)) recorded).
  { intro recorded. apply List.filter_ext. intro c.
    destruct (includes labels c) eqn:E.
    - symmetry. apply bool_decide_eq_true, includes_true_iff, E.
    - symmetry. apply bool_decide_eq_false. intro Hin.
      apply includes_true_iff in Hin. congruence. }
  destruct (fb_context f) as [ctx|].
  - rewrite Qle_bool_iff, Hfilter. split.
    + intros [[[Ha Hr] Hd] Ho]. repeat split; try assumption.
      exists ctx. split; [reflexivity|exact Ho].
    + intros (Ha & Hd & Hr & ctx' & [= <-] & Ho). repeat split; assumption.
  - split.
    + intros [_ H]. discriminate.
    + intros (_ & _ & _ & ctx' & H & _). discriminate.
Qed.

Lemma winrateAdjustmentOf_insert (h1 h2 : list Feedback) (f : Feedback) :
  similarLoss assetName d labels f = true ->
  (winrateAdjustmentOf (h1 ++ f :: h2) assetName
   <= winrateAdjustmentOf (h1 ++ h2) assetName)%Z.
Proof.
  intro Hf. apply similarLoss_asset_result in Hf.
  destruct Hf as (Ha & Hl & Hw).
  unfold winrateAdjustmentOf.
  rewrite !List.filter_app. cbn [List.filter]. rewrite Ha.
  set (F1 := List.filter _ h1). set (F2 := List.filter _ h2).
  pose proof (proj1 (recent_insert (fun f => propIs (fb_result f) "loss")
                       F1 F2 f) Hl) as Hlosses.
  pose proof (proj2 (recent_insert (fun f => propIs (fb_result f) "win")
                       F1 F2 f) Hw) as Hwins.
  unfold countIf in Hlosses, Hwins. cbv zeta.
  repeat match goal with
  | |- context [(?a <? ?b)%Z] => destruct (Z.ltb_spec a b)
  end; lia.
Qed.

Lemma lossPenaltyOf_count (history : list Feedback) :
  lossPenaltyOf history assetName d labels
  = (- 5 * Z.of_nat (countIf (similarLoss assetName d labels) history))%Z.
Proof.
  unfold lossPenaltyOf, countIf.
  destruct (0 <? length _)%nat eqn:E; [lia|].
  apply Nat.ltb_ge in E. lia.
Qed.

Lemma lossPenaltyOf_insert (h1 h2 : list Feedback) (f : Feedback) :
  similarLoss assetName d labels f = true ->
  lossPenaltyOf (h1 ++ f :: h2) assetName d labels
  = (lossPenaltyOf (h1 ++ h2) assetName d labels - 5)%Z.
Proof.
  intro Hf. rewrite !lossPenaltyOf_count, !countIf_app, countIf_cons, Hf. lia.
Qed.

Lemma rawWinrate_insert (random : Q) (h1 h2 : list Feedback)
    (f : Feedback) :
  similarLoss assetName d labels f = true ->
  rawWinrate labels random
    (winrateAdjustmentOf (h1 ++ f :: h2) assetName)
    (lossPenaltyOf (h1 ++ f :: h2) assetName d labels)
  < rawWinrate labels random
      (winrateAdjustmentOf (h1 ++ h2) assetName)
      (lossPenaltyOf (h1 ++ h2) assetName d labels).
Proof.
  intro Hf.
  pose proof (winrateAdjustmentOf_insert h1 h2 f Hf) as Hadj.
  pose proof (lossPenaltyOf_insert h1 h2 f Hf) as Hpen.
  unfold rawWinrate. rewrite Hpen.
  rewrite Zle_Qle in Hadj.
  unfold Z.sub. rewrite inject_Z_plus, inject_Z_opp.
  change (inject_Z 5) with 5. lra.
Qed.

Lemma winrateUnder_added (random : Q) (h h' : list Feedback) :
  addedLosses (similarLoss assetName d labels) h h' ->
  (countIf (similarLoss assetName d labels) h
   < countIf (similarLoss assetName d labels) h')%nat
  /\ winrateUnder assetName d labels random h'
     <= winrateUnder assetName d labels random h
  /\ (0 < winrateUnder assetName d labels random h ->
      winrateUnder assetName d labels random h' < 100 ->
      winrateUnder assetName d labels random h'
      < winrateUnder assetName d labels random h).
Proof.
  induction 1 as [h1 h2 f Hf | h h' h'' _ IH1 _ IH2].
  - pose proof (rawWinrate_insert random h1 h2 f Hf)
      as Hraw.
    split; [rewrite !countIf_app, countIf_cons, Hf; lia|].
    unfold winrateUnder. split.
    + apply clamp_monotone, Qlt_le_weak, Hraw.
    + apply clamp_strict, Hraw.
  - destruct IH1 as (Hc1 & Hle1 & Hlt1). destruct IH2 as (Hc2 & Hle2 & Hlt2).
    split; [lia|]. split; [exact (Qle_trans _ _ _ Hle2 Hle1)|].
    intros Hpos Hcap.
    destruct (Qlt_le_dec 0 (winrateUnder assetName d labels random h'))
      as [Hpos'|Hzero].
    + exact (Qlt_le_trans _ _ _ (Hlt2 Hpos' Hcap) Hle1).
    + exact (Qle_lt_trans _ _ _ (Qle_trans _ _ _ Hle2 Hzero) Hpos).
Qed.

End LossScoring.

(** C6, as stated, fails: with twenty matching losses on record the
    winrate is already clamped to 0, and a twenty-first matching loss
    leaves it at 0 instead of lowering it. *)
Lemma lossPenalty_saturated_at_zero :
  exists s s',
    analyzeAsset (sampleEnv (replicate 20 lossRecord)) (sampleAmbient (1 # 5))
      "EURUSD" (mkConfig M1 GERAL) = Returns (Some s)
    /\ analyzeAsset (sampleEnv (replicate 20 lossRecord ++ [lossRecord]))
         (sampleAmbient (1 # 5)) "EURUSD" (mkConfig M1 GERAL) = Returns (Some s')
    /\ similarLoss "EURUSD" (direction s) (confluences s) lossRecord = true
    /\ winrate s = 0 /\ winrate s' = 0
    /\ ~ winrate s' < winrate s.
Proof.
  do 2 eexists. split; [evaluate|]. split; [evaluate|].
  split; [evaluate|]. split; [evaluate|]. split; [evaluate|].
  vm_compute. discriminate.
Qed.

(** C6 (amended).  The penalty applied by [analyzeAsset] is minus five
    times the number of records with the same asset, the same direction,
    result loss and a context overlapping the current labels by at least
    0.7 of the longer array.  Adding one or more such records, anywhere in
    the history and with everything else fixed, leaves direction and
    labels as they were, raises that number, never raises the winrate, and
    lowers it strictly unless the clamp hides the change: that is, unless
    the earlier winrate is already 0 or the later one is still 100. *)
Theorem lossPenalty_counts_and_lowers (md : gmap string MarketEntry) (tz : Z)
    (amb : Ambient) (assetName : string) (config : ScannerConfig)
    (h h' : list Feedback) (s s' : Signal) :
  analyzeAsset (mkEnv md h tz) amb assetName config = Returns (Some s) ->
  analyzeAsset (mkEnv md h' tz) amb assetName config = Returns (Some s') ->
  addedLosses (similarLoss assetName (direction s) (confluences s)) h h' ->
  let matching :=
    countIf (similarLoss assetName (direction s) (confluences s)) in
  (forall g, similarLoss assetName (direction s) (confluences s) g = true
             <-> matchingLoss assetName (direction s) (confluences s) g)
  /\ winrate s
     = Qmax 0 (Qmin (75 + Q_of_nat (length (confluences s)) * 5
                     + mathRandom amb * 5
                     + inject_Z (winrateAdjustmentOf h assetName)
                     + inject_Z (- 5 * Z.of_nat (matching h))) 100)
  /\ direction s' = direction s
  /\ confluences s' = confluences s
  /\ (matching h < matching h')%nat
  /\ winrate s' <= winrate s
  /\ (0 < winrate s -> winrate s' < 100 -> winrate s' < winrate s).
Proof.
  intros Hs Hs' Hadded matching.
  apply analyzeAsset_signal in Hs, Hs'. cbn [marketData feedbackHistory] in Hs, Hs'.
  destruct Hs as (data & st1 & Hd & Hb & Hsell & _ & _ & _ & _ & Hw & _).
  destruct Hs' as (data' & st1' & Hd' & Hb' & Hsell' & _ & _ & _ & _ & Hw' & _).
  rewrite Hd in Hd'. injection Hd' as <-.
  rewrite Hb in Hb'. injection Hb' as <-.
  rewrite Hsell in Hsell'. injection Hsell' as Hdir Hconf.
  rewrite <- Hdir, <- Hconf in Hw'.
  split; [intro g; apply similarLoss_iff|].
  split; [rewrite Hw, lossPenaltyOf_count; reflexivity|].
  split; [symmetry; exact Hdir|]. split; [symmetry; exact Hconf|].
  destruct (winrateUnder_added assetName (direction s) (confluences s)
              (mathRandom amb) h h' Hadded) as (Hcount & Hle & Hlt).
  unfold winrateUnder in Hle, Hlt. rewrite <- Hw, <- Hw' in Hle, Hlt.
  split; [exact Hcount|]. split; assumption.
Qed.

(** One loss on record lowers the winrate of the rising window from 91
    to 84. *)
Lemma lossPenalty_counts_and_lowers_witness :
  exists s s',
    analyzeAsset (sampleEnv []) (sampleAmbient (1 # 5)) "EURUSD"
      (mkConfig M1 GERAL) = Returns (Some s)
    /\ analyzeAsset (sampleEnv [lossRecord]) (sampleAmbient (1 # 5)) "EURUSD"
         (mkConfig M1 GERAL) = Returns (Some s')
    /\ winrate s' < winrate s.
Proof.
  do 2 eexists. split; [evaluate|]. split; [evaluate|].
  pose proof (lossPenalty_counts_and_lowers
                (marketData (sampleEnv [])) 0 (sampleAmbient (1 # 5)) "EURUSD"
                (mkConfig M1 GERAL) [] [lossRecord] _ _
                ltac:(evaluate) ltac:(evaluate)) as H.
  cbv zeta in H.
  destruct H as (_ & _ & _ & _ & _ & _ & Hstrict).
  - apply (added_one _ [] [] lossRecord). evaluate.
  - apply Hstrict; evaluate.
Defined.

(** ** Scanner *)

(** *** Selection among candidates *)

Lemma challenge_from (l : list Signal) (a : Signal) :
  exists b,
    fold_left challenge l (Some a) = Some b
    /\ ((b = a /\ Forall (fun c => winrate c <= winrate a) l)
        \/ exists pre post,
             l = pre ++ b :: post
             /\ winrate a < winrate b
             /\ Forall (fun c => winrate c < winrate b) pre
             /\ Forall (fun c => winrate c <= winrate b) post).
Proof.
  revert a. induction l as [|x l IH]; intro a.
  - exists a. split; [reflexivity|]. left. split; [reflexivity|constructor].
  - cbn [fold_left challenge].
    destruct (Qgt_bool (winrate x) (winrate a)) eqn:E.
    + apply Qgt_bool_iff in E.
      destruct (IH x) as (b & Hb & [[-> Hall] | (pre & post & -> & Hlt & Hpre & Hpost)]).
      * exists x. split; [exact Hb|]. right.
        exists [], l. repeat split; try assumption. constructor.
      * exists b. split; [exact Hb|]. right.
        exists (x :: pre), post. repeat split; try assumption.
        -- exact (Qlt_trans _ _ _ E Hlt).
        -- constructor; assumption.
    + assert (Hle : winrate x <= winrate a).
      { apply Qnot_lt_le. intro H. apply Qgt_bool_iff in H. congruence. }
      destruct (IH a) as (b & Hb & [[-> Hall] | (pre & post & -> & Hlt & Hpre & Hpost)]).
      * exists a. split; [exact Hb|]. left. split; [reflexivity|].
        constructor; assumption.
      * exists b. split; [exact Hb|]. right.
        exists (x :: pre), post. repeat split; try assumption.
        constructor; [|assumption].
        exact (Qle_lt_trans _ _ _ Hle Hlt).
Qed.

(** Folding the comparison over the candidates picks the first candidate
    of maximal winrate. *)
Lemma challenge_first_highest (cands : list Signal) :
  match fold_left challenge cands None with
  | None => cands = []
  | Some b =>
      exists pre post,
        cands = pre ++ b :: post
        /\ Forall (fun c => winrate c < winrate b) pre
        /\ Forall (fun c => winrate c <= winrate b) post
  end.
Proof.
  destruct cands as [|x l]; [reflexivity|].
  cbn [fold_left challenge].
  destruct (challenge_from l x)
    as (b & -> & [[-> Hall] | (pre & post & -> & Hlt & Hpre & Hpost)]).
  - exists [], l. repeat split; [constructor|assumption].
  - exists (x :: pre), post. repeat split; try assumption.
    constructor; assumption.
Qed.

Lemma selected_is_candidate (cands : list Signal) (b : Signal) :
  fold_left challenge cands None = Some b -> In b cands.
Proof.
  intro H. pose proof (challenge_first_highest cands) as Hsel.
  rewrite H in Hsel. destruct Hsel as (pre & post & -> & _).
  apply in_or_app. right. left. reflexivity.
Qed.

Lemma sameSlot_false (info : SignalInfo) (s : Signal) :
  sameSlot (Some info) s = false ->
  ~ (asset s = info_asset info
     /\ entryTimestamp s = info_entryTimestamp info).
Proof.
  unfold sameSlot. intros H [Ha Ht].
  rewrite Ha, Ht, String.eqb_refl, Z.eqb_refl in H. discriminate.
Qed.

(** *** The scan loop *)

Section ScanLoop.

Variable env : Env.
Variable clk : ScanAmbient.
Variable cfg : ScannerConfig.
Variable mutedList : list string.
Variable lastSignalInfo : option SignalInfo.

(** One turn of the loop: one log entry, and the candidate, if the
    instrument is one, challenges the running best. *)
Lemma scanAsset_step (logs : list ScanLog) (best : option Signal)
    (a : string * MarketType) :
  scanAsset env clk cfg mutedList lastSignalInfo (logs, best) a
  = Returns (logs ++ [entryOf env clk cfg mutedList lastSignalInfo a],
             challengeWith best
               (candidateOf env clk cfg mutedList lastSignalInfo a)).
Proof.
  destruct a as [name ty].
  unfold scanAsset, entryOf, dispositionOf, candidateOf, analysisOf.
  cbn [fst snd].
  destruct (includes mutedList name); [reflexivity|].
  destruct (marketFiltered cfg ty); [reflexivity|].
  destruct (analyzeAsset_returns env (analysisAmbient clk name) name cfg)
    as [r ->].
  cbn [bind]. destruct r as [s|]; [|reflexivity].
  destruct (Qlt_bool (winrate s) 90); [reflexivity|].
  destruct (sameSlot lastSignalInfo s); [reflexivity|].
  cbn [challengeWith fst snd]. unfold challenge.
  destruct best as [b|]; [|reflexivity].
  destruct (Qgt_bool (winrate s) (winrate b)); reflexivity.
Qed.

Lemma forEach_scanAsset (assets : list (string * MarketType))
    (logs : list ScanLog) (best : option Signal) :
  forEach (scanAsset env clk cfg mutedList lastSignalInfo) assets (logs, best)
  = Returns
      (logs ++ map (entryOf env clk cfg mutedList lastSignalInfo) assets,
       fold_left challenge
         (omap (candidateOf env clk cfg mutedList lastSignalInfo) assets) best).
Proof.
  revert logs best.
  induction assets as [|a assets IH]; intros logs best.
  - cbn. rewrite app_nil_r. reflexivity.
  - cbn [forEach]. rewrite scanAsset_step. cbn [bind]. rewrite IH.
    cbn [map omap list_omap]. rewrite <- app_assoc. cbn [app].
    destruct (candidateOf env clk cfg mutedList lastSignalInfo a);
      reflexivity.
Qed.

(** [scan] never raises; its reply and the new [lastSignalInfo] in closed
    form. *)
Lemma scan_unfold (assets : list (string * MarketType)) :
  let entries := map (entryOf env clk cfg mutedList lastSignalInfo) assets in
  let best :=
    fold_left challenge
      (candidates assets env clk cfg mutedList lastSignalInfo) None in
  scan assets env clk cfg mutedList lastSignalInfo
  = Returns
      (match best with
       | Some b =>
           (mkResult best
              (entries ++ [mkLog (formatHHmmss (tzMinutes env) (selectedClock clk))
                             (asset b) selected None]),
            Some (mkInfo (asset b) (entryTimestamp b)))
       | None => (mkResult None entries, lastSignalInfo)
       end).
Proof.
  unfold scan, candidates. rewrite forEach_scanAsset. cbn [bind app].
  destruct (fold_left challenge _ None); reflexivity.
Qed.

Lemma log_asset_entries (assets : list (string * MarketType)) :
  map log_asset (map (entryOf env clk cfg mutedList lastSignalInfo) assets)
  = map fst assets.
Proof. rewrite map_map. apply map_ext. intro a. reflexivity. Qed.

Lemma scan_result (assets : list (string * MarketType)) (res : ScanResult)
    (last' : option SignalInfo) :
  scan assets env clk cfg mutedList lastSignalInfo = Returns (res, last') ->
  bestSignal res
  = fold_left challenge
      (candidates assets env clk cfg mutedList lastSignalInfo) None
  /\ logs res
     = map (entryOf env clk cfg mutedList lastSignalInfo) assets
       ++ match bestSignal res with
          | Some b => [mkLog (formatHHmmss (tzMinutes env) (selectedClock clk))
                         (asset b) selected None]
          | None => []
          end
  /\ last' = match bestSignal res with
             | Some b => Some (mkInfo (asset b) (entryTimestamp b))
             | None => lastSignalInfo
             end.
Proof.
  rewrite scan_unfold. cbv zeta.
  destruct (fold_left challenge _ None) as [b|];
    intros [= <- <-]; cbn [bestSignal logs]; rewrite ?app_nil_r;
    repeat split; reflexivity.
Qed.

Lemma candidateOf_not_sameSlot (a : string * MarketType)
    (s : Signal) :
  candidateOf env clk cfg mutedList lastSignalInfo a = Some s ->
  sameSlot lastSignalInfo s = false.
Proof.
  unfold candidateOf.
  destruct (includes mutedList (fst a)); [discriminate|].
  destruct (marketFiltered cfg (snd a)); [discriminate|].
  destruct (analysisOf env clk cfg (fst a)) as [s0|]; [|discriminate].
  destruct (Qlt_bool (winrate s0) 90); [discriminate|].
  destruct (sameSlot lastSignalInfo s0) eqn:E; [discriminate|].
  intros [= <-]. exact E.
Qed.

End ScanLoop.

(** C3.  [scan] always replies.  Its log holds one entry per instrument in
    enumeration order (followed by the "selected" entry, if any), and the
    signal it selects is the first candidate of maximal winrate: every
    candidate before it has a strictly smaller winrate and every candidate
    after it a winrate that is not greater, so a later candidate replaces
    the best only when strictly greater and the first seen wins ties.
    With two candidates A and B at winrates 91 and 95, in either order, the
    scan selects B; a muted instrument B is no candidate and is logged as
    discarded for being muted, so that with A the only candidate left the
    scan selects A. *)
Theorem scan_selects_first_highest (assets : list (string * MarketType))
    (env : Env) (clk : ScanAmbient) (cfg : ScannerConfig)
    (mutedList : list string) (lastSignalInfo : option SignalInfo) :
  let cands := candidates assets env clk cfg mutedList lastSignalInfo in
  exists res last',
    scan assets env clk cfg mutedList lastSignalInfo = Returns (res, last')
    /\ map log_asset (take (length assets) (logs res)) = map fst assets
    /\ (bestSignal res = None <-> cands = [])
    /\ (forall b, bestSignal res = Some b ->
        exists pre post,
          cands = pre ++ b :: post
          /\ Forall (fun c => winrate c < winrate b) pre
          /\ Forall (fun c => winrate c <= winrate b) post)
    /\ (forall sA sB,
          cands = [sA; sB] \/ cands = [sB; sA] ->
          winrate sA == 91 -> winrate sB == 95 ->
          bestSignal res = Some sB)
    /\ (forall B tB,
          In (B, tB) assets -> includes mutedList B = true ->
          candidateOf env clk cfg mutedList lastSignalInfo (B, tB) = None
          /\ In (mkLog (formatHHmmss (tzMinutes env) (logClock clk B)) B
                   discarded (Some mutedReason)) (logs res))
    /\ (forall sA, cands = [sA] -> bestSignal res = Some sA).
Proof.
  intro cands.
  pose proof (scan_unfold env clk cfg mutedList lastSignalInfo assets) as Hscan.
  pose proof (challenge_first_highest cands) as Hsel.
  cbv zeta in Hscan. fold cands in Hscan.
  set (entries := map (entryOf env clk cfg mutedList lastSignalInfo) assets) in *.
  assert (Hlen : length entries = length assets) by (apply length_map).
  assert (Hmuted : forall B tB,
             In (B, tB) assets -> includes mutedList B = true ->
             candidateOf env clk cfg mutedList lastSignalInfo (B, tB) = None
             /\ In (mkLog (formatHHmmss (tzMinutes env) (logClock clk B)) B
                      discarded (Some mutedReason)) entries).
  { intros B tB Hin HB. split.
    - unfold candidateOf. cbn [fst]. rewrite HB. reflexivity.
    - apply in_map_iff. exists (B, tB). split; [|exact Hin].
      unfold entryOf, dispositionOf. cbn [fst]. rewrite HB. reflexivity. }
  assert (Hpair : forall sA sB,
             cands = [sA; sB] \/ cands = [sB; sA] ->
             winrate sA == 91 -> winrate sB == 95 ->
             fold_left challenge cands None = Some sB).
  { intros sA sB Hc HwA HwB.
    assert (Hgt : Qgt_bool (winrate sB) (winrate sA) = true).
    { apply Qgt_bool_iff. rewrite HwA, HwB. reflexivity. }
    assert (Hle : Qgt_bool (winrate sA) (winrate sB) = false).
    { destruct (Qgt_bool (winrate sA) (winrate sB)) eqn:E; [|reflexivity].
      apply Qgt_bool_iff in E. rewrite HwA, HwB in E. discriminate. }
    destruct Hc as [-> | ->]; cbn [fold_left challenge];
      rewrite ?Hgt, ?Hle; reflexivity. }
  destruct (fold_left challenge cands None) as [b|] eqn:Hbest.
  - eexists _, _. split; [exact Hscan|]. cbn [logs bestSignal].
    split; [|split; [|split; [|split; [|split]]]].
    + rewrite take_app_le by lia. rewrite take_ge by lia.
      apply log_asset_entries.
    + destruct Hsel as (pre & post & -> & _). split; [discriminate|].
      intro H. destruct pre; discriminate.
    + intros b' [= <-]. exact Hsel.
    + exact Hpair.
    + intros B tB Hin HB. destruct (Hmuted B tB Hin HB) as [Hc Hlog].
      split; [exact Hc|]. apply in_or_app. left. exact Hlog.
    + intros sA HA. rewrite HA in Hbest. cbn in Hbest. exact (eq_sym Hbest).
  - eexists _, _. split; [exact Hscan|]. cbn [logs bestSignal].
    split; [|split; [|split; [|split; [|split]]]].
    + rewrite take_ge by lia. apply log_asset_entries.
    + split; [intros _; exact Hsel|reflexivity].
    + intros b' [=].
    + exact Hpair.
    + exact Hmuted.
    + intros sA HA. rewrite HA in Hsel. discriminate.
Qed.

(** EURUSD at 91 and GBPUSD at 95: the scan selects GBPUSD, and EURUSD
    once GBPUSD is muted. *)
Lemma scan_selects_first_highest_witness :
  (exists res last',
      scan twoAssets (sampleEnv []) (sampleClock (1 # 5)) (mkConfig M5 GERAL)
        [] None = Returns (res, last')
      /\ (asset <$> bestSignal res) = Some "GBPUSD")
  /\ (exists res last',
        scan twoAssets (sampleEnv []) (sampleClock (1 # 5)) (mkConfig M5 GERAL)
          ["GBPUSD"] None = Returns (res, last')
        /\ (asset <$> bestSignal res) = Some "EURUSD"
        /\ In (mkLog "10:07:30" "GBPUSD" discarded (Some mutedReason))
             (logs res)).
Proof.
  split.
  - destruct (scan_selects_first_highest twoAssets (sampleEnv [])
                (sampleClock (1 # 5)) (mkConfig M5 GERAL) [] None)
      as (res & last' & Hscan & _ & _ & _ & HAB & _).
    exists res, last'. split; [exact Hscan|].
    erewrite HAB; cycle 1; [left; evaluate|evaluate|evaluate|reflexivity].
  - destruct (scan_selects_first_highest twoAssets (sampleEnv [])
                (sampleClock (1 # 5)) (mkConfig M5 GERAL) ["GBPUSD"] None)
      as (res & last' & Hscan & _ & _ & _ & _ & Hmuted & Hone).
    exists res, last'. split; [exact Hscan|].
    erewrite Hone; cycle 1; [evaluate|].
    split; [reflexivity|].
    apply (Hmuted "GBPUSD" REAL); [right; left; reflexivity|reflexivity].
Defined.

(** *** Sessions *)

Lemma onMessage_scan (env : Env) (clk : ScanAmbient) (message : Message)
    (lastSignalInfo : option SignalInfo) (res : ScanResult)
    (last' : option SignalInfo) :
  onMessage env clk message lastSignalInfo = Returns (Some res, last') ->
  msg_type message = "SCAN_MARKET"
  /\ scan ASSETS env clk (msg_config message)
       (default [] (msg_mutedAssets message)) lastSignalInfo
     = Returns (res, last').
Proof.
  unfold onMessage.
  destruct (String.eqb (msg_type message) "SCAN_MARKET") eqn:E; [|discriminate].
  apply String.eqb_eq in E. split; [exact E|].
  destruct (scan ASSETS env clk _ _ lastSignalInfo) as [[r l]|]; [|discriminate].
  cbn in H. injection H as <- <-. reflexivity.
Qed.

(** C4.  After a scan of a session has selected [b1], the next scan of
    that session never selects a signal with the asset and entry timestamp
    of [b1]: an instrument whose analysis yields such a signal at winrate
    90 or more is logged as discarded with the 'already sent' reason,
    whether or not any other instrument qualifies.  The stored pair is
    replaced by the pair of a newly selected signal and is otherwise kept,
    by scans that select nothing and by messages that are not scans. *)
Theorem repeat_suppressed_across_cycles
    (env1 env2 : Env) (clk1 clk2 : ScanAmbient) (m1 m2 : Message)
    (last0 last1 last2 : option SignalInfo) (r1 r2 : ScanResult) (b1 : Signal) :
  onMessage env1 clk1 m1 last0 = Returns (Some r1, last1) ->
  bestSignal r1 = Some b1 ->
  onMessage env2 clk2 m2 last1 = Returns (Some r2, last2) ->
  let cfg2 := msg_config m2 in
  let muted2 := default [] (msg_mutedAssets m2) in
  last1 = Some (mkInfo (asset b1) (entryTimestamp b1))
  /\ (forall b2, bestSignal r2 = Some b2 ->
        ~ (asset b2 = asset b1 /\ entryTimestamp b2 = entryTimestamp b1))
  /\ (forall name ty s,
        In (name, ty) ASSETS ->
        includes muted2 name = false ->
        marketFiltered cfg2 ty = false ->
        analyzeAsset env2 (analysisAmbient clk2 name) name cfg2
          = Returns (Some s) ->
        90 <= winrate s ->
        asset s = asset b1 -> entryTimestamp s = entryTimestamp b1 ->
        In (mkLog (formatHHmmss (tzMinutes env2) (logClock clk2 name)) name
              discarded (Some alreadySentReason)) (logs r2))
  /\ last2 = match bestSignal r2 with
             | Some b2 => Some (mkInfo (asset b2) (entryTimestamp b2))
             | None => last1
             end
  /\ (forall env clk m last,
        msg_type m <> "SCAN_MARKET" ->
        onMessage env clk m last = Returns (None, last)).
Proof.
  intros H1 Hb1 H2 cfg2 muted2.
  apply onMessage_scan in H1, H2.
  destruct H1 as [_ H1]. destruct H2 as [_ H2].
  generalize dependent ASSETS. intros assets H1 H2.
  apply scan_result in H1, H2.
  destruct H1 as (_ & _ & Hlast1). rewrite Hb1 in Hlast1.
  destruct H2 as (Hbest2 & Hlogs2 & Hlast2).
  fold cfg2 muted2 in Hbest2, Hlogs2.
  split; [exact Hlast1|]. split; [|split; [|split]].
  - intros b2 Hb2. rewrite Hb2 in Hbest2. symmetry in Hbest2.
    apply selected_is_candidate in Hbest2.
    unfold candidates in Hbest2.
    apply list_elem_of_In, list_elem_of_omap in Hbest2.
    destruct Hbest2 as (a & _ & Ha).
    apply candidateOf_not_sameSlot in Ha. subst last1.
    exact (sameSlot_false _ _ Ha).
  - intros name ty s Hin Hmuted Hmarket Han Hw Ha Ht.
    rewrite Hlogs2. apply in_or_app. left.
    apply in_map_iff. exists (name, ty). split; [|exact Hin].
    unfold entryOf, dispositionOf, analysisOf. cbn [fst snd].
    rewrite Hmuted, Hmarket, Han.
    assert (Hlt : Qlt_bool (winrate s) 90 = false).
    { destruct (Qlt_bool (winrate s) 90) eqn:E; [|reflexivity].
      apply Qlt_bool_iff in E. exfalso. exact (Qlt_not_le _ _ E Hw). }
    rewrite Hlt. subst last1. unfold sameSlot. cbn [info_asset info_entryTimestamp].
    rewrite Ha, Ht, String.eqb_refl, Z.eqb_refl. reflexivity.
  - exact Hlast2.
  - intros env clk m last Hm. unfold onMessage.
    apply String.eqb_neq in Hm. rewrite Hm. reflexivity.
Qed.

(** Two M5 scans at 10:07:30: the first selects GBPUSD for 10:10:00; in the
    second, with EURUSD muted, GBPUSD is discarded as already sent and
    nothing is selected. *)
Lemma repeat_suppressed_across_cycles_witness :
  exists r1 last1 r2 last2,
    onMessage (sampleEnv []) (sampleClock (1 # 5)) (scanMessage None) None
      = Returns (Some r1, last1)
    /\ (asset <$> bestSignal r1) = Some "GBPUSD"
    /\ onMessage (sampleEnv []) (sampleClock (1 # 5))
         (scanMessage (Some ["EURUSD"])) last1 = Returns (Some r2, last2)
    /\ bestSignal r2 = None
    /\ last2 = last1
    /\ In (mkLog "10:07:30" "GBPUSD" discarded (Some alreadySentReason))
         (logs r2).
Proof.
  eexists _, _, _, _.
  split; [evaluate|]. split; [evaluate|]. split; [evaluate|].
  split; [evaluate|].
  pose proof (repeat_suppressed_across_cycles
                (sampleEnv []) (sampleEnv []) (sampleClock (1 # 5))
                (sampleClock (1 # 5)) (scanMessage None)
                (scanMessage (Some ["EURUSD"])) None _ _ _ _ _
                ltac:(evaluate) ltac:(evaluate) ltac:(evaluate)) as H.
  cbv zeta in H. destruct H as (_ & _ & Hlog & Hlast & _).
  split; [exact Hlast|].
  eapply (Hlog "GBPUSD" REAL); try evaluate.
  - right. left. reflexivity.
  - vm_compute. discriminate.
Defined.

Lemma onMessage_remember (env : Env) (clk : ScanAmbient) (message : Message)
    (stored : option SignalInfo) (reply : option ScanResult)
    (stored' : option SignalInfo) :
  onMessage env clk message stored = Returns (reply, stored') ->
  stored' = remember stored reply
  /\ (forall res b info,
        reply = Some res -> bestSignal res = Some b -> stored = Some info ->
        ~ (asset b = info_asset info
           /\ entryTimestamp b = info_entryTimestamp info)).
Proof.
  intro H. destruct reply as [res|].
  - apply onMessage_scan in H. destruct H as [_ H].
    generalize dependent ASSETS. intros assets H.
    apply scan_result in H. destruct H as (Hbest & _ & Hlast).
    split; [exact Hlast|].
    intros res' b info [= <-] Hb ->.
    rewrite Hb in Hbest. symmetry in Hbest.
    apply selected_is_candidate in Hbest. unfold candidates in Hbest.
    apply list_elem_of_In, list_elem_of_omap in Hbest.
    destruct Hbest as (a & _ & Ha).
    apply candidateOf_not_sameSlot in Ha.
    exact (sameSlot_false _ _ Ha).
  - unfold onMessage in H.
    destruct (String.eqb (msg_type message) "SCAN_MARKET").
    + destruct (scan ASSETS env clk _ _ stored) as [[r l]|]; discriminate.
    + injection H as <-. split; [reflexivity|]. intros res b info [=].
Qed.

(** Along a whole session the stored pair is the pair of the most recent
    selection, and no scan selects the pair stored when it started. *)
Lemma session_never_repeats (arrivals : list (Env * ScanAmbient * Message))
    (stored : option SignalInfo) (replies : list (option ScanResult))
    (stored' : option SignalInfo) :
  session arrivals stored = Returns (replies, stored') ->
  stored' = fold_left remember replies stored
  /\ neverRepeats stored replies.
Proof.
  revert stored replies stored'.
  induction arrivals as [|[[env clk] message] arrivals IH];
    intros stored replies stored'.
  - intros [= <- <-]. split; [reflexivity|exact I].
  - cbn [session].
    destruct (onMessage env clk message stored) as [[reply st1]|] eqn:Hm;
      [|discriminate].
    cbn [bind snd fst].
    destruct (session arrivals st1) as [[rest st2]|] eqn:Hs; [|discriminate].
    cbn [bind snd fst]. intros [= <- <-].
    apply onMessage_remember in Hm. destruct Hm as [-> Hfresh].
    apply IH in Hs. destruct Hs as [-> Hrest].
    split; [reflexivity|]. split; assumption.
Qed.

(** ** Feedback endpoint *)

Lemma truthy_false_iff (x : option string) :
  truthy x = false <-> x = None \/ x = Some "".
Proof.
  destruct x as [v|]; simpl.
  - rewrite negb_false_iff, String.eqb_eq.
    split; [intros ->; right; reflexivity|intros [H|H]; congruence].
  - split; [left; reflexivity|reflexivity].
Qed.

Lemma truthy_true_iff (x : option string) :
  truthy x = true <-> exists v, x = Some v /\ v <> "".
Proof.
  destruct x as [v|]; simpl.
  - rewrite negb_true_iff, String.eqb_neq.
    split; [intro H; exists v; auto|intros (w & [= <-] & H); exact H].
  - split; [discriminate|intros (w & H & _); discriminate].
Qed.

(** C7, as stated, fails: a submission whose result is neither "win" nor
    "loss" is accepted, stamped and appended. *)
Lemma postFeedback_accepts_unrecognized_result :
  let body := mkFeedback (Some "EURUSD") (Some "CALL") (Some "draw") None None in
  fb_result body <> Some "win" /\ fb_result body <> Some "loss"
  /\ postFeedback 1000 [] body
     = (Status200 "ok" 1,
        [mkFeedback (Some "EURUSD") (Some "CALL") (Some "draw") (Some 1000%Z) None]).
Proof. repeat split; discriminate. Qed.

(** C7 (amended).  A submission whose asset or result is missing or the
    empty string is answered 400 and leaves the history as it was; every
    other submission, whatever non-empty strings its asset and result
    hold, is stamped with the current time, appended as exactly one record
    and answered with the new size of the history. *)
Theorem postFeedback_validation (now : Z) (history : list Feedback)
    (body : Feedback) :
  ((fb_asset body = None \/ fb_asset body = Some ""
    \/ fb_result body = None \/ fb_result body = Some "") ->
   postFeedback now history body = (Status400 "Invalid feedback", history))
  /\ (forall a r,
        fb_asset body = Some a -> a <> "" ->
        fb_result body = Some r -> r <> "" ->
        postFeedback now history body
        = (Status200 "ok" (S (length history)),
           history ++ [mkFeedback (Some a) (fb_direction body) (Some r)
                         (Some now) (fb_context body)])).
Proof.
  unfold postFeedback. split.
  - intro H.
    assert (Hf : truthy (fb_asset body) = false \/ truthy (fb_result body) = false).
    { rewrite !truthy_false_iff. tauto. }
    destruct Hf as [-> | ->]; rewrite ?orb_true_r; reflexivity.
  - intros a r Ha Hna Hr Hnr.
    assert (Hta : truthy (fb_asset body) = true)
      by (apply truthy_true_iff; eauto).
    assert (Htr : truthy (fb_result body) = true)
      by (apply truthy_true_iff; eauto).
    rewrite Hta, Htr. cbn [negb orb].
    rewrite length_app, Ha, Hr. cbn [length].
    f_equal. f_equal. lia.
Qed.

(** A submission without result is refused; a loss on EURUSD is stored. *)
Lemma postFeedback_validation_witness :
  postFeedback 1000 [] (mkFeedback (Some "EURUSD") (Some "CALL") None None None)
  = (Status400 "Invalid feedback", [])
  /\ postFeedback 1000 []
       (mkFeedback (Some "EURUSD") (Some "CALL") (Some "loss") None None)
     = (Status200 "ok" 1,
        [mkFeedback (Some "EURUSD") (Some "CALL") (Some "loss") (Some 1000%Z) None]).
Proof.
  split.
  - apply (postFeedback_validation 1000 []
             (mkFeedback (Some "EURUSD") (Some "CALL") None None None)).
    right; right; left; reflexivity.
  - apply (proj2 (postFeedback_validation 1000 []
             (mkFeedback (Some "EURUSD") (Some "CALL") (Some "loss") None None))
             "EURUSD" "loss"); (reflexivity || discriminate).
Defined.

(** * Further properties of the code *)

(** ** Moving averages *)

Lemma Q_of_nat_S (n : nat) : Q_of_nat (S n) == Q_of_nat n + 1.
Proof.
  unfold Q_of_nat. rewrite Nat2Z.inj_succ. unfold Z.succ.
  rewrite inject_Z_plus. reflexivity.
Qed.

Lemma Q_of_nat_pos (n : nat) : (0 < n)%nat -> 0 < Q_of_nat n.
Proof.
  intro H. unfold Q_of_nat. change 0 with (inject_Z 0).
  rewrite <- Zlt_Qlt. lia.
Qed.

Lemma Q_of_nat_nonneg (n : nat) : 0 <= Q_of_nat n.
Proof.
  unfold Q_of_nat. change 0 with (inject_Z 0). rewrite <- Zle_Qle. lia.
Qed.



Lemma sliceLast_app {A} (n : nat) (front tail : list A) :
  (0 < n)%nat -> length tail = n -> sliceLast n (front ++ tail) = tail.
Proof.
  intros Hn Hl. unfold sliceLast. destruct n; [lia|].
  rewrite length_app, Hl.
  replace (length front + S n - S n)%nat with (length front) by lia.
  rewrite drop_app_length. reflexivity.
Qed.

Lemma calculateSMA_None_iff (data : list Q) (period : nat) :
  calculateSMA data period = None <-> (length data < period)%nat.
Proof.
  unfold calculateSMA. destruct (length data <? period)%nat eqn:E.
  - apply Nat.ltb_lt in E. split; [intros _; exact E|reflexivity].
  - apply Nat.ltb_ge in E. split; [discriminate|lia].
Qed.



Lemma calculateEMA_seed (data : list Q) (period : nat) :
  (period <= length data)%nat ->
  calculateEMA data period None = calculateSMA (take period data) period.
Proof.
  intro Hl. unfold calculateEMA, sliceFirst.
  replace (length data <? period)%nat with false
    by (symmetry; apply Nat.ltb_ge; lia).
  reflexivity.
Qed.



Lemma calculateMACD_short (closes : list Q) :
  (length closes < 26)%nat -> calculateMACD closes = mkMacd None None None.
Proof.
  intro H. unfold calculateMACD.
  apply Nat.ltb_lt in H. rewrite H. reflexivity.
Qed.

Lemma calculateMACD_long (closes : list Q) :
  (26 <= length closes)%nat ->
  calculateMACD closes = calculateMACD (take 26 closes)
  /\ exists v s h,
       calculateMACD closes = mkMacd (Some v) (Some s) (Some h)
       /\ v == Qsum (take 12 closes) / 12 - Qsum (take 26 closes) / 26
       /\ s == v * (1 # 5)
       /\ h == v * (4 # 5)
       /\ (0 < h <-> 0 < v) /\ (h < 0 <-> v < 0).
Proof.
  intro H. unfold calculateMACD.
  assert (E : (length closes <? 26)%nat = false) by (apply Nat.ltb_ge; lia).
  rewrite E.
  pose proof (calculateEMA_seed closes 12 ltac:(lia)) as H12.
  pose proof (calculateEMA_seed closes 26 ltac:(lia)) as H26.
  assert (Hlt : length (take 26 closes) = 26%nat)
    by (rewrite length_take; lia).
  pose proof (calculateEMA_seed (take 26 closes) 12 ltac:(lia)) as H12'.
  pose proof (calculateEMA_seed (take 26 closes) 26 ltac:(lia)) as H26'.
  rewrite take_take in H12', H26'. cbn [Nat.min] in H12', H26'.
  rewrite Hlt, Nat.ltb_irrefl, H12', H26', H12, H26.
  split; [reflexivity|].
  unfold calculateSMA. rewrite !length_take, !Nat.min_l by lia.
  rewrite !Nat.ltb_irrefl.
  assert (S12 : sliceLast 12 (take 12 closes) = take 12 closes).
  { apply (sliceLast_app 12 [] (take 12 closes)); [lia|].
    rewrite length_take; lia. }
  assert (S26 : sliceLast 26 (take 26 closes) = take 26 closes).
  { apply (sliceLast_app 26 [] (take 26 closes)); [lia|exact Hlt]. }
  rewrite S12, S26.
  do 3 eexists. split; [reflexivity|].
  set (v := Qsum (take 12 closes) / Q_of_nat 12
            - Qsum (take 26 closes) / Q_of_nat 26).
  split; [reflexivity|]. clearbody v.
  split; [lra|]. split; [lra|].
  split; split; intro Hs; lra.
Qed.

(** X3.  [calculateMACD] is absent below 26 closes.  From 26 closes on it
    is computed from the first 26 closes only: the value is the mean of the
    first 12 minus the mean of the first 26, the signal a fifth of the
    value, and the histogram the remaining four fifths, so that the
    histogram has the sign of the value.  Closes after the 26th never
    change it. *)
Theorem calculateMACD_first_26 (closes : list Q) :
  ((length closes < 26)%nat -> calculateMACD closes = mkMacd None None None)
  /\ ((26 <= length closes)%nat ->
      calculateMACD closes = calculateMACD (take 26 closes)
      /\ exists v s h,
           calculateMACD closes = mkMacd (Some v) (Some s) (Some h)
           /\ v == Qsum (take 12 closes) / 12 - Qsum (take 26 closes) / 26
           /\ s == v * (1 # 5)
           /\ h == v * (4 # 5)
           /\ (0 < h <-> 0 < v) /\ (h < 0 <-> v < 0)).
Proof.
  split; [apply calculateMACD_short|apply calculateMACD_long].
Qed.

Lemma calculateMACD_first_26_witness :
  calculateMACD (map close plateauWindow)
  = calculateMACD (take 26 (map close plateauWindow)).
Proof.
  apply (proj2 (calculateMACD_first_26 (map close plateauWindow))).
  vm_compute. lia.
Defined.

(** ** Relative strength index *)

Lemma Qdiv_nonneg (a b : Q) : 0 <= a -> 0 < b -> 0 <= a / b.
Proof. intros Ha Hb. apply Qle_shift_div_l; [exact Hb|]. lra. Qed.

Lemma Qdiv_pos (a b : Q) : 0 < a -> 0 < b -> 0 < a / b.
Proof. intros Ha Hb. apply Qlt_shift_div_l; [exact Hb|]. lra. Qed.

Lemma fold_left_invariant {A B} (f : A -> B -> A) (P : A -> Prop)
    (l : list B) (a : A) :
  (forall acc x, In x l -> P acc -> P (f acc x)) ->
  P a -> P (fold_left f l a).
Proof.
  revert a. induction l as [|x l IH]; intros a Hstep Ha; [exact Ha|].
  cbn [fold_left]. apply IH.
  - intros acc y Hy. apply Hstep. right. exact Hy.
  - apply Hstep; [left; reflexivity|exact Ha].
Qed.

Lemma rsiSeedStep_nonneg (closes : list Q) (acc : Q * Q) (i : nat) :
  0 <= fst acc /\ 0 <= snd acc ->
  0 <= fst (rsiSeedStep closes acc i) /\ 0 <= snd (rsiSeedStep closes acc i).
Proof.
  destruct acc as [gains losses]. unfold rsiSeedStep. cbn [fst snd].
  intros [Hg Hl].
  destruct (Qle_bool 0 (nth i closes 0 - nth (i - 1) closes 0)) eqn:E;
    cbn [fst snd].
  - apply Qle_bool_iff in E. split; lra.
  - assert (~ 0 <= nth i closes 0 - nth (i - 1) closes 0)
      by (intro H; apply Qle_bool_iff in H; congruence).
    split; lra.
Qed.

Lemma rsiSmoothStep_nonneg (closes : list Q) (period : nat) (acc : Q * Q)
    (i : nat) :
  (0 < period)%nat ->
  0 <= fst acc /\ 0 <= snd acc ->
  0 <= fst (rsiSmoothStep closes period acc i)
  /\ 0 <= snd (rsiSmoothStep closes period acc i).
Proof.
  intro Hp. destruct acc as [avgGain avgLoss].
  unfold rsiSmoothStep. cbn [fst snd]. intros [Hg Hl].
  pose proof (Q_of_nat_pos period Hp) as Hpos.
  assert (Hp1 : 0 <= Q_of_nat period - 1).
  { assert (1 <= Q_of_nat period); [|lra].
    unfold Q_of_nat. change 1 with (inject_Z 1). rewrite <- Zle_Qle. lia. }
  set (diff := nth i closes 0 - nth (i - 1) closes 0).
  assert (Hgain : 0 <= (if Qle_bool 0 diff then diff else 0)).
  { destruct (Qle_bool 0 diff) eqn:E; [apply Qle_bool_iff in E; exact E|lra]. }
  assert (Hloss : 0 <= (if Qlt_bool diff 0 then - diff else 0)).
  { destruct (Qlt_bool diff 0) eqn:E; [apply Qlt_bool_iff in E; lra|lra]. }
  split; apply Qdiv_nonneg; try exact Hpos.
  - pose proof (Qmult_le_0_compat _ _ Hg Hp1). lra.
  - pose proof (Qmult_le_0_compat _ _ Hl Hp1). lra.
Qed.

Lemma calculateRSI_None_iff (closes : list Q) (period : nat) :
  calculateRSI closes period = None <-> (length closes <= period)%nat.
Proof.
  unfold calculateRSI. destruct (length closes <=? period)%nat eqn:E.
  - apply Nat.leb_le in E. split; [intros _; exact E|reflexivity].
  - apply Nat.leb_gt in E.
    destruct (fold_left (rsiSeedStep closes) _ _) as [gains losses].
    destruct (fold_left (rsiSmoothStep closes period) _ _)
      as [avgGain avgLoss].
    destruct (Qeq_bool avgLoss 0); split; try discriminate; lia.
Qed.

(** X4.  For a positive period [calculateRSI] is absent exactly when there
    are at most [period] closes, and every value it returns lies in
    [[0, 100]]. *)
Theorem calculateRSI_range (closes : list Q) (period : nat) :
  (0 < period)%nat ->
  (calculateRSI closes period = None <-> (length closes <= period)%nat)
  /\ (forall r, calculateRSI closes period = Some r -> 0 <= r <= 100).
Proof.
  intro Hp. unfold calculateRSI.
  destruct (length closes <=? period)%nat eqn:E.
  { apply Nat.leb_le in E. split; [split; [intros _; exact E|reflexivity]|].
    intros r [=]. }
  apply Nat.leb_gt in E.
  pose proof (Q_of_nat_pos period Hp) as Hpos.
  pose proof (fold_left_invariant (rsiSeedStep closes)
                (fun acc => 0 <= fst acc /\ 0 <= snd acc) (seq 1 period) (0, 0)
                (fun acc x _ => rsiSeedStep_nonneg closes acc x)
                ltac:(cbn; split; lra)) as Hseed.
  destruct (fold_left (rsiSeedStep closes) (seq 1 period) (0, 0))
    as [gains losses].
  cbn [fst snd] in Hseed. destruct Hseed as [Hg Hl].
  pose proof (fold_left_invariant (rsiSmoothStep closes period)
                (fun acc => 0 <= fst acc /\ 0 <= snd acc)
                (seq (period + 1) (length closes - (period + 1)))
                (gains / Q_of_nat period, losses / Q_of_nat period)
                (fun acc x _ => rsiSmoothStep_nonneg closes period acc x Hp)
                (conj (Qdiv_nonneg _ _ Hg Hpos) (Qdiv_nonneg _ _ Hl Hpos)))
    as Hsmooth.
  destruct (fold_left (rsiSmoothStep closes period) _ _) as [avgGain avgLoss].
  cbn [fst snd] in Hsmooth. destruct Hsmooth as [HG HL].
  destruct (Qeq_bool avgLoss 0) eqn:Ez.
  { split; [split; [discriminate|lia]|]. intros r [= <-]. split; lra. }
  split; [split; [discriminate|lia]|]. intros r [= <-].
  assert (HLpos : 0 < avgLoss).
  { apply Qeq_bool_neq in Ez. apply Qle_lt_or_eq in HL.
    destruct HL as [H|H]; [exact H|]. exfalso. apply Ez. symmetry. exact H. }
  pose proof (Qdiv_nonneg _ _ HG HLpos) as Hrs.
  set (rs := avgGain / avgLoss) in *.
  assert (Hq : 0 < 100 / (1 + rs)) by (apply Qdiv_pos; lra).
  assert (Hq' : 100 / (1 + rs) <= 100)
    by (apply Qle_shift_div_r; [lra|nra]).
  split; lra.
Qed.

Lemma calculateRSI_range_witness :
  exists r, calculateRSI [3; 1; 2; 5; 4] 2 = Some r /\ 0 <= r <= 100.
Proof.
  eexists. split; [evaluate|].
  apply (proj2 (calculateRSI_range [3; 1; 2; 5; 4] 2 ltac:(lia))).
  evaluate.
Defined.

Lemma adjacent_nth (R : Q -> Q -> Prop) (xs : list Q) (i : nat) :
  adjacent R xs -> (1 <= i < length xs)%nat ->
  R (nth (i - 1) xs 0) (nth i xs 0).
Proof.
  revert i. induction xs as [|a xs IH]; intros i Hadj [H1 Hlen].
  - cbn in Hlen. lia.
  - destruct xs as [|b xs]; [cbn in Hlen; lia|].
    destruct Hadj as [Hab Hrest].
    destruct i as [|[|i]]; [lia|exact Hab|].
    replace (S (S i) - 1)%nat with (S (S i - 1)) by lia.
    cbn [nth]. apply (IH (S i) Hrest). cbn [length] in *. lia.
Qed.

Lemma in_seq_range (start len i : nat) :
  In i (seq start len) -> (start <= i < start + len)%nat.
Proof. intro H. apply in_seq in H. exact H. Qed.

(** X5.  On closes that never fall [calculateRSI] is exactly 100 (the
    average loss is zero); on closes that fall at every step it is 0. *)
Theorem calculateRSI_monotone_series (closes : list Q) (period : nat) :
  (0 < period < length closes)%nat ->
  (adjacent Qle closes -> calculateRSI closes period = Some 100)
  /\ (adjacent (fun a b => b < a) closes ->
      exists r, calculateRSI closes period = Some r /\ r == 0).
Proof.
  intros [Hp Hlen]. unfold calculateRSI.
  assert (E : (length closes <=? period)%nat = false)
    by (apply Nat.leb_gt; exact Hlen).
  rewrite E.
  pose proof (Q_of_nat_pos period Hp) as Hpos.
  assert (Hp1 : 0 <= Q_of_nat period - 1).
  { assert (1 <= Q_of_nat period); [|lra].
    unfold Q_of_nat. change 1 with (inject_Z 1). rewrite <- Zle_Qle. lia. }
  split.
  - intro Hup.
    assert (Hdiff : forall i, (1 <= i < length closes)%nat ->
                      Qle_bool 0 (nth i closes 0 - nth (i - 1) closes 0) = true).
    { intros i Hi. apply Qle_bool_iff.
      pose proof (adjacent_nth Qle closes i Hup Hi). lra. }
    pose proof (fold_left_invariant (rsiSeedStep closes)
                  (fun acc => snd acc == 0) (seq 1 period) (0, 0)) as Hseed.
    cbn beta in Hseed.
    destruct (fold_left (rsiSeedStep closes) (seq 1 period) (0, 0))
      as [gains losses].
    assert (Hl : losses == 0).
    { apply Hseed; [|reflexivity].
      intros [g l] i Hi Hacc. apply in_seq_range in Hi.
      unfold rsiSeedStep. rewrite Hdiff by lia. exact Hacc. }
    clear Hseed.
    pose proof (fold_left_invariant (rsiSmoothStep closes period)
                  (fun acc => snd acc == 0)
                  (seq (period + 1) (length closes - (period + 1)))
                  (gains / Q_of_nat period, losses / Q_of_nat period))
      as Hsmooth.
    cbn beta in Hsmooth.
    destruct (fold_left (rsiSmoothStep closes period) _ _)
      as [avgGain avgLoss].
    assert (HL : avgLoss == 0).
    { apply Hsmooth.
      - intros [g l] i Hi Hacc. apply in_seq_range in Hi.
        unfold rsiSmoothStep. cbn [snd] in *.
        assert (Hnlt : Qlt_bool (nth i closes 0 - nth (i - 1) closes 0) 0 = false).
        { specialize (Hdiff i ltac:(lia)). apply Qle_bool_iff in Hdiff.
          destruct (Qlt_bool _ 0) eqn:El; [|reflexivity].
          apply Qlt_bool_iff in El. lra. }
        rewrite Hnlt, Hacc. unfold Qdiv. rewrite Qmult_0_l, Qplus_0_l.
        apply Qmult_0_l.
      - cbn [snd]. rewrite Hl. unfold Qdiv. apply Qmult_0_l. }
    apply Qeq_bool_iff in HL. rewrite HL. reflexivity.
  - intro Hdown.
    assert (Hdiff : forall i, (1 <= i < length closes)%nat ->
                      nth i closes 0 - nth (i - 1) closes 0 < 0).
    { intros i Hi.
      pose proof (adjacent_nth _ closes i Hdown Hi) as H. cbn beta in H. lra. }
    assert (Hnle : forall i, (1 <= i < length closes)%nat ->
                     Qle_bool 0 (nth i closes 0 - nth (i - 1) closes 0) = false).
    { intros i Hi. specialize (Hdiff i Hi).
      destruct (Qle_bool 0 _) eqn:El; [|reflexivity].
      apply Qle_bool_iff in El. lra. }
    destruct period as [|p]; [lia|].
    cbn [seq fold_left].
    pose proof (fold_left_invariant (rsiSeedStep closes)
                  (fun acc => fst acc == 0 /\ 0 < snd acc) (seq 2 p)
                  (rsiSeedStep closes (0, 0) 1)) as Hseed.
    cbn beta in Hseed.
    destruct (fold_left (rsiSeedStep closes) (seq 2 p) _) as [gains losses].
    assert (Hgl : gains == 0 /\ 0 < losses).
    { apply Hseed.
      - intros [g l] i Hi [Hg Hl]. apply in_seq_range in Hi.
        unfold rsiSeedStep. rewrite Hnle by lia. cbn [fst snd] in *.
        specialize (Hdiff i ltac:(lia)). split; [exact Hg|lra].
      - unfold rsiSeedStep. rewrite Hnle by lia. cbn [fst snd].
        specialize (Hdiff 1%nat ltac:(lia)). split; [reflexivity|lra]. }
    clear Hseed. destruct Hgl as [Hg Hl].
    pose proof (fold_left_invariant (rsiSmoothStep closes (S p))
                  (fun acc => fst acc == 0 /\ 0 < snd acc)
                  (seq (S p + 1) (length closes - (S p + 1)))
                  (gains / Q_of_nat (S p), losses / Q_of_nat (S p)))
      as Hsmooth.
    cbn beta in Hsmooth.
    destruct (fold_left (rsiSmoothStep closes (S p)) _ _)
      as [avgGain avgLoss].
    assert (HGL : avgGain == 0 /\ 0 < avgLoss).
    { apply Hsmooth.
      - intros [g l] i Hi [Hg' Hl']. apply in_seq_range in Hi.
        unfold rsiSmoothStep. cbn [fst snd] in *.
        rewrite Hnle by lia.
        specialize (Hdiff i ltac:(lia)).
        assert (Hlt : Qlt_bool (nth i closes 0 - nth (i - 1) closes 0) 0 = true)
          by (apply Qlt_bool_iff; exact Hdiff).
        rewrite Hlt. split.
        + rewrite Hg'. unfold Qdiv. rewrite Qmult_0_l, Qplus_0_l.
          apply Qmult_0_l.
        + apply Qdiv_pos; [|exact Hpos].
          pose proof (Qmult_le_0_compat l _ (Qlt_le_weak _ _ Hl') Hp1). lra.
      - cbn [fst snd]. split.
        + rewrite Hg. unfold Qdiv. apply Qmult_0_l.
        + apply Qdiv_pos; assumption. }
    destruct HGL as [HG HL].
    assert (Ez : Qeq_bool avgLoss 0 = false).
    { destruct (Qeq_bool avgLoss 0) eqn:Ez; [|reflexivity].
      apply Qeq_bool_iff in Ez. lra. }
    rewrite Ez. eexists. split; [reflexivity|].
    rewrite HG. unfold Qdiv at 2. rewrite Qmult_0_l. reflexivity.
Qed.

Lemma calculateRSI_monotone_series_witness :
  calculateRSI (map close risingWindow) 14 = Some 100.
Proof.
  apply (proj1 (calculateRSI_monotone_series (map close risingWindow) 14
                  ltac:(vm_compute; lia))).
  vm_compute. repeat split; discriminate.
Defined.

(** ** Confluence labels *)

Lemma pushIf_sublist (b : bool) (label : string) (c names : list string) :
  c `sublist_of` names -> pushIf b label c `sublist_of` names ++ [label].
Proof.
  intro H. destruct b; cbn [pushIf].
  - apply sublist_app; [exact H|reflexivity].
  - apply sublist_inserts_r, H.
Qed.

Lemma buyBlock_labels (indicators : Indicators) (lastCandle : option Candle)
    (d0 d : Direction) (c0 labels : list string) :
  buyBlock indicators lastCandle (d0, c0) = Returns (d, labels) ->
  labels
  = pushIf (buyTrend indicators) "Tendência Alta"
      (pushIf (flag (buySMA indicators lastCandle)) "Preço > SMA16"
         (pushIf (buyMACD indicators) "MACD Positivo"
            (pushIf (buyRSI indicators) "RSI > 50"
               (pushIf (buyFractal indicators) "Fractal Fundo" c0)))).
Proof.
  unfold buyBlock.
  destruct (buySMA indicators lastCandle) as [bSMA|]; [|discriminate].
  cbn [bind flag].
  destruct (buyFractal indicators), (buyRSI indicators), (buyMACD indicators),
    bSMA, (buyTrend indicators); cbn [orb];
    intros [= _ <-]; reflexivity.
Qed.

Lemma sellBlock_labels (indicators : Indicators) (lastCandle : option Candle)
    (d : Direction) (c0 labels : list string) :
  sellBlock indicators lastCandle (NEUTRAL, c0) = Returns (d, labels) ->
  labels
  = pushIf (sellTrend indicators) "Tendência Baixa"
      (pushIf (flag (sellSMA indicators lastCandle)) "Preço < SMA16"
         (pushIf (sellMACD indicators) "MACD Negativo"
            (pushIf (sellRSI indicators) "RSI < 50"
               (pushIf (sellFractal indicators) "Fractal Topo" c0))))
  /\ (d = PUT \/ d = NEUTRAL).
Proof.
  unfold sellBlock.
  destruct (sellSMA indicators lastCandle) as [sSMA|]; [|discriminate].
  cbn [bind flag].
  destruct (sellFractal indicators), (sellRSI indicators),
    (sellMACD indicators), sSMA, (sellTrend indicators); cbn [orb];
    intros [= <- <-]; (split; [reflexivity|]);
    try (right; reflexivity);
    match goal with
    | |- context [if ?b then _ else _] => destruct b
    end; auto.
Qed.

Lemma Qgt_lt_exclusive (a b : Q) : Qgt_bool a b && Qlt_bool a b = false.
Proof.
  destruct (Qgt_bool a b) eqn:E1; [|reflexivity].
  destruct (Qlt_bool a b) eqn:E2; [|reflexivity].
  apply Qgt_bool_iff in E1. apply Qlt_bool_iff in E2.
  exfalso. exact (Qlt_irrefl _ (Qlt_trans _ _ _ E1 E2)).
Qed.

(** A BUY condition and its SELL counterpart never hold together. *)
Lemma conditions_exclusive (indicators : Indicators)
    (lastCandle : option Candle) :
  Forall2 (fun b s => b && s = false)
    (buyConditions indicators lastCandle)
    (sellConditions indicators lastCandle).
Proof.
  unfold buyConditions, sellConditions.
  repeat constructor.
  - unfold buyFractal, sellFractal.
    destruct (fractal indicators) as [[|]|]; reflexivity.
  - unfold buyRSI, sellRSI.
    destruct (rsi indicators); [apply Qgt_lt_exclusive|reflexivity].
  - unfold buyMACD, sellMACD.
    destruct (histogram (macd indicators));
      [apply Qgt_lt_exclusive|reflexivity].
  - unfold buySMA, sellSMA.
    destruct (sma16 indicators); [|reflexivity].
    destruct (closeOf lastCandle); [|reflexivity].
    cbn [bind flag]. apply Qgt_lt_exclusive.
  - unfold buyTrend, sellTrend.
    destruct (trend indicators); reflexivity.
Qed.

Lemma holding_exclusive (bs ss : list bool) :
  Forall2 (fun b s => b && s = false) bs ss ->
  (holding bs + holding ss <= length bs)%nat.
Proof.
  induction 1 as [|b s bs ss Hbs _ IH]; [cbn; lia|].
  unfold holding in *. cbn [List.filter length].
  destruct b, s; cbn [length] in *; try discriminate; lia.
Qed.

(** X6.  The labels of a returned signal are pairwise distinct, at most
    five, and appear in the fixed order of the rule blocks; a CALL carries
    BUY labels only. *)
Theorem analyzeAsset_labels (env : Env) (amb : Ambient) (assetName : string)
    (config : ScannerConfig) (s : Signal) :
  analyzeAsset env amb assetName config = Returns (Some s) ->
  NoDup (confluences s)
  /\ (length (confluences s) <= 5)%nat
  /\ confluences s `sublist_of` buyLabelNames ++ sellLabelNames
  /\ (direction s = CALL -> confluences s `sublist_of` buyLabelNames).
Proof.
  intro H. apply analyzeAsset_signal in H.
  destruct H as (data & [d1 c1] & _ & H1 & H2 & Hd & _).
  set (indicators := getIndicators (candles data)) in *.
  set (lastCandle := last (candles data)) in *.
  pose proof (buyBlock_labels _ _ _ _ _ _ H1) as Hc1.
  assert (Hsub1 : c1 `sublist_of` buyLabelNames).
  { rewrite Hc1.
    change buyLabelNames
      with ((((([] ++ ["Fractal Fundo"]) ++ ["RSI > 50"])
                ++ ["MACD Positivo"]) ++ ["Preço > SMA16"])
              ++ ["Tendência Alta"]).
    repeat apply pushIf_sublist. reflexivity. }
  assert (Hsub : confluences s `sublist_of` buyLabelNames ++ sellLabelNames
                 /\ (direction s = CALL ->
                     confluences s `sublist_of` buyLabelNames)).
  { destruct d1.
    - cbn in H2. injection H2 as <- <-.
      split; [apply sublist_inserts_r, Hsub1|intros _; exact Hsub1].
    - cbn in H2. injection H2 as <- <-.
      split; [apply sublist_inserts_r, Hsub1|intros _; exact Hsub1].
    - apply sellBlock_labels in H2. destruct H2 as [Hc2 Hput].
      split.
      + rewrite Hc2. unfold sellLabelNames.
        change (buyLabelNames ++ ["Fractal Topo"; "RSI < 50"; "MACD Negativo";
                                  "Preço < SMA16"; "Tendência Baixa"])
          with (((((buyLabelNames ++ ["Fractal Topo"]) ++ ["RSI < 50"])
                    ++ ["MACD Negativo"]) ++ ["Preço < SMA16"])
                  ++ ["Tendência Baixa"]).
        repeat apply pushIf_sublist. exact Hsub1.
      + intro Hcall. destruct Hput as [Hp|Hp]; congruence. }
  destruct Hsub as [Hall Hcall].
  split; [|split; [|split; assumption]].
  - eapply sublist_NoDup; [|exact Hall]. compute_done.
  - pose proof (blocks_by_counts _ _ _ _ _ H1 H2) as (Hc & Hp & Hn).
    fold indicators lastCandle in Hc, Hp, Hn.
    pose proof (holding_exclusive _ _
                  (conditions_exclusive indicators lastCandle)) as Hex.
    cbn [buyConditions length] in Hex.
    set (nb := holding (buyConditions indicators lastCandle)) in *.
    set (ns := holding (sellConditions indicators lastCandle)) in *.
    destruct (le_lt_dec 2 nb) as [Hnb|Hnb].
    + destruct (Hc Hnb) as [_ ->]. lia.
    + destruct (le_lt_dec 2 (nb + ns)) as [Hsum|Hsum].
      * destruct (Hp Hnb ltac:(lia) Hsum) as [_ ->]. lia.
      * exfalso. apply Hd. apply Hn; assumption.
Qed.

Lemma analyzeAsset_labels_witness :
  exists s,
    analyzeAsset (sampleEnv []) (sampleAmbient 0) "GBPUSD"
      (mkConfig M5 GERAL) = Returns (Some s)
    /\ NoDup (confluences s)
    /\ confluences s `sublist_of` buyLabelNames.
Proof.
  eexists. split; [evaluate|].
  pose proof (analyzeAsset_labels (sampleEnv []) (sampleAmbient 0) "GBPUSD"
                (mkConfig M5 GERAL) _ ltac:(evaluate))
    as (Hnd & _ & _ & Hcall).
  split; [exact Hnd|]. apply Hcall. reflexivity.
Defined.

(** ** Indicators of a window *)

(** X7.  What [getIndicators] can compute from a window depends on its
    length alone: the rsi is present from 15 candles on, sma16 from 16 and
    the macd from 26; a fractal needs 5 candles and a trend other than
    neutral needs 16. *)
Theorem getIndicators_thresholds (candles : list Candle) :
  let indicators := getIndicators candles in
  (is_Some (rsi indicators) <-> (15 <= length candles)%nat)
  /\ (is_Some (sma16 indicators) <-> (16 <= length candles)%nat)
  /\ (is_Some (histogram (macd indicators)) <-> (26 <= length candles)%nat)
  /\ (is_Some (fractal indicators) -> (5 <= length candles)%nat)
  /\ (trend indicators <> neutral -> (16 <= length candles)%nat).
Proof.
  cbv zeta. unfold getIndicators. cbn [rsi sma16 macd fractal trend].
  assert (Hlen : length (map close candles) = length candles)
    by apply length_map.
  split; [|split; [|split; [|split]]].
  - pose proof (calculateRSI_None_iff (map close candles) 14) as Hn.
    rewrite Hlen in Hn. rewrite <- not_eq_None_Some. rewrite Hn. lia.
  - pose proof (calculateSMA_None_iff (map close candles) 16) as Hn.
    rewrite Hlen in Hn. rewrite <- not_eq_None_Some. rewrite Hn. lia.
  - pose proof (calculateMACD_short (map close candles)) as Hlt.
    pose proof (calculateMACD_long (map close candles)) as Hge.
    rewrite Hlen in Hlt, Hge.
    destruct (le_lt_dec 26 (length candles)) as [H|H].
    + destruct (Hge H) as (_ & v & s & h & -> & _).
      split; [intros _; exact H|intros _; eexists; reflexivity].
    + rewrite (Hlt H). cbn [histogram].
      split; [intros [x Hx]; discriminate|lia].
  - unfold detectFractal.
    destruct (length candles <? 5)%nat eqn:E.
    + intros [x Hx]. discriminate.
    + apply Nat.ltb_ge in E. intros _. exact E.
  - destruct (calculateSMA (map close candles) 16) as [s|] eqn:Es.
    + intros _.
      pose proof (calculateSMA_None_iff (map close candles) 16) as Hn.
      rewrite Hlen in Hn.
      destruct (le_lt_dec 16 (length candles)) as [H|H]; [exact H|].
      apply Hn in H. congruence.
    + intro H. exfalso. apply H. reflexivity.
Qed.

Lemma last_map_close (candles : list Candle) (c : Candle) :
  last candles = Some c -> last (map close candles) = Some (close c).
Proof.
  intro H. change (map close candles) with (close <$> candles).
  rewrite fmap_last, H. reflexivity.
Qed.

Lemma pushIf_In_new (label : string) (c : list string) :
  In label (pushIf true label c).
Proof. cbn. apply in_or_app. right. left. reflexivity. Qed.

Lemma pushIf_In_old (b : bool) (label x : string) (c : list string) :
  In x c -> In x (pushIf b label c).
Proof.
  intro H. destruct b; cbn; [apply in_or_app; left|]; exact H.
Qed.

(** X8.  On a window of at least 16 candles whose sma16 is not 0, the
    price test and the trend test are one and the same comparison, so
    either both labels are earned or neither.  A last close above sma16
    therefore yields a CALL carrying both "Preço > SMA16" and "Tendência
    Alta"; a last close below sma16 always yields a signal; and the
    analysis comes back empty only when the last close equals sma16. *)
Theorem analyzeAsset_price_against_sma16 (env : Env) (amb : Ambient)
    (assetName : string) (config : ScannerConfig) (data : MarketEntry)
    (s16 : Q) (c : Candle) :
  marketData env !! assetName = Some data ->
  calculateSMA (map close (candles data)) 16 = Some s16 ->
  ~ s16 == 0 ->
  last (candles data) = Some c ->
  (s16 < close c ->
   exists s, analyzeAsset env amb assetName config = Returns (Some s)
             /\ direction s = CALL
             /\ In "Preço > SMA16" (confluences s)
             /\ In "Tendência Alta" (confluences s))
  /\ (close c < s16 ->
      exists s, analyzeAsset env amb assetName config = Returns (Some s))
  /\ (analyzeAsset env amb assetName config = Returns None ->
      close c == s16).
Proof.
  intros Hd Hsma Hnz Hlast.
  assert (Hlen : (16 <= length (candles data))%nat).
  { pose proof (calculateSMA_None_iff (map close (candles data)) 16) as Hn.
    rewrite length_map in Hn.
    destruct (le_lt_dec 16 (length (candles data))) as [H|H]; [exact H|].
    apply Hn in H. congruence. }
  pose proof (detectTrend_nonzero (map close (candles data)) s16 (close c)
                ltac:(rewrite length_map; lia)
                (last_map_close _ _ Hlast) Hnz) as (Hup & Hdown & _).
  set (indicators := getIndicators (candles data)).
  assert (Hs : sma16 indicators = Some s16) by exact Hsma.
  assert (Ht : trend indicators
               = detectTrend (map close (candles data)) (Some s16)).
  { unfold indicators, getIndicators. cbn [trend]. rewrite Hsma. reflexivity. }
  assert (HbSMA : buySMA indicators (Some c)
                  = Returns (Qgt_bool (close c) s16)).
  { unfold buySMA. rewrite Hs. reflexivity. }
  assert (HsSMA : sellSMA indicators (Some c)
                  = Returns (Qlt_bool (close c) s16)).
  { unfold sellSMA. rewrite Hs. reflexivity. }
  destruct (analyzeAsset_direction_by_counts env amb assetName config data Hd)
    as (Hcall & Hput & Hnone).
  fold indicators in Hcall, Hput, Hnone. rewrite Hlast in Hcall, Hput, Hnone.
  assert (Habove : s16 < close c ->
                   (2 <= holding (buyConditions indicators (Some c)))%nat).
  { intro H. unfold buyConditions, holding. rewrite HbSMA. cbn [flag].
    unfold buyTrend. rewrite Ht, (proj2 Hup H).
    rewrite (proj2 (Qgt_bool_iff _ _) H). cbn [isTrend].
    destruct (buyFractal indicators), (buyRSI indicators),
      (buyMACD indicators); cbn; lia. }
  assert (Hbelow : close c < s16 ->
                   (2 <= holding (sellConditions indicators (Some c)))%nat).
  { intro H. unfold sellConditions, holding. rewrite HsSMA. cbn [flag].
    unfold sellTrend. rewrite Ht, (proj2 Hdown H).
    rewrite (proj2 (Qlt_bool_iff _ _) H). cbn [isTrend].
    destruct (sellFractal indicators), (sellRSI indicators),
      (sellMACD indicators); cbn; lia. }
  split; [|split].
  - intro H. destruct (Hcall (Habove H)) as (s & Hs' & Hdir).
    exists s. split; [exact Hs'|]. split; [exact Hdir|].
    apply analyzeAsset_signal in Hs'.
    destruct Hs' as (data' & [d1 c1] & Hd' & H1 & H2 & _).
    rewrite Hd in Hd'. injection Hd' as <-.
    fold indicators in H1, H2. rewrite Hlast in H1, H2.
    pose proof (buyBlock_labels _ _ _ _ _ _ H1) as Hc1.
    rewrite HbSMA in Hc1. cbn [flag] in Hc1.
    unfold buyTrend in Hc1. rewrite Ht, (proj2 Hup H) in Hc1.
    rewrite (proj2 (Qgt_bool_iff _ _) H) in Hc1. cbn [isTrend] in Hc1.
    assert (Hc : confluences s = c1).
    { pose proof (buyBlock_length _ _ _ _ H1) as [Hl Hd1].
      specialize (Habove H). rewrite <- Hl in Habove.
      apply Nat.leb_le in Habove. rewrite Habove in Hd1. subst d1.
      cbn in H2. injection H2 as _ <-. reflexivity. }
    rewrite Hc, Hc1. split.
    + apply pushIf_In_old, pushIf_In_new.
    + apply pushIf_In_new.
  - intro H. specialize (Hbelow H).
    destruct (le_lt_dec 2 (holding (buyConditions indicators (Some c))))
      as [Hnb|Hnb].
    + destruct (Hcall Hnb) as (s & Hs' & _). exists s. exact Hs'.
    + destruct (Hput Hnb ltac:(lia)) as (s & Hs' & _). exists s. exact Hs'.
  - intro Hnull.
    destruct (Qlt_le_dec s16 (close c)) as [H|H].
    { destruct (Hcall (Habove H)) as (s & Hs' & _). congruence. }
    destruct (Qlt_le_dec (close c) s16) as [H'|H'].
    { specialize (Hbelow H').
      destruct (le_lt_dec 2 (holding (buyConditions indicators (Some c))))
        as [Hnb|Hnb].
      - destruct (Hcall Hnb) as (s & Hs' & _). congruence.
      - destruct (Hput Hnb ltac:(lia)) as (s & Hs' & _). congruence. }
    apply Qle_antisym; assumption.
Qed.

Lemma analyzeAsset_price_against_sma16_witness :
  exists s,
    analyzeAsset (sampleEnv []) (sampleAmbient 0) "EURUSD"
      (mkConfig M1 GERAL) = Returns (Some s)
    /\ direction s = CALL
    /\ In "Preço > SMA16" (confluences s)
    /\ In "Tendência Alta" (confluences s).
Proof.
  apply (proj1 (analyzeAsset_price_against_sma16 (sampleEnv [])
                  (sampleAmbient 0) "EURUSD" (mkConfig M1 GERAL)
                  (mkEntry risingWindow REAL) (136 / 16) (bar 16)
                  ltac:(evaluate) ltac:(evaluate)
                  ltac:(vm_compute; discriminate) ltac:(evaluate))).
  reflexivity.
Defined.

(** ** Feedback and score *)

Lemma filter_filter_same {A} (P : A -> bool) (l : list A) :
  List.filter P (List.filter P l) = List.filter P l.
Proof.
  induction l as [|x l IH]; [reflexivity|].
  cbn [List.filter]. destruct (P x) eqn:E; [|exact IH].
  cbn [List.filter]. rewrite E, IH. reflexivity.
Qed.

Lemma filter_filter_implied {A} (P Q : A -> bool) (l : list A) :
  (forall x, P x = true -> Q x = true) ->
  List.filter P (List.filter Q l) = List.filter P l.
Proof.
  intro H. induction l as [|x l IH]; [reflexivity|].
  cbn [List.filter]. destruct (Q x) eqn:EQ.
  - cbn [List.filter]. rewrite IH. reflexivity.
  - destruct (P x) eqn:EP; [|exact IH].
    apply H in EP. congruence.
Qed.

Section Isolation.

Variable assetName : string.

Lemma winrateAdjustmentOf_aboutAsset (history : list Feedback) :
  winrateAdjustmentOf (aboutAsset assetName history) assetName
  = winrateAdjustmentOf history assetName.
Proof.
  unfold winrateAdjustmentOf, aboutAsset. rewrite filter_filter_same.
  reflexivity.
Qed.

Lemma lossPenaltyOf_aboutAsset (history : list Feedback) (d : Direction)
    (labels : list string) :
  lossPenaltyOf (aboutAsset assetName history) assetName d labels
  = lossPenaltyOf history assetName d labels.
Proof.
  unfold lossPenaltyOf, aboutAsset.
  rewrite filter_filter_implied; [reflexivity|].
  intros f Hf. apply similarLoss_asset_result in Hf. apply Hf.
Qed.

End Isolation.

(** X9.  The analysis of an asset reads only the feedback recorded for
    that asset: dropping every record about other assets from the history
    changes nothing in the result. *)
Theorem analyzeAsset_reads_own_feedback (md : gmap string MarketEntry)
    (tz : Z) (history : list Feedback) (amb : Ambient) (assetName : string)
    (config : ScannerConfig) :
  analyzeAsset (mkEnv md history tz) amb assetName config
  = analyzeAsset (mkEnv md (aboutAsset assetName history) tz) amb assetName
      config.
Proof.
  unfold analyzeAsset. cbn [marketData feedbackHistory tzMinutes].
  destruct (md !! assetName) as [data|]; [|reflexivity].
  destruct (buyBlock _ _ _) as [st1|]; [|reflexivity]. cbn [bind].
  destruct (sellBlock _ _ _) as [[d labels]|]; [|reflexivity]. cbn [bind].
  rewrite winrateAdjustmentOf_aboutAsset, lossPenaltyOf_aboutAsset.
  reflexivity.
Qed.

Lemma countIf_disjoint {A} (P Q : A -> bool) (l : list A) :
  (forall x, P x && Q x = false) ->
  (countIf P l + countIf Q l <= length l)%nat.
Proof.
  intro H. induction l as [|x l IH]; [cbn; lia|].
  rewrite !countIf_cons. cbn [length]. specialize (H x).
  destruct (P x), (Q x); try discriminate; lia.
Qed.

Lemma length_sliceLast_le {A} (n : nat) (l : list A) :
  (0 < n)%nat -> (length (sliceLast n l) <= n)%nat.
Proof.
  intro Hn. unfold sliceLast. destruct n; [lia|].
  rewrite length_drop. lia.
Qed.

Lemma result_win_loss_exclusive (f : Feedback) :
  propIs (fb_result f) "loss" && propIs (fb_result f) "win" = false.
Proof.
  destruct (fb_result f) as [r|]; [|reflexivity]. cbn [propIs].
  destruct (String.eqb r "loss") eqn:E; [|reflexivity].
  apply String.eqb_eq in E. subst r. reflexivity.
Qed.

Lemma overlapRatio_self (labels : list string) :
  (0 < length labels)%nat ->
  Qle_bool (7 # 10) (overlapRatio labels labels) = true.
Proof.
  intro Hn. unfold overlapRatio.
  assert (Hself : List.filter (includes labels) labels = labels).
  { apply forallb_filter_id. apply forallb_forall. intros x Hx.
    apply includes_true_iff, list_elem_of_In, Hx. }
  rewrite Hself, Nat.max_id.
  apply Qle_bool_iff. pose proof (Q_of_nat_pos _ Hn) as Hpos.
  apply Qle_shift_div_l; [exact Hpos|]. lra.
Qed.

(** X10.  The adjustment drawn from the 20 most recent records of an asset
    lies between -40 and +20; the loss penalty is never positive. *)
Theorem feedback_terms_bounds (history : list Feedback) (assetName : string)
    (d : Direction) (labels : list string) :
  (- 40 <= winrateAdjustmentOf history assetName <= 20)%Z
  /\ (lossPenaltyOf history assetName d labels <= 0)%Z.
Proof.
  split.
  - unfold winrateAdjustmentOf.
    set (recent := sliceLast 20 _).
    pose proof (countIf_disjoint (fun f => propIs (fb_result f) "loss")
                  (fun f => propIs (fb_result f) "win") recent
                  result_win_loss_exclusive) as Hsum.
    pose proof (length_sliceLast_le 20
                  (List.filter (fun f => propIs (fb_asset f) assetName) history)
                  ltac:(lia)) as Hlen.
    fold recent in Hlen. unfold countIf in Hsum. cbv zeta.
    repeat match goal with
    | |- context [(?a <? ?b)%Z] => destruct (Z.ltb_spec a b)
    end; lia.
  - rewrite lossPenaltyOf_count. lia.
Qed.

Section WinScoring.

Variable assetName : string.

Lemma winFor_parts (f : Feedback) :
  winFor assetName f = true ->
  propIs (fb_asset f) assetName = true
  /\ propIs (fb_result f) "win" = true
  /\ propIs (fb_result f) "loss" = false.
Proof.
  unfold winFor. rewrite andb_true_iff. intros [Ha Hw].
  repeat split; try assumption.
  pose proof (result_win_loss_exclusive f) as Hex.
  rewrite Hw, andb_true_r in Hex. exact Hex.
Qed.

Lemma winrateAdjustmentOf_insert_win (h1 h2 : list Feedback) (f : Feedback) :
  winFor assetName f = true ->
  (winrateAdjustmentOf (h1 ++ h2) assetName
   <= winrateAdjustmentOf (h1 ++ f :: h2) assetName)%Z.
Proof.
  intro Hf. apply winFor_parts in Hf. destruct Hf as (Ha & Hw & Hl).
  unfold winrateAdjustmentOf.
  rewrite !List.filter_app. cbn [List.filter]. rewrite Ha.
  set (F1 := List.filter _ h1). set (F2 := List.filter _ h2).
  pose proof (proj2 (recent_insert (fun f => propIs (fb_result f) "loss")
                       F1 F2 f) Hl) as Hlosses.
  pose proof (proj1 (recent_insert (fun f => propIs (fb_result f) "win")
                       F1 F2 f) Hw) as Hwins.
  unfold countIf in Hlosses, Hwins. cbv zeta.
  repeat match goal with
  | |- context [(?a <? ?b)%Z] => destruct (Z.ltb_spec a b)
  end; lia.
Qed.

Lemma lossPenaltyOf_insert_win (h1 h2 : list Feedback) (f : Feedback)
    (d : Direction) (labels : list string) :
  winFor assetName f = true ->
  lossPenaltyOf (h1 ++ f :: h2) assetName d labels
  = lossPenaltyOf (h1 ++ h2) assetName d labels.
Proof.
  intro Hf. apply winFor_parts in Hf. destruct Hf as (_ & _ & Hl).
  rewrite !lossPenaltyOf_count, !countIf_app, countIf_cons.
  assert (Hn : similarLoss assetName d labels f = false).
  { unfold similarLoss. rewrite Hl, andb_false_r. reflexivity. }
  rewrite Hn. reflexivity.
Qed.

Lemma winrateUnder_added_wins (d : Direction) (labels : list string)
    (random : Q) (h h' : list Feedback) :
  addedLosses (winFor assetName) h h' ->
  lossPenaltyOf h' assetName d labels = lossPenaltyOf h assetName d labels
  /\ winrateUnder assetName d labels random h
     <= winrateUnder assetName d labels random h'.
Proof.
  induction 1 as [h1 h2 f Hf | h h' h'' _ IH1 _ IH2].
  - split; [apply lossPenaltyOf_insert_win, Hf|].
    unfold winrateUnder. apply clamp_monotone. unfold rawWinrate.
    rewrite (lossPenaltyOf_insert_win h1 h2 f d labels Hf).
    pose proof (winrateAdjustmentOf_insert_win h1 h2 f Hf) as Hadj.
    rewrite Zle_Qle in Hadj. lra.
  - destruct IH1 as [Hp1 Hw1]. destruct IH2 as [Hp2 Hw2].
    split; [congruence|exact (Qle_trans _ _ _ Hw1 Hw2)].
Qed.

End WinScoring.

(** X11.  Recording wins for an asset never lowers its winrate: with one
    or more win records for the asset inserted anywhere in the history,
    and everything else fixed, the analysis keeps direction and labels,
    keeps the loss penalty, and returns a winrate at least as high. *)
Theorem win_feedback_never_lowers (md : gmap string MarketEntry) (tz : Z)
    (amb : Ambient) (assetName : string) (config : ScannerConfig)
    (h h' : list Feedback) (s s' : Signal) :
  analyzeAsset (mkEnv md h tz) amb assetName config = Returns (Some s) ->
  analyzeAsset (mkEnv md h' tz) amb assetName config = Returns (Some s') ->
  addedLosses (winFor assetName) h h' ->
  direction s' = direction s
  /\ confluences s' = confluences s
  /\ lossPenaltyOf h' assetName (direction s) (confluences s)
     = lossPenaltyOf h assetName (direction s) (confluences s)
  /\ winrate s <= winrate s'.
Proof.
  intros Hs Hs' Hadded.
  apply analyzeAsset_signal in Hs, Hs'.
  cbn [marketData feedbackHistory] in Hs, Hs'.
  destruct Hs as (data & st1 & Hd & Hb & Hsell & _ & _ & _ & _ & Hw & _).
  destruct Hs' as (data' & st1' & Hd' & Hb' & Hsell' & _ & _ & _ & _ & Hw' & _).
  rewrite Hd in Hd'. injection Hd' as <-.
  rewrite Hb in Hb'. injection Hb' as <-.
  rewrite Hsell in Hsell'. injection Hsell' as Hdir Hconf.
  rewrite <- Hdir, <- Hconf in Hw'.
  destruct (winrateUnder_added_wins assetName (direction s) (confluences s)
              (mathRandom amb) h h' Hadded) as [Hpen Hle].
  unfold winrateUnder in Hle. rewrite <- Hw, <- Hw' in Hle.
  repeat split; [symmetry; exact Hdir|symmetry; exact Hconf|exact Hpen
                |exact Hle].
Qed.

Lemma win_feedback_never_lowers_witness :
  exists s s',
    analyzeAsset (sampleEnv []) (sampleAmbient (1 # 5)) "EURUSD"
      (mkConfig M1 GERAL) = Returns (Some s)
    /\ analyzeAsset (sampleEnv [winRecord]) (sampleAmbient (1 # 5)) "EURUSD"
         (mkConfig M1 GERAL) = Returns (Some s')
    /\ winrate s <= winrate s'.
Proof.
  do 2 eexists. split; [evaluate|]. split; [evaluate|].
  apply (win_feedback_never_lowers
           (marketData (sampleEnv [])) 0 (sampleAmbient (1 # 5)) "EURUSD"
           (mkConfig M1 GERAL) [] [winRecord] _ _
           ltac:(evaluate) ltac:(evaluate)).
  apply (added_one _ [] [] winRecord). reflexivity.
Defined.



(** ** What a scan returns *)

Lemma candidateOf_facts (env : Env) (clk : ScanAmbient) (cfg : ScannerConfig)
    (mutedList : list string) (lastSignalInfo : option SignalInfo)
    (a : string * MarketType) (b : Signal) :
  candidateOf env clk cfg mutedList lastSignalInfo a = Some b ->
  includes mutedList (fst a) = false
  /\ marketFiltered cfg (snd a) = false
  /\ analyzeAsset env (analysisAmbient clk (fst a)) (fst a) cfg
     = Returns (Some b)
  /\ 90 <= winrate b
  /\ sameSlot lastSignalInfo b = false.
Proof.
  unfold candidateOf, analysisOf.
  destruct (includes mutedList (fst a)); [discriminate|].
  destruct (marketFiltered cfg (snd a)); [discriminate|].
  destruct (analyzeAsset env _ (fst a) cfg) as [[s|]|]; try discriminate.
  destruct (Qlt_bool (winrate s) 90) eqn:E; [discriminate|].
  destruct (sameSlot lastSignalInfo s) eqn:E'; [discriminate|].
  intros [= <-]. repeat split; try reflexivity; try assumption.
  apply Qnot_lt_le. intro H. apply Qlt_bool_iff in H. congruence.
Qed.

Lemma no_candidate_discarded (env : Env) (clk : ScanAmbient)
    (cfg : ScannerConfig) (mutedList : list string)
    (lastSignalInfo : option SignalInfo) (a : string * MarketType) :
  candidateOf env clk cfg mutedList lastSignalInfo a = None ->
  status (entryOf env clk cfg mutedList lastSignalInfo a) = discarded.
Proof.
  unfold candidateOf, entryOf, dispositionOf. cbn [status].
  destruct (includes mutedList (fst a)); [reflexivity|].
  destruct (marketFiltered cfg (snd a)); [reflexivity|].
  destruct (analysisOf env clk cfg (fst a)) as [s|]; [|reflexivity].
  destruct (Qlt_bool (winrate s) 90); [reflexivity|].
  destruct (sameSlot lastSignalInfo s); [reflexivity|discriminate].
Qed.

(** X13.  The log of a scan has one entry per instrument, plus the
    closing "selected" entry when a signal is selected.  A selected signal
    belongs to a listed instrument that is not muted and whose market type
    passes the filter of the configuration; its direction is CALL or PUT
    and its winrate lies in [[90, 100]].  When nothing is selected every
    entry of the log is a discard. *)
Theorem scan_selected_signal (assets : list (string * MarketType))
    (env : Env) (clk : ScanAmbient) (cfg : ScannerConfig)
    (mutedList : list string) (lastSignalInfo : option SignalInfo)
    (res : ScanResult) (last' : option SignalInfo) :
  scan assets env clk cfg mutedList lastSignalInfo = Returns (res, last') ->
  length (logs res)
  = (length assets + match bestSignal res with Some _ => 1 | None => 0 end)%nat
  /\ (forall b, bestSignal res = Some b ->
        (exists ty, In (asset b, ty) assets /\ marketFiltered cfg ty = false)
        /\ includes mutedList (asset b) = false
        /\ (direction b = CALL \/ direction b = PUT)
        /\ 90 <= winrate b <= 100
        /\ last (logs res)
           = Some (mkLog (formatHHmmss (tzMinutes env) (selectedClock clk))
                     (asset b) selected None))
  /\ (bestSignal res = None ->
      Forall (fun e => status e = discarded) (logs res)).
Proof.
  intro H. apply scan_result in H. destruct H as (Hbest & Hlogs & _).
  split; [|split].
  - rewrite Hlogs, length_app, length_map.
    destruct (bestSignal res); reflexivity.
  - intros b Hb. rewrite Hb in Hbest, Hlogs. symmetry in Hbest.
    apply selected_is_candidate in Hbest. unfold candidates in Hbest.
    apply list_elem_of_In, list_elem_of_omap in Hbest.
    destruct Hbest as ([name ty] & Hin & Ha).
    apply candidateOf_facts in Ha. cbn [fst snd] in Ha.
    destruct Ha as (Hmuted & Hmarket & Han & H90 & _).
    pose proof (analyzeAsset_signal _ _ _ _ _ Han)
      as (_ & _ & _ & _ & _ & Hd & Hname & _ & _ & Hw & _).
    rewrite Hname.
    split; [exists ty; split; [apply list_elem_of_In, Hin|exact Hmarket]|].
    split; [exact Hmuted|]. split; [destruct (direction b); auto; congruence|].
    split; [split; [exact H90|rewrite Hw; apply clamp_bounds]|].
    rewrite Hlogs, last_snoc. rewrite Hname. reflexivity.
  - intro Hnone. rewrite Hnone in Hbest, Hlogs. rewrite Hlogs, app_nil_r.
    pose proof (challenge_first_highest
                  (candidates assets env clk cfg mutedList lastSignalInfo))
      as Hsel.
    rewrite <- Hbest in Hsel. unfold candidates in Hsel.
    apply List.Forall_forall. intros e He. apply in_map_iff in He.
    destruct He as (a & <- & Ha). apply no_candidate_discarded.
    destruct (candidateOf env clk cfg mutedList lastSignalInfo a) as [s|] eqn:E;
      [|reflexivity].
    exfalso.
    assert (Hin : s ∈ omap (candidateOf env clk cfg mutedList lastSignalInfo)
                      assets).
    { apply list_elem_of_omap. exists a. split; [apply list_elem_of_In, Ha|exact E]. }
    rewrite Hsel in Hin. inversion Hin.
Qed.

Lemma scan_selected_signal_witness :
  exists res last',
    scan twoAssets (sampleEnv []) (sampleClock (1 # 5)) (mkConfig M5 GERAL)
      [] None = Returns (res, last')
    /\ length (logs res) = 3%nat.
Proof.
  eexists _, _. split; [evaluate|].
  rewrite (proj1 (scan_selected_signal twoAssets (sampleEnv [])
                    (sampleClock (1 # 5)) (mkConfig M5 GERAL) [] None _ _
                    ltac:(evaluate))).
  reflexivity.
Defined.

(** ** Lead time of the entry *)

(** X14.  The entry timestamp of a signal falls on a whole minute.  For M1
    it lies more than one and at most two minutes after the call; for M5
    it lies after the call by at most five minutes, and by as little as a
    millisecond.  Two analyses called within the same minute (M1), or
    within the same local five-minute block (M5), get the same entry
    timestamp. *)
Theorem analyzeAsset_entry_lead (env : Env) (amb : Ambient)
    (assetName : string) (config : ScannerConfig) (s : Signal) :
  analyzeAsset env amb assetName config = Returns (Some s) ->
  let t := dateNew amb in
  let tz := tzMinutes env in
  (entryTimestamp s mod 60000 = 0
   /\ (timeframe config = M1 -> 60000 < entryTimestamp s - t <= 120000)
   /\ (timeframe config = M5 -> 0 < entryTimestamp s - t <= 300000)
   /\ (forall amb2 s2,
         analyzeAsset env amb2 assetName config = Returns (Some s2) ->
         match timeframe config with
         | M1 => dateNew amb2 / 60000 = t / 60000
         | M5 => (dateNew amb2 + tz * 60000) / 300000
                 = (t + tz * 60000) / 300000
         end ->
         entryTimestamp s2 = entryTimestamp s))%Z.
Proof.
  intro H. cbv zeta.
  assert (Hform : forall a x,
            analyzeAsset env a assetName config = Returns (Some x) ->
            match timeframe config with
            | M1 => entryTimestamp x = 60000 * (dateNew a / 60000) + 120000
            | M5 => entryTimestamp x + tzMinutes env * 60000
                    = 300000 * ((dateNew a + tzMinutes env * 60000) / 300000 + 1)
            end%Z).
  { intros a x Hx. apply analyzeAsset_signal in Hx.
    destruct Hx as (_ & _ & _ & _ & _ & _ & _ & _ & _ & _ & He & _).
    destruct (timeframe config).
    - rewrite entrySchedule_M1 in He. injection He as He _. exact He.
    - destruct (entrySchedule_M5 (tzMinutes env) (dateNew a))
        as (e & He' & Hf).
      rewrite He' in He. injection He as He _. subst e. exact Hf. }
  pose proof (Hform amb s H) as Hs.
  split; [|split; [|split]].
  - destruct (timeframe config); Z.div_mod_to_equations; lia.
  - intros Htf. rewrite Htf in Hs. Z.div_mod_to_equations. lia.
  - intros Htf. rewrite Htf in Hs. Z.div_mod_to_equations. lia.
  - intros amb2 s2 H2 Hsame. pose proof (Hform amb2 s2 H2) as Hs2.
    destruct (timeframe config); rewrite Hsame in Hs2; lia.
Qed.

Lemma analyzeAsset_entry_lead_witness :
  exists s,
    analyzeAsset (sampleEnv []) (sampleAmbient 0) "GBPUSD"
      (mkConfig M5 GERAL) = Returns (Some s)
    /\ (0 < entryTimestamp s - tenOhSevenThirty <= 300000)%Z.
Proof.
  eexists. split; [evaluate|].
  pose proof (analyzeAsset_entry_lead (sampleEnv []) (sampleAmbient 0)
                "GBPUSD" (mkConfig M5 GERAL) _ ltac:(evaluate)) as H.
  cbv zeta in H. destruct H as (_ & _ & H5 & _).
  apply H5. reflexivity.
Defined.

(** ** Market initialisation and the timer *)

Ltac qcases :=
  repeat match goal with
  | |- context [Qmax ?a ?b] =>
      let m := fresh "m" in
      destruct (Q.max_spec a b) as [[? ?]|[? ?]];
      set (m := Qmax a b) in *; clearbody m
  | |- context [Qmin ?a ?b] =>
      let m := fresh "m" in
      destruct (Q.min_spec a b) as [[? ?]|[? ?]];
      set (m := Qmin a b) in *; clearbody m
  | H : context [Qmax ?a ?b] |- _ =>
      let m := fresh "m" in
      destruct (Q.max_spec a b) as [[? ?]|[? ?]];
      set (m := Qmax a b) in *; clearbody m
  | H : context [Qmin ?a ?b] |- _ =>
      let m := fresh "m" in
      destruct (Q.min_spec a b) as [[? ?]|[? ?]];
      set (m := Qmin a b) in *; clearbody m
  end.

Lemma initLoop_app (n i : nat) (draws : nat -> CandleDraws) (p : Q)
    (cs : list Candle) :
  initLoop n i draws p cs = cs ++ initLoop n i draws p [].
Proof.
  revert i p cs. induction n as [|n IH]; intros i p cs; cbn [initLoop].
  - symmetry. apply app_nil_r.
  - cbv zeta. rewrite (IH _ _ (cs ++ _)), (IH _ _ ([] ++ _)).
    rewrite <- app_assoc. reflexivity.
Qed.

Lemma initLoop_S (n i : nat) (draws : nat -> CandleDraws) (p : Q) :
  initLoop (S n) i draws p []
  = initCandle i p (draws i)
    :: initLoop n (S i) draws (close (initCandle i p (draws i))) [].
Proof. cbn [initLoop]. cbv zeta. rewrite initLoop_app. reflexivity. Qed.

Lemma length_initLoop (n i : nat) (draws : nat -> CandleDraws) (p : Q) :
  length (initLoop n i draws p []) = n.
Proof.
  revert i p. induction n as [|n IH]; intros i p; [reflexivity|].
  rewrite initLoop_S. cbn [length]. rewrite IH. reflexivity.
Qed.

Lemma initCandle_wellFormed (i : nat) (p : Q) (d : CandleDraws) :
  0 <= highDraw d -> 0 <= lowDraw d -> wellFormed (initCandle i p d).
Proof.
  intros Hh Hl. unfold wellFormed, initCandle. cbn [open close high low].
  split; qcases; lra.
Qed.

Lemma initLoop_wellFormed (n i : nat) (draws : nat -> CandleDraws) (p : Q) :
  (forall j, 0 <= highDraw (draws j) /\ 0 <= lowDraw (draws j)) ->
  Forall wellFormed (initLoop n i draws p []).
Proof.
  intro Hd. revert i p. induction n as [|n IH]; intros i p.
  - constructor.
  - rewrite initLoop_S. constructor; [|apply IH].
    apply initCandle_wellFormed; apply Hd.
Qed.

Lemma initLoop_chain (n i : nat) (draws : nat -> CandleDraws) (p : Q) :
  (forall c, initLoop n i draws p [] !! 0%nat = Some c -> open c = p)
  /\ forall k c c',
       initLoop n i draws p [] !! k = Some c ->
       initLoop n i draws p [] !! S k = Some c' ->
       open c' = close c.
Proof.
  revert i p. induction n as [|n IH]; intros i p.
  - split; [intros c Hc|intros k c c' Hc]; discriminate.
  - rewrite initLoop_S. split.
    + intros c [= <-]. reflexivity.
    + intros [|k] c c' Hc Hc'; cbn in Hc, Hc'.
      * injection Hc as <-. apply (proj1 (IH _ _)) in Hc'. exact Hc'.
      * exact (proj2 (IH _ _) k c c' Hc Hc').
Qed.

Lemma initLoop_prices (n i : nat) (draws : nat -> CandleDraws) (p : Q) :
  (forall j, unitReading (changeDraw (draws j))
             /\ unitReading (highDraw (draws j))
             /\ unitReading (lowDraw (draws j))) ->
  forall k c, initLoop n i draws p [] !! k = Some c ->
    p - Q_of_nat (S k) * (25 # 100000) <= close c
    /\ close c <= p + Q_of_nat (S k) * (25 # 100000)
    /\ p - Q_of_nat (S k) * (25 # 100000) - (2 # 10000) <= low c.
Proof.
  intro Hd. revert i p. induction n as [|n IH]; intros i p k c Hc.
  - discriminate.
  - rewrite initLoop_S in Hc. destruct k as [|k]; cbn in Hc.
    + injection Hc as <-. destruct (Hd i) as ((? & ?) & (? & ?) & (? & ?)).
      change (Q_of_nat 1) with 1.
      unfold initCandle. cbn [open close high low].
      repeat split; qcases; lra.
    + apply IH in Hc. destruct (Hd i) as ((? & ?) & _).
      rewrite (Q_of_nat_S (S k)).
      unfold initCandle in Hc. cbn [open close high low] in Hc.
      destruct Hc as (H1 & H2 & H3). repeat split; lra.
Qed.

Section InitLoop.
Variable draws : string -> AssetDraws.

Lemma init_lookup_other (assets : list (string * MarketType))
    (md : gmap string MarketEntry) (name : string) :
  ~ In name (map fst assets) ->
  fold_left (initAsset draws) assets md !! name = md !! name.
Proof.
  revert md. induction assets as [|a assets IH]; intros md Hn;
    [reflexivity|].
  cbn [fold_left]. rewrite IH by (intro; apply Hn; right; assumption).
  unfold initAsset. apply lookup_insert_ne.
  intro E. apply Hn. left. exact E.
Qed.

Lemma init_lookup (assets : list (string * MarketType))
    (md : gmap string MarketEntry) (name : string) (ty : MarketType) :
  List.NoDup (map fst assets) -> In (name, ty) assets ->
  fold_left (initAsset draws) assets md !! name
  = Some (mkEntry (initCandles (draws name)) ty).
Proof.
  revert md. induction assets as [|a assets IH]; intros md Hnd Hin;
    [destruct Hin|].
  cbn [map] in Hnd. inversion Hnd as [|? ? Hfresh Hnd']; subst.
  cbn [fold_left]. destruct Hin as [->|Hin].
  - rewrite init_lookup_other by exact Hfresh.
    unfold initAsset. cbn [fst snd]. apply lookup_insert_eq.
  - apply IH; assumption.
Qed.

Lemma init_lookup_is_Some (assets : list (string * MarketType))
    (md : gmap string MarketEntry) (name : string) :
  is_Some (fold_left (initAsset draws) assets md !! name)
  <-> In name (map fst assets) \/ is_Some (md !! name).
Proof.
  revert md. induction assets as [|a assets IH]; intros md.
  - cbn. tauto.
  - cbn [fold_left map]. rewrite IH. unfold initAsset.
    destruct (decide (fst a = name)) as [E|E].
    + rewrite E, lookup_insert_eq. split; [|intros _; right; eauto].
      intros _. left. left. reflexivity.
    + rewrite lookup_insert_ne by exact E. cbn [In]. tauto.
Qed.
End InitLoop.

Lemma ASSETS_names_distinct : List.NoDup (map fst ASSETS).
Proof. apply NoDup_ListNoDup. compute_done. Qed.

Lemma init_live (draws : string -> AssetDraws) :
  (forall name, unitDraws (draws name)) -> liveMarket ASSETS (init draws).
Proof.
  intro Hd. pose proof ASSETS_names_distinct as Hnd. unfold init.
  generalize dependent ASSETS. intros assets Hnd.
  intros name ty Hin. eexists. split; [apply init_lookup; eassumption|].
  cbn [md_marketType candles]. split; [reflexivity|].
  split; [apply length_initLoop|].
  apply initLoop_wellFormed. intro j.
  destruct (Hd name) as (_ & Hj). destruct (Hj j) as (_ & (? & _) & (? & _)).
  split; assumption.
Qed.

(** X15.  With readings of [Math.random] in [[0, 1)], the initial market
    has an entry exactly for the listed instruments; each has the market
    type of the list and a window of 100 well-formed candles, the first
    opening at one plus the starting reading and every later one at the
    close of its predecessor; every low and every close of the window is
    positive. *)
Theorem init_market (draws : string -> AssetDraws) :
  (forall name, unitDraws (draws name)) ->
  (forall name, is_Some (init draws !! name) <-> In name (map fst ASSETS))
  /\ liveMarket ASSETS (init draws)
  /\ forall name ty, In (name, ty) ASSETS ->
       exists cs, init draws !! name = Some (mkEntry cs ty)
         /\ (forall c, cs !! 0%nat = Some c ->
               open c = 1 + priceDraw (draws name))
         /\ (forall k c c', cs !! k = Some c -> cs !! S k = Some c' ->
               open c' = close c)
         /\ forall c, In c cs -> 0 < low c /\ 0 < close c.
Proof.
  intro Hd. split; [|split; [apply init_live; exact Hd|]].
  - intro name. unfold init. rewrite init_lookup_is_Some, lookup_empty.
    split; [intros [H|[? H]]; [exact H|discriminate]|auto].
  - pose proof ASSETS_names_distinct as Hnd. unfold init.
    generalize dependent ASSETS. intros assets Hnd.
    intros name ty Hin. eexists. split; [apply init_lookup; assumption|].
    split; [apply initLoop_chain|]. split; [apply initLoop_chain|].
    intros c Hc. apply list_elem_of_In, list_elem_of_lookup in Hc.
    destruct Hc as (k & Hk).
    assert (Hlt : (k < 100)%nat).
    { apply lookup_lt_Some in Hk. unfold initCandles in Hk.
      rewrite length_initLoop in Hk. exact Hk. }
    destruct (Hd name) as ((Hp & _) & Hj).
    apply initLoop_prices in Hk; [|exact Hj].
    assert (Hb : Q_of_nat (S k) <= 100).
    { unfold Q_of_nat. change 100 with (inject_Z 100).
      rewrite <- Zle_Qle. lia. }
    destruct Hk as (H1 & _ & H3). split; nra.
Qed.

Lemma steadyDraws_unit (name : string) : unitDraws (steadyDraws name).
Proof.
  unfold unitDraws, unitReading. cbn.
  split; [split; lra|]. intros _. repeat split; lra.
Qed.

Lemma init_market_witness :
  exists cs, init steadyDraws !! "EURUSD" = Some (mkEntry cs REAL)
             /\ forall c, In c cs -> 0 < low c /\ 0 < close c.
Proof.
  destruct (proj2 (proj2 (init_market steadyDraws steadyDraws_unit))
              "EURUSD" REAL ltac:(vm_compute; tauto))
    as (cs & Hcs & _ & _ & Hpos).
  exists cs. split; [exact Hcs|exact Hpos].
Defined.

Lemma tickCandle_facts (random : Q) (now : Z) (c : Candle) :
  let c' := tickCandle random now c in
  open c' = open c /\ volume c' = volume c
  /\ high c <= high c' /\ low c' <= low c
  /\ low c' <= close c' <= high c'
  /\ (wellFormed c -> wellFormed c').
Proof.
  cbv zeta. unfold tickCandle, wellFormed.
  cbn [open close high low volume].
  repeat split; try intros [H1 H2]; qcases; lra.
Qed.

Lemma last_insert_last {A} (l : list A) (x y : A) :
  last l = Some y -> last (<[(length l - 1)%nat := x]> l) = Some x.
Proof.
  intro H. rewrite last_lookup in H. apply lookup_lt_Some in H.
  rewrite last_lookup, length_insert.
  replace (Init.Nat.pred (length l)) with (length l - 1)%nat by lia.
  apply list_lookup_insert_eq. lia.
Qed.

Lemma ticked_entry (random : Q) (now : Z) (e : MarketEntry) (c : Candle) :
  last (candles e) = Some c ->
  ticked e (mkEntry (<[(length (candles e) - 1)%nat
                        := tickCandle random now c]> (candles e))
              (md_marketType e)).
Proof.
  intro Hlast. unfold ticked, sameWindow. cbn [candles md_marketType].
  pose proof Hlast as Hl. rewrite last_lookup in Hl.
  pose proof (lookup_lt_Some _ _ _ Hl) as Hlt.
  replace (Init.Nat.pred (length (candles e)))
    with (length (candles e) - 1)%nat in * by lia.
  pose proof (tickCandle_facts random now c) as Hf. cbv zeta in Hf.
  destruct Hf as (Ho & Hv & Hh & Hlo & Hc & Hw).
  split; [split; [reflexivity|]; split; [apply length_insert|]; split|].
  - intros i Hi. apply list_lookup_insert_ne. lia.
  - intro Hall. apply Forall_insert; [exact Hall|].
    apply Hw. exact (proj1 (Forall_lookup _ _) Hall _ _ Hl).
  - exists c, (tickCandle random now c). split; [exact Hlast|].
    split; [exact (last_insert_last _ _ _ Hlast)|].
    repeat split; try assumption; apply Hc.
Qed.

Section TickLoop.
Variable amb : TickAmbient.

Lemma tickAsset_returns (md md' : gmap string MarketEntry)
    (a : string * MarketType) :
  tickAsset amb md a = Returns md' ->
  exists e c,
    md !! fst a = Some e /\ last (candles e) = Some c
    /\ md' = <[fst a :=
                 mkEntry (<[(length (candles e) - 1)%nat
                             := tickCandle (tickRandom amb (fst a))
                                  (tickNow amb (fst a)) c]> (candles e))
                   (md_marketType e)]> md.
Proof.
  unfold tickAsset. destruct (md !! fst a) as [e|] eqn:He; [|discriminate].
  destruct (last (candles e)) as [c|] eqn:Hc; [|discriminate].
  intros [= <-]. exists e, c. split; [reflexivity|split; [exact Hc|reflexivity]].
Qed.

Lemma forEach_tick_other (assets : list (string * MarketType))
    (md md' : gmap string MarketEntry) (name : string) :
  ~ In name (map fst assets) ->
  forEach (tickAsset amb) assets md = Returns md' ->
  md' !! name = md !! name.
Proof.
  revert md. induction assets as [|a assets IH]; intros md Hn H.
  - injection H as <-. reflexivity.
  - cbn [forEach] in H.
    destruct (tickAsset amb md a) as [md1|] eqn:E; [|discriminate].
    cbn [bind] in H. apply IH in H; [|intro; apply Hn; right; assumption].
    rewrite H. apply tickAsset_returns in E.
    destruct E as (e & c & _ & _ & ->).
    apply lookup_insert_ne. intro E. apply Hn. left. exact E.
Qed.

Lemma forEach_tick_at (assets : list (string * MarketType))
    (md md' : gmap string MarketEntry) (name : string) (ty : MarketType) :
  List.NoDup (map fst assets) -> In (name, ty) assets ->
  forEach (tickAsset amb) assets md = Returns md' ->
  exists e c,
    md !! name = Some e /\ last (candles e) = Some c
    /\ md' !! name
       = Some (mkEntry (<[(length (candles e) - 1)%nat
                           := tickCandle (tickRandom amb name)
                                (tickNow amb name) c]> (candles e))
                 (md_marketType e)).
Proof.
  revert md. induction assets as [|a assets IH]; intros md Hnd Hin H;
    [destruct Hin|].
  cbn [map] in Hnd. inversion Hnd as [|? ? Hfresh Hnd']; subst.
  cbn [forEach] in H.
  destruct (tickAsset amb md a) as [md1|] eqn:E; [|discriminate].
  cbn [bind] in H. apply tickAsset_returns in E.
  destruct E as (e & c & He & Hc & ->). destruct Hin as [->|Hin].
  - cbn [fst] in *. exists e, c. split; [exact He|]. split; [exact Hc|].
    rewrite (forEach_tick_other _ _ _ _ Hfresh H).
    apply lookup_insert_eq.
  - destruct (IH _ Hnd' Hin H) as (e' & c' & He' & Hc' & Hmd').
    assert (Hne : fst a <> name).
    { intros <-. apply Hfresh. apply in_map_iff.
      exists (fst a, ty). split; [reflexivity|exact Hin]. }
    rewrite lookup_insert_ne in He' by exact Hne.
    exists e', c'. repeat split; assumption.
Qed.

Lemma forEach_tick_total (assets : list (string * MarketType))
    (md : gmap string MarketEntry) :
  List.NoDup (map fst assets) ->
  (forall name ty, In (name, ty) assets ->
     exists e, md !! name = Some e /\ candles e <> []) ->
  exists md', forEach (tickAsset amb) assets md = Returns md'.
Proof.
  revert md. induction assets as [|[name ty] assets IH]; intros md Hnd Hall.
  - eexists. reflexivity.
  - cbn [map fst] in Hnd. inversion Hnd as [|? ? Hfresh Hnd']; subst.
    destruct (Hall name ty (or_introl eq_refl)) as (e & He & Hne).
    cbn [forEach]. unfold tickAsset at 1. cbn [fst]. rewrite He.
    destruct (last (candles e)) as [c|] eqn:Hc;
      [|apply last_None in Hc; contradiction].
    cbn [bind]. apply IH; [exact Hnd'|].
    intros name' ty' Hin.
    assert (Hne' : name <> name').
    { intros <-. apply Hfresh. apply in_map_iff.
      exists (name, ty'). split; [reflexivity|exact Hin]. }
    rewrite lookup_insert_ne by exact Hne'.
    apply (Hall name' ty'). right. exact Hin.
Qed.
End TickLoop.

(** X16.  A run of the timer completes exactly when every listed
    instrument has an entry with a non-empty window; otherwise the
    callback throws. *)
Theorem tick_returns_iff (amb : TickAmbient)
    (md : gmap string MarketEntry) :
  (exists md', tick amb md = Returns md')
  <-> forall name ty, In (name, ty) ASSETS ->
        exists e, md !! name = Some e /\ candles e <> [].
Proof.
  pose proof ASSETS_names_distinct as Hnd. unfold tick.
  generalize dependent ASSETS. intros assets Hnd. split.
  - intros (md' & H) name ty Hin.
    destruct (forEach_tick_at amb assets md md' name ty Hnd Hin H)
      as (e & c & He & Hc & _).
    exists e. split; [exact He|]. intros E. rewrite E in Hc. discriminate.
  - apply forEach_tick_total. exact Hnd.
Qed.


Lemma sameWindow_refl (e : MarketEntry) : sameWindow e e.
Proof. unfold sameWindow. auto. Qed.

Lemma sameWindow_trans (e1 e2 e3 : MarketEntry) :
  sameWindow e1 e2 -> sameWindow e2 e3 -> sameWindow e1 e3.
Proof.
  intros (Ht & Hl & Hi & Hw) (Ht' & Hl' & Hi' & Hw').
  repeat split; [congruence|congruence| |auto].
  intros i H. rewrite Hi' by lia. apply Hi. exact H.
Qed.

Lemma sameWindow_take (e e' : MarketEntry) (n : nat) :
  sameWindow e e' -> (n < length (candles e))%nat ->
  take n (candles e') = take n (candles e).
Proof.
  intros (_ & Hl & Hi & _) Hn. apply list_eq. intro i.
  destruct (le_lt_dec n i) as [H|H].
  - rewrite !lookup_take_ge by exact H. reflexivity.
  - rewrite !lookup_take_lt by exact H. apply Hi. lia.
Qed.

Lemma sameWindow_MACD (e e' : MarketEntry) :
  sameWindow e e' -> (27 <= length (candles e))%nat ->
  calculateMACD (map close (candles e'))
  = calculateMACD (map close (candles e)).
Proof.
  intros Hs Hl. pose proof Hs as (_ & Hlen & _).
  rewrite (proj1 (calculateMACD_long (map close (candles e'))
                    ltac:(rewrite length_map; lia))).
  rewrite (proj1 (calculateMACD_long (map close (candles e))
                    ltac:(rewrite length_map; lia))).
  rewrite !firstn_map.
  rewrite (sameWindow_take e e' 26 Hs) by lia. reflexivity.
Qed.

Lemma forEach_ticks_keep (assets : list (string * MarketType))
    (ambs : list TickAmbient) (md0 md : gmap string MarketEntry) :
  List.NoDup (map fst assets) ->
  (forall name ty, In (name, ty) assets ->
     exists e0, md0 !! name = Some e0 /\ candles e0 <> []) ->
  keepsWindows assets md0 md ->
  exists md',
    forEach (fun md amb => forEach (tickAsset amb) assets md) ambs md
    = Returns md'
    /\ keepsWindows assets md0 md'.
Proof.
  intros Hnd Hne. revert md.
  induction ambs as [|amb ambs IH]; intros md Hk.
  - exists md. split; [reflexivity|exact Hk].
  - cbn [forEach].
    destruct (forEach_tick_total amb assets md Hnd) as (md1 & H1).
    { intros name ty Hin. destruct (Hk name ty Hin) as (e0 & e & H0 & He & Hs).
      exists e. split; [exact He|].
      destruct (Hne name ty Hin) as (e0' & H0' & Hne0).
      rewrite H0 in H0'. injection H0' as <-.
      destruct Hs as (_ & Hl & _). intro E. rewrite E in Hl.
      destruct (candles e0); [contradiction|discriminate]. }
    rewrite H1. cbn [bind]. apply IH.
    intros name ty Hin. destruct (Hk name ty Hin) as (e0 & e & H0 & He & Hs).
    destruct (forEach_tick_at amb assets md md1 name ty Hnd Hin H1)
      as (e' & c & He' & Hc & Hmd1).
    rewrite He in He'. injection He' as <-.
    eexists e0, _. split; [exact H0|]. split; [exact Hmd1|].
    eapply sameWindow_trans; [exact Hs|].
    apply (ticked_entry _ _ _ _ Hc).
Qed.

(** X18.  From the initial market (readings of [Math.random] in
    [[0, 1)]) any number of timer runs completes.  Afterwards every listed
    instrument still has its window of 100 well-formed candles, of which
    the first 99 are those of the initialisation: no candle is ever
    appended.  Its macd is therefore the macd of the initial window, for
    good. *)
Theorem market_invariant (draws : string -> AssetDraws)
    (ambs : list TickAmbient) :
  (forall name, unitDraws (draws name)) ->
  exists md,
    ticks ambs (init draws) = Returns md
    /\ liveMarket ASSETS md
    /\ forall name ty, In (name, ty) ASSETS ->
         exists e0 e,
           init draws !! name = Some e0 /\ md !! name = Some e
           /\ take 99 (candles e) = take 99 (candles e0)
           /\ macd (getIndicators (candles e))
              = macd (getIndicators (candles e0)).
Proof.
  intro Hd. pose proof (init_live draws Hd) as Hlive.
  pose proof ASSETS_names_distinct as Hnd. unfold ticks, tick.
  generalize dependent ASSETS. intros assets Hlive Hnd.
  destruct (forEach_ticks_keep assets ambs (init draws) (init draws) Hnd)
    as (md & Hmd & Hk).
  { intros name ty Hin. destruct (Hlive name ty Hin) as (e & He & _ & Hl & _).
    exists e. split; [exact He|]. intro E. rewrite E in Hl. discriminate. }
  { intros name ty Hin. destruct (Hlive name ty Hin) as (e & He & _).
    exists e, e. split; [exact He|]. split; [exact He|].
    apply sameWindow_refl. }
  exists md. split; [exact Hmd|]. split.
  - intros name ty Hin.
    destruct (Hlive name ty Hin) as (e0 & H0 & Hty & Hl & Hw).
    destruct (Hk name ty Hin) as (e0' & e & H0' & He & Hs).
    rewrite H0 in H0'. injection H0' as <-.
    exists e. split; [exact He|]. destruct Hs as (Ht & Hlen & _ & Hwf).
    split; [congruence|]. split; [congruence|auto].
  - intros name ty Hin.
    destruct (Hlive name ty Hin) as (e0 & H0 & Hty & Hl & Hw).
    destruct (Hk name ty Hin) as (e0' & e & H0' & He & Hs).
    rewrite H0 in H0'. injection H0' as <-.
    exists e0, e. split; [exact H0|]. split; [exact He|].
    split; [apply sameWindow_take; [exact Hs|lia]|].
    unfold getIndicators. cbn [macd].
    apply sameWindow_MACD; [exact Hs|lia].
Qed.

Lemma market_invariant_witness :
  exists md, ticks [steadyTick; steadyTick] (init steadyDraws) = Returns md
             /\ liveMarket ASSETS md.
Proof.
  destruct (market_invariant steadyDraws [steadyTick; steadyTick]
              steadyDraws_unit) as (md & Hmd & Hlive & _).
  exists md. split; [exact Hmd|exact Hlive].
Defined.


(** ** Reporting a result *)

Lemma analyzeAsset_context (env : Env) (amb : Ambient) (assetName : string)
    (config : ScannerConfig) (s : Signal) :
  analyzeAsset env amb assetName config = Returns (Some s) ->
  exists ctx, context s = Some ctx /\ ctx_confluences ctx = confluences s.
Proof.
  unfold analyzeAsset.
  destruct (marketData env !! assetName) as [data|]; [|discriminate].
  destruct (buyBlock _ _ _) as [st1|]; [|discriminate].
  cbn [bind].
  destruct (sellBlock _ _ _) as [[d labels]|]; [|discriminate].
  cbn [bind]. intro H.
  destruct d; try discriminate;
    destruct (entrySchedule _ _ _) as [entryDate expiration];
    destruct (closeOf _) as [p|]; try discriminate;
    cbn [bind] in H; injection H as <-; cbn;
    eexists; split; reflexivity.
Qed.

Lemma analyzeAsset_other_history (md : gmap string MarketEntry) (tz : Z)
    (amb : Ambient) (assetName : string) (config : ScannerConfig)
    (h h' : list Feedback) (s : Signal) :
  analyzeAsset (mkEnv md h tz) amb assetName config = Returns (Some s) ->
  winrate s
  = winrateUnder assetName (direction s) (confluences s) (mathRandom amb) h
  /\ exists s',
       analyzeAsset (mkEnv md h' tz) amb assetName config = Returns (Some s')
       /\ direction s' = direction s
       /\ confluences s' = confluences s
       /\ winrate s'
          = winrateUnder assetName (direction s) (confluences s)
              (mathRandom amb) h'.
Proof.
  intro Hs. apply analyzeAsset_signal in Hs.
  cbn [marketData feedbackHistory] in Hs.
  destruct Hs as (data & st1 & Hd & Hb & Hsell & Hne & _ & _ & _ & Hw & _).
  split; [exact Hw|].
  destruct (analyzeAsset_blocks (mkEnv md h' tz) amb assetName config data Hd)
    as (st1' & d & labels & Hb' & Hsell' & _ & Hsome).
  rewrite Hb in Hb'. injection Hb' as <-.
  rewrite Hsell in Hsell'. injection Hsell' as <- <-.
  destruct (Hsome Hne) as (s' & Hs' & Hdir & Hlab).
  exists s'. split; [exact Hs'|]. split; [exact Hdir|]. split; [exact Hlab|].
  apply analyzeAsset_signal in Hs'. cbn [marketData feedbackHistory] in Hs'.
  destruct Hs' as (_ & _ & _ & _ & _ & _ & _ & _ & _ & Hw' & _).
  rewrite Hdir, Hlab in Hw'. exact Hw'.
Qed.

(** X19.  The body that [sendFeedback] builds from a signal of a named
    instrument is accepted by the feedback endpoint, which appends it,
    stamped, to the history.  Reported as a loss, it counts as a similar
    loss of that very setup: analysed again on the same market, the
    instrument gets the same direction and labels, a penalty lower by
    five, and a winrate that is not higher (strictly lower unless the
    clamp hides it).  Reported as a win, it leaves the penalty alone and
    the winrate is not lower. *)
Theorem reported_result_feeds_back (md : gmap string MarketEntry) (tz : Z)
    (amb : Ambient) (assetName : string) (config : ScannerConfig)
    (h : list Feedback) (s : Signal) (now : Z) :
  assetName <> "" ->
  analyzeAsset (mkEnv md h tz) amb assetName config = Returns (Some s) ->
  let stamped result :=
    mkFeedback (Some assetName) (Some (directionText (direction s)))
      (Some result) (Some now) (context s) in
  let penalty history :=
    lossPenaltyOf history assetName (direction s) (confluences s) in
  let again history s' :=
    analyzeAsset (mkEnv md history tz) amb assetName config
    = Returns (Some s')
    /\ direction s' = direction s /\ confluences s' = confluences s in
  postFeedback now h (feedbackBody s "loss")
  = (Status200 "ok" (S (length h)), h ++ [stamped "loss"])
  /\ postFeedback now h (feedbackBody s "win")
     = (Status200 "ok" (S (length h)), h ++ [stamped "win"])
  /\ penalty (h ++ [stamped "loss"]) = (penalty h - 5)%Z
  /\ penalty (h ++ [stamped "win"]) = penalty h
  /\ (exists s', again (h ++ [stamped "loss"]) s'
                 /\ winrate s' <= winrate s
                 /\ (0 < winrate s -> winrate s' < 100 ->
                     winrate s' < winrate s))
  /\ (exists s', again (h ++ [stamped "win"]) s'
                 /\ winrate s <= winrate s').
Proof.
  intros Hname Hs. cbv zeta.
  pose proof (analyzeAsset_signal _ _ _ _ _ Hs)
    as (data & st1 & _ & Hb & Hsell & Hne & Hasset & _).
  pose proof (blocks_min_confluence _ _ _ _ _ Hb Hsell Hne) as Hlen.
  destruct (analyzeAsset_context _ _ _ _ _ Hs) as (ctx & Hctx & Hlabels).
  assert (Htruthy : truthy (Some assetName) = true).
  { cbn. apply negb_true_iff, String.eqb_neq. exact Hname. }
  assert (Hpost : forall result, result <> "" ->
            postFeedback now h (feedbackBody s result)
            = (Status200 "ok" (S (length h)),
               h ++ [mkFeedback (Some assetName)
                       (Some (directionText (direction s)))
                       (Some result) (Some now) (context s)])).
  { intros result Hr. unfold postFeedback, feedbackBody.
    cbn [fb_asset fb_result fb_direction fb_context]. rewrite Hasset, Htruthy.
    replace (truthy (Some result)) with true
      by (symmetry; cbn; apply negb_true_iff, String.eqb_neq; exact Hr).
    cbn [negb orb]. rewrite length_app, Nat.add_1_r. reflexivity. }
  assert (Hloss : similarLoss assetName (direction s) (confluences s)
                    (mkFeedback (Some assetName)
                       (Some (directionText (direction s)))
                       (Some "loss") (Some now) (context s)) = true).
  { unfold similarLoss, propIs.
    cbn [fb_asset fb_result fb_direction fb_context].
    rewrite !String.eqb_refl, Hctx, Hlabels. cbn [andb].
    apply overlapRatio_self. lia. }
  assert (Hwin : winFor assetName
                   (mkFeedback (Some assetName)
                      (Some (directionText (direction s)))
                      (Some "win") (Some now) (context s)) = true).
  { unfold winFor, propIs. cbn [fb_asset fb_result].
    rewrite !String.eqb_refl. reflexivity. }
  pose proof (added_one _ h [] _ Hloss) as Haddl.
  pose proof (added_one _ h [] _ Hwin) as Haddw.
  rewrite app_nil_r in Haddl, Haddw.
  split; [apply Hpost; discriminate|]. split; [apply Hpost; discriminate|].
  split.
  { pose proof (lossPenaltyOf_insert assetName (direction s) (confluences s)
                  h [] _ Hloss) as Hp.
    rewrite app_nil_r in Hp. exact Hp. }
  split.
  { exact (proj1 (winrateUnder_added_wins assetName (direction s)
                    (confluences s) (mathRandom amb) _ _ Haddw)). }
  split.
  - destruct (analyzeAsset_other_history md tz amb assetName config h
                (h ++ [mkFeedback (Some assetName)
                         (Some (directionText (direction s)))
                         (Some "loss") (Some now) (context s)]) s Hs)
      as (Hw & s' & Hs' & Hdir & Hlab & Hw').
    exists s'. split; [repeat split; assumption|].
    rewrite Hw, Hw'.
    exact (proj2 (winrateUnder_added assetName (direction s) (confluences s)
                    (mathRandom amb) _ _ Haddl)).
  - destruct (analyzeAsset_other_history md tz amb assetName config h
                (h ++ [mkFeedback (Some assetName)
                         (Some (directionText (direction s)))
                         (Some "win") (Some now) (context s)]) s Hs)
      as (Hw & s' & Hs' & Hdir & Hlab & Hw').
    exists s'. split; [repeat split; assumption|].
    rewrite Hw, Hw'.
    exact (proj2 (winrateUnder_added_wins assetName (direction s)
                    (confluences s) (mathRandom amb) _ _ Haddw)).
Qed.

Lemma reported_result_feeds_back_witness :
  exists s,
    analyzeAsset (sampleEnv []) (sampleAmbient 0) "GBPUSD" (mkConfig M5 GERAL)
    = Returns (Some s)
    /\ lossPenaltyOf
         (snd (postFeedback 0 [] (feedbackBody s "loss")))
         "GBPUSD" (direction s) (confluences s) = (-5)%Z.
Proof.
  eexists. split; [evaluate|].
  pose proof (reported_result_feeds_back
                (marketData (sampleEnv [])) (tzMinutes (sampleEnv []))
                (sampleAmbient 0) "GBPUSD" (mkConfig M5 GERAL) [] _ 0%Z
                ltac:(discriminate) ltac:(evaluate)) as H.
  cbv zeta in H. destruct H as (Hpost & _ & Hpen & _).
  rewrite Hpost. exact Hpen.
Defined.

(** ** Muting an instrument *)

Lemma spreadSet_set (prev : list (string * Z)) (key : string) (value : Z) :
  In (key, value) (spreadSet prev key value)
  /\ forall v, In (key, v) (spreadSet prev key value) -> v = value.
Proof.
  unfold spreadSet.
  destruct (existsb (fun kv => String.eqb (fst kv) key) prev) eqn:E.
  - split.
    + apply existsb_exists in E. destruct E as (kv & Hin & Hk).
      apply in_map_iff. exists kv. rewrite Hk. split; [reflexivity|exact Hin].
    + intros v Hv. apply in_map_iff in Hv. destruct Hv as (kv & Hkv & _).
      destruct (String.eqb (fst kv) key) eqn:Ek.
      * congruence.
      * subst kv. cbn in Ek. rewrite String.eqb_refl in Ek. discriminate.
  - split; [apply in_or_app; right; left; reflexivity|].
    intros v Hv. apply in_app_or in Hv. destruct Hv as [Hv|[Hv|[]]];
      [|congruence].
    exfalso. apply Bool.not_true_iff_false in E. apply E.
    apply existsb_exists. exists (key, v).
    split; [exact Hv|apply String.eqb_refl].
Qed.

Lemma scan_selected_candidate (assets : list (string * MarketType))
    (env : Env) (clk : ScanAmbient) (cfg : ScannerConfig)
    (mutedList : list string) (lastSignalInfo : option SignalInfo)
    (res : ScanResult) (last' : option SignalInfo) (b : Signal) :
  scan assets env clk cfg mutedList lastSignalInfo = Returns (res, last') ->
  bestSignal res = Some b ->
  exists name ty,
    In (name, ty) assets /\ asset b = name
    /\ candidateOf env clk cfg mutedList lastSignalInfo (name, ty) = Some b.
Proof.
  intros H Hb. apply scan_result in H. destruct H as (Hbest & _).
  rewrite Hb in Hbest. symmetry in Hbest.
  apply selected_is_candidate in Hbest. unfold candidates in Hbest.
  apply list_elem_of_In, list_elem_of_omap in Hbest.
  destruct Hbest as ([name ty] & Hin & Ha). exists name, ty.
  split; [apply list_elem_of_In, Hin|]. split; [|exact Ha].
  apply candidateOf_facts in Ha. cbn [fst snd] in Ha.
  destruct Ha as (_ & _ & Han & _).
  apply analyzeAsset_signal in Han.
  destruct Han as (_ & _ & _ & _ & _ & _ & Hname & _). exact Hname.
Qed.

(** X20.  Muting an instrument takes its signal off display.  A scan
    started from a connected, idle page then names the instrument among
    the muted ones exactly while fewer than five minutes have passed since
    the muting; during that time the reply of the server never puts a
    signal of that instrument on display, and afterwards the instrument is
    dropped from the muted ones. *)
Theorem muted_asset_stays_out (st : AppState) (assetName : string)
    (t0 t1 : Z) :
  app_connected st = true -> app_isScanning st = false ->
  let st1 := muteAsset t0 assetName st in
  (forall b, app_bestSignal st1 = Some b -> asset b <> assetName)
  /\ exists st2 m,
       handleScan t1 st1 = (st2, Some m)
       /\ msg_type m = "SCAN_MARKET" /\ msg_config m = app_config st
       /\ (includes (default [] (msg_mutedAssets m)) assetName = true
           <-> (t1 < t0 + 300000)%Z)
       /\ ((t1 < t0 + 300000)%Z ->
           forall env clk lastSignalInfo res last' b,
             onMessage env clk m lastSignalInfo = Returns (Some res, last') ->
             app_bestSignal (onScanResult res st2) = Some b ->
             asset b <> assetName)
       /\ ((t0 + 300000 <= t1)%Z ->
           ~ In assetName (map fst (app_mutedAssets st2))).
Proof.
  intros Hc Hi. cbv zeta. split.
  { unfold muteAsset. cbn [app_bestSignal]. intros b.
    destruct (app_bestSignal st) as [best|]; [|discriminate].
    destruct (String.eqb (asset best) assetName) eqn:E; [discriminate|].
    intros [= <-]. apply String.eqb_neq. exact E. }
  unfold handleScan, muteAsset.
  cbn [app_connected app_isScanning app_mutedAssets app_config app_bestSignal
       app_feedbackSent].
  rewrite Hc, Hi. cbn [negb orb].
  change (5 * 60 * 1000)%Z with 300000%Z.
  destruct (spreadSet_set (app_mutedAssets st) assetName (t0 + 300000)%Z)
    as (Hset & Honly).
  set (muted := spreadSet (app_mutedAssets st) assetName (t0 + 300000)%Z) in *.
  set (activeMutes := List.filter (fun kv => (t1 <? snd kv)%Z) muted).
  assert (Hactive : In assetName (map fst activeMutes) <-> (t1 < t0 + 300000)%Z).
  { split.
    - intro H. apply in_map_iff in H. destruct H as ([k v] & Hk & Hin).
      cbn in Hk. subst k. apply filter_In in Hin. destruct Hin as (Hin & Hlt).
      apply Honly in Hin. subst v. apply Z.ltb_lt in Hlt. exact Hlt.
    - intro H. apply in_map_iff. exists (assetName, (t0 + 300000)%Z).
      split; [reflexivity|]. apply filter_In. split; [exact Hset|].
      apply Z.ltb_lt. exact H. }
  eexists _, _. split; [reflexivity|]. cbn [msg_type msg_config msg_mutedAssets].
  split; [reflexivity|]. split; [reflexivity|]. cbn [default].
  split; [rewrite includes_true_iff, list_elem_of_In; exact Hactive|].
  split.
  - intros Hlt env clk lastSignalInfo res last' b Hm Hb.
    unfold onScanResult in Hb. cbn [app_bestSignal] in Hb.
    apply onMessage_scan in Hm. destruct Hm as (_ & Hscan).
    cbn [msg_config msg_mutedAssets default] in Hscan.
    generalize dependent ASSETS. intros assets Hscan.
    destruct (scan_selected_candidate _ _ _ _ _ _ _ _ _ Hscan Hb)
      as (name & ty & _ & Hname & Hcand).
    apply candidateOf_facts in Hcand. cbn [fst] in Hcand.
    destruct Hcand as (Hnot & _). intro E. rewrite Hname in E.
    rewrite E in Hnot.
    apply Hactive in Hlt. apply list_elem_of_In, includes_true_iff in Hlt.
    change (includes (map fst activeMutes) assetName = false) in Hnot.
    congruence.
  - intros Hge Hin.
    destruct (negb (length muted =? length activeMutes)%nat) eqn:E.
    + apply Hactive in Hin. lia.
    + apply negb_false_iff, Nat.eqb_eq in E.
      assert (Hall : activeMutes = muted).
      { unfold activeMutes in *. clear -E.
        induction muted as [|kv l IH]; [reflexivity|].
        cbn [List.filter length] in *.
        destruct (t1 <? snd kv)%Z.
        - cbn [length] in E. f_equal. apply IH. lia.
        - pose proof (filter_length_le (fun kv => (t1 <? snd kv)%Z) l). lia. }
      rewrite <- Hall in Hin. apply Hactive in Hin. lia.
Qed.

Lemma muted_asset_stays_out_witness :
  exists st2 m,
    handleScan 60000 (muteAsset 0 "EURUSD" idlePage) = (st2, Some m)
    /\ includes (default [] (msg_mutedAssets m)) "EURUSD" = true.
Proof.
  destruct (proj2 (muted_asset_stays_out idlePage "EURUSD" 0 60000
                     eq_refl eq_refl))
    as (st2 & m & Hscan & _ & _ & Hin & _).
  exists st2, m. split; [exact Hscan|]. apply Hin. reflexivity.
Defined.
